(** * A zoomable point-cloud image viewer: camera controller and point shader

    Shallow embedding of [src/main.js] (camera navigation, per-frame
    uniform push, overlay fade), of its earlier variant
    [main working x1.js], and of the GLSL programs of [src/shaders.js].

    Numbers.  JavaScript numbers and GLSL floats are modelled as real
    numbers with exact arithmetic: rounding, infinities and NaN are outside
    the model.  Comparisons are decided on the reals, so a definition is
    evaluated at a concrete input by rewriting with the order facts
    (tactics [cmp_case], [minmax], [config] below) and linear arithmetic.

    Environment.  [Math.random()] and [Date.now()] are inputs of the call
    that reads them; the window size is part of the state; the texture
    bound to the sampler is a function from texture coordinates to
    colours; the matrices three.js passes to the shader are maps on vec4.

    State.  The module-level variables of main.js and the camera fields it
    touches form one record, threaded through the handlers and the
    per-frame updates in program order.  The DOM, the renderer and the
    statistics panel are not modelled. *)

From Stdlib Require Import Reals Lra Lia List Bool.
Import ListNotations.
Open Scope R_scope.

(** ** Comparisons, and the JavaScript arithmetic used by main.js *)

Module Num.

(** The comparisons [a < b], [a > b], [a <= b], [a >= b] as booleans. *)
Definition ltb (a b : R) : bool := if Rlt_dec a b then true else false.
Definition gtb (a b : R) : bool := if Rlt_dec b a then true else false.
Definition leb (a b : R) : bool := if Rle_dec a b then true else false.
Definition geb (a b : R) : bool := if Rle_dec b a then true else false.

End Num.

Module JS.

(** [Math.sign]: -1, 0 or 1. *)
Definition sign (a : R) : R :=
  if Rlt_dec 0 a then 1 else if Rlt_dec a 0 then -1 else 0.

(** [Math.abs], [Math.max], [Math.min] on two arguments. *)
Definition abs (a : R) : R := Rabs a.
Definition max (a b : R) : R := Rmax a b.
Definition min (a b : R) : R := Rmin a b.

End JS.

(** ** Vectors: JS [{x, y}] objects, THREE.Vector3 and GLSL vec2/vec3/vec4 *)

Record vec2 : Type := Vec2 { x2 : R; y2 : R }.
Record vec3 : Type := Vec3 { x3 : R; y3 : R; z3 : R }.
Record vec4 : Type := Vec4 { x4 : R; y4 : R; z4 : R; w4 : R }.

(** ** GLSL built-in functions used by shaders.js *)

Module GLSL.

Definition clamp (v lo hi : R) : R := Rmin (Rmax v lo) hi.

(** [mix(a, b, t) = a * (1 - t) + b * t], on floats and component-wise. *)
Definition mix (a b t : R) : R := a * (1 - t) + b * t.
Definition mix3 (a b : vec3) (t : R) : vec3 :=
  Vec3 (mix (x3 a) (x3 b) t) (mix (y3 a) (y3 b) t) (mix (z3 a) (z3 b) t).

Definition dot2 (a b : vec2) : R := x2 a * x2 b + y2 a * y2 b.
Definition dot3 (a b : vec3) : R := x3 a * x3 b + y3 a * y3 b + z3 a * z3 b.

(** [fract(v) = v - floor(v)]. *)
Definition fract (v : R) : R := frac_part v.

(** [pow(b, e)]: GLSL leaves it undefined for [b < 0] and for [b = 0] with
    [e <= 0]; the model returns 0 for every [b <= 0]. *)
Definition pow (b e : R) : R := if Rle_dec b 0 then 0 else Rpower b e.

Definition add2 (a b : vec2) : vec2 := Vec2 (x2 a + x2 b) (y2 a + y2 b).
Definition add3 (a b : vec3) : vec3 :=
  Vec3 (x3 a + x3 b) (y3 a + y3 b) (z3 a + z3 b).

(** Swizzles [.xy] and [.rgb], and the constructor [vec3(s)]. *)
Definition xy (p : vec3) : vec2 := Vec2 (x3 p) (y3 p).
Definition rgb (c : vec4) : vec3 := Vec3 (x4 c) (y4 c) (z4 c).
Definition splat3 (s : R) : vec3 := Vec3 s s s.
Definition with_rgb (c : vec4) (v : vec3) : vec4 :=
  Vec4 (x3 v) (y3 v) (z3 v) (w4 c).

(** [smoothstep(edge0, edge1, x)]: Hermite interpolation of the clamped
    ratio.  GLSL leaves it undefined for [edge0 >= edge1]. *)
Definition smoothstep (edge0 edge1 x : R) : R :=
  let t := clamp ((x - edge0) / (edge1 - edge0)) 0 1 in
  t * t * (3 - 2 * t).

(** [length] of a vec2 and the difference of two vec2. *)
Definition length2 (a : vec2) : R := sqrt (x2 a * x2 a + y2 a * y2 a).
Definition sub2 (a b : vec2) : vec2 := Vec2 (x2 a - x2 b) (y2 a - y2 b).


End GLSL.

(** ** shaders.js: the vertex shader *)

Module Shaders.

(** The uniforms declared by [vertexShader].  [map] is the bound texture;
    [displacementHalfwayZoom] is declared but main.js assigns it a
    configuration key that does not exist, hence the option. *)
Record Uniforms : Type := mkUniforms {
  map : vec2 -> vec4;
  basePointSize : R;
  brightnessMultiplier : R;
  minPointSize : R;
  displacementAmount : R;
  seed : R;
  cameraZoom : R;
  screenWidth : R;
  screenHeight : R;
  imageWidth : R;
  imageHeight : R;
  planeWidth : R;
  planeHeight : R;
  zoomThreshold : R;
  maxZoomForSizeTransition : R;
  displacementStartZoom : R;
  displacementHalfwayZoom : option R;
  displacementFullZoom : R;
  time : R;
  displacementJitterMagnitude : R;
  displacementJitterSpeed : R;
  brightnessBoost : R;
  brightnessSteepness : R
}.

(** [float random(vec2 st)] (shaders.js lines 29-31). *)
Definition random (u : Uniforms) (st : vec2) : R :=
  GLSL.fract (sin (GLSL.dot2 st (Vec2 12.9898 78.233) + seed u) * 43758.5453123).

(** The locals of [main] (shaders.js lines 33-112), in the order the
    shader computes them. *)
Definition sampledColor (u : Uniforms) (uv : vec2) : vec4 := map u uv.

Definition brightness (u : Uniforms) (uv : vec2) : R :=
  GLSL.dot3 (GLSL.rgb (sampledColor u uv)) (Vec3 0.299 0.587 0.114).

Definition brightenFactor (u : Uniforms) : R :=
  GLSL.clamp (brightnessBoost u) 0 1.

Definition darkness (u : Uniforms) (uv : vec2) : R := 1 - brightness u uv.

Definition impact (u : Uniforms) (uv : vec2) : R :=
  GLSL.pow (darkness u uv) (brightnessSteepness u) * brightenFactor u.

(** [vColor] after [vColor.rgb = mix(vColor.rgb, vec3(1.0), impact)]. *)
Definition vColor (u : Uniforms) (uv : vec2) : vec4 :=
  GLSL.with_rgb (sampledColor u uv)
    (GLSL.mix3 (GLSL.rgb (sampledColor u uv)) (GLSL.splat3 1) (impact u uv)).

Definition totalPoints (u : Uniforms) : R := imageWidth u * imageHeight u.

Definition visiblePixels (u : Uniforms) : R :=
  (planeWidth u * planeHeight u * cameraZoom u * cameraZoom u
   * screenWidth u * screenHeight u) / 4.

Definition samplingRate (u : Uniforms) : R :=
  Rmin 1 (visiblePixels u / totalPoints u).

Definition pointId (u : Uniforms) (uv : vec2) : R := random u uv.

(** The test of [if (pointId > samplingRate)]: the point is discarded. *)
Definition culled (u : Uniforms) (uv : vec2) : bool :=
  Num.gtb (pointId u uv) (samplingRate u).

Definition zoomFactor (u : Uniforms) : R :=
  GLSL.clamp ((cameraZoom u - zoomThreshold u)
              / (maxZoomForSizeTransition u - zoomThreshold u)) 0 1.

Definition displacementFactor (u : Uniforms) : R :=
  GLSL.clamp ((cameraZoom u - displacementStartZoom u)
              / (displacementFullZoom u - displacementStartZoom u)) 0 1.

Definition uniformSize (u : Uniforms) : R := minPointSize u.

Definition brightnessBasedSize (u : Uniforms) (uv : vec2) : R :=
  minPointSize u + (basePointSize u * brightness u uv * brightnessMultiplier u).

Definition sizeBeforeCompensation (u : Uniforms) (uv : vec2) : R :=
  GLSL.mix (uniformSize u) (brightnessBasedSize u uv) (zoomFactor u).

Definition densityCompensation (u : Uniforms) : R :=
  sqrt (1 / Rmax 0.01 (samplingRate u)).

Definition gl_PointSize (u : Uniforms) (uv : vec2) : R :=
  sizeBeforeCompensation u uv * densityCompensation u.

(** The per-vertex attributes of a sample. *)
Record Attributes : Type := mkAttributes { position : vec3; uv : vec2 }.

(** The matrices three.js supplies to every shader, as maps on vec4. *)
Record Builtins : Type := mkBuiltins {
  projectionMatrix : vec4 -> vec4;
  modelViewMatrix : vec4 -> vec4
}.

Definition randX (u : Uniforms) (p : vec3) : R :=
  random u (GLSL.add2 (GLSL.xy p) (Vec2 0.1 0.3)) * 2 - 1.

Definition randY (u : Uniforms) (p : vec3) : R :=
  random u (GLSL.add2 (GLSL.xy p) (Vec2 0.6 0.9)) * 2 - 1.

Definition scaledDisplacement (u : Uniforms) : R :=
  displacementAmount u * displacementFactor u * 5.

Definition pointSpecificPhaseOffset (u : Uniforms) (p : vec3) : R :=
  random u (GLSL.xy p) * 2 * 3.1415926535.

Definition displacementOscillation (u : Uniforms) (p : vec3) : R :=
  1 + sin (time u * displacementJitterSpeed u + pointSpecificPhaseOffset u p)
      * displacementJitterMagnitude u.

Definition finalScaledDisplacement (u : Uniforms) (p : vec3) : R :=
  scaledDisplacement u
  * (if Num.gtb (displacementFactor u) 0 then displacementOscillation u p else 1).

Definition displacedPosition (u : Uniforms) (p : vec3) : vec3 :=
  GLSL.add3 p
    (Vec3 (randX u p * finalScaledDisplacement u p)
          (randY u p * finalScaledDisplacement u p)
          0).

(** What one run of [main] writes.  A discarded point returns before
    [gl_PointSize] is assigned. *)
Record VertexOut : Type := mkVertexOut {
  out_vUv : vec2;
  out_vColor : vec4;
  out_gl_PointSize : option R;
  out_gl_Position : vec4
}.

Definition main (m : Builtins) (u : Uniforms) (a : Attributes) : VertexOut :=
  if culled u (uv a) then
    mkVertexOut (uv a) (vColor u (uv a)) None (Vec4 2 2 2 1)
  else
    let d := displacedPosition u (position a) in
    mkVertexOut (uv a) (vColor u (uv a)) (Some (gl_PointSize u (uv a)))
      (projectionMatrix m (modelViewMatrix m (Vec4 (x3 d) (y3 d) (z3 d) 1))).

(** Assignment to one uniform ([uniforms.name.value = v] in main.js). *)
Definition set_cameraZoom (v : R) (u : Uniforms) : Uniforms :=
  mkUniforms (map u) (basePointSize u) (brightnessMultiplier u)
    (minPointSize u) (displacementAmount u) (seed u) v (screenWidth u)
    (screenHeight u) (imageWidth u) (imageHeight u) (planeWidth u)
    (planeHeight u) (zoomThreshold u) (maxZoomForSizeTransition u)
    (displacementStartZoom u) (displacementHalfwayZoom u)
    (displacementFullZoom u) (time u) (displacementJitterMagnitude u)
    (displacementJitterSpeed u) (brightnessBoost u) (brightnessSteepness u).

Definition set_screenWidth (v : R) (u : Uniforms) : Uniforms :=
  mkUniforms (map u) (basePointSize u) (brightnessMultiplier u)
    (minPointSize u) (displacementAmount u) (seed u) (cameraZoom u) v
    (screenHeight u) (imageWidth u) (imageHeight u) (planeWidth u)
    (planeHeight u) (zoomThreshold u) (maxZoomForSizeTransition u)
    (displacementStartZoom u) (displacementHalfwayZoom u)
    (displacementFullZoom u) (time u) (displacementJitterMagnitude u)
    (displacementJitterSpeed u) (brightnessBoost u) (brightnessSteepness u).

Definition set_screenHeight (v : R) (u : Uniforms) : Uniforms :=
  mkUniforms (map u) (basePointSize u) (brightnessMultiplier u)
    (minPointSize u) (displacementAmount u) (seed u) (cameraZoom u)
    (screenWidth u) v (imageWidth u) (imageHeight u) (planeWidth u)
    (planeHeight u) (zoomThreshold u) (maxZoomForSizeTransition u)
    (displacementStartZoom u) (displacementHalfwayZoom u)
    (displacementFullZoom u) (time u) (displacementJitterMagnitude u)
    (displacementJitterSpeed u) (brightnessBoost u) (brightnessSteepness u).

Definition set_zoomThreshold (v : R) (u : Uniforms) : Uniforms :=
  mkUniforms (map u) (basePointSize u) (brightnessMultiplier u)
    (minPointSize u) (displacementAmount u) (seed u) (cameraZoom u)
    (screenWidth u) (screenHeight u) (imageWidth u) (imageHeight u)
    (planeWidth u) (planeHeight u) v (maxZoomForSizeTransition u)
    (displacementStartZoom u) (displacementHalfwayZoom u)
    (displacementFullZoom u) (time u) (displacementJitterMagnitude u)
    (displacementJitterSpeed u) (brightnessBoost u) (brightnessSteepness u).

Definition set_maxZoomForSizeTransition (v : R) (u : Uniforms) : Uniforms :=
  mkUniforms (map u) (basePointSize u) (brightnessMultiplier u)
    (minPointSize u) (displacementAmount u) (seed u) (cameraZoom u)
    (screenWidth u) (screenHeight u) (imageWidth u) (imageHeight u)
    (planeWidth u) (planeHeight u) (zoomThreshold u) v
    (displacementStartZoom u) (displacementHalfwayZoom u)
    (displacementFullZoom u) (time u) (displacementJitterMagnitude u)
    (displacementJitterSpeed u) (brightnessBoost u) (brightnessSteepness u).

Definition set_displacementStartZoom (v : R) (u : Uniforms) : Uniforms :=
  mkUniforms (map u) (basePointSize u) (brightnessMultiplier u)
    (minPointSize u) (displacementAmount u) (seed u) (cameraZoom u)
    (screenWidth u) (screenHeight u) (imageWidth u) (imageHeight u)
    (planeWidth u) (planeHeight u) (zoomThreshold u)
    (maxZoomForSizeTransition u) v (displacementHalfwayZoom u)
    (displacementFullZoom u) (time u) (displacementJitterMagnitude u)
    (displacementJitterSpeed u) (brightnessBoost u) (brightnessSteepness u).

Definition set_displacementHalfwayZoom (v : option R) (u : Uniforms) : Uniforms :=
  mkUniforms (map u) (basePointSize u) (brightnessMultiplier u)
    (minPointSize u) (displacementAmount u) (seed u) (cameraZoom u)
    (screenWidth u) (screenHeight u) (imageWidth u) (imageHeight u)
    (planeWidth u) (planeHeight u) (zoomThreshold u)
    (maxZoomForSizeTransition u) (displacementStartZoom u) v
    (displacementFullZoom u) (time u) (displacementJitterMagnitude u)
    (displacementJitterSpeed u) (brightnessBoost u) (brightnessSteepness u).

Definition set_displacementFullZoom (v : R) (u : Uniforms) : Uniforms :=
  mkUniforms (map u) (basePointSize u) (brightnessMultiplier u)
    (minPointSize u) (displacementAmount u) (seed u) (cameraZoom u)
    (screenWidth u) (screenHeight u) (imageWidth u) (imageHeight u)
    (planeWidth u) (planeHeight u) (zoomThreshold u)
    (maxZoomForSizeTransition u) (displacementStartZoom u)
    (displacementHalfwayZoom u) v (time u) (displacementJitterMagnitude u)
    (displacementJitterSpeed u) (brightnessBoost u) (brightnessSteepness u).

Definition set_time (v : R) (u : Uniforms) : Uniforms :=
  mkUniforms (map u) (basePointSize u) (brightnessMultiplier u)
    (minPointSize u) (displacementAmount u) (seed u) (cameraZoom u)
    (screenWidth u) (screenHeight u) (imageWidth u) (imageHeight u)
    (planeWidth u) (planeHeight u) (zoomThreshold u)
    (maxZoomForSizeTransition u) (displacementStartZoom u)
    (displacementHalfwayZoom u) (displacementFullZoom u) v
    (displacementJitterMagnitude u) (displacementJitterSpeed u)
    (brightnessBoost u) (brightnessSteepness u).

Definition set_displacementJitterMagnitude (v : R) (u : Uniforms) : Uniforms :=
  mkUniforms (map u) (basePointSize u) (brightnessMultiplier u)
    (minPointSize u) (displacementAmount u) (seed u) (cameraZoom u)
    (screenWidth u) (screenHeight u) (imageWidth u) (imageHeight u)
    (planeWidth u) (planeHeight u) (zoomThreshold u)
    (maxZoomForSizeTransition u) (displacementStartZoom u)
    (displacementHalfwayZoom u) (displacementFullZoom u) (time u) v
    (displacementJitterSpeed u) (brightnessBoost u) (brightnessSteepness u).

Definition set_displacementJitterSpeed (v : R) (u : Uniforms) : Uniforms :=
  mkUniforms (map u) (basePointSize u) (brightnessMultiplier u)
    (minPointSize u) (displacementAmount u) (seed u) (cameraZoom u)
    (screenWidth u) (screenHeight u) (imageWidth u) (imageHeight u)
    (planeWidth u) (planeHeight u) (zoomThreshold u)
    (maxZoomForSizeTransition u) (displacementStartZoom u)
    (displacementHalfwayZoom u) (displacementFullZoom u) (time u)
    (displacementJitterMagnitude u) v (brightnessBoost u)
    (brightnessSteepness u).

Definition set_brightnessBoost (v : R) (u : Uniforms) : Uniforms :=
  mkUniforms (map u) (basePointSize u) (brightnessMultiplier u)
    (minPointSize u) (displacementAmount u) (seed u) (cameraZoom u)
    (screenWidth u) (screenHeight u) (imageWidth u) (imageHeight u)
    (planeWidth u) (planeHeight u) (zoomThreshold u)
    (maxZoomForSizeTransition u) (displacementStartZoom u)
    (displacementHalfwayZoom u) (displacementFullZoom u) (time u)
    (displacementJitterMagnitude u) (displacementJitterSpeed u) v
    (brightnessSteepness u).

(** ** shaders.js: the fragment shader (lines 115-136) *)

(** The locals of the fragment shader's [main]; the only uniform it reads
    is [pointEdgeSoftness]. *)
Definition fragDistance (gl_PointCoord : vec2) : R :=
  GLSL.length2 (GLSL.sub2 gl_PointCoord (Vec2 0.5 0.5)).

Definition innerEdge (pointEdgeSoftness : R) : R :=
  Rmax 0 (0.5 - pointEdgeSoftness).

Definition fragAlpha (pointEdgeSoftness : R) (gl_PointCoord : vec2) : R :=
  1 - GLSL.smoothstep (innerEdge pointEdgeSoftness) 0.5
        (fragDistance gl_PointCoord).

(** One run of the fragment shader: [None] when the fragment is
    discarded, else [gl_FragColor]. *)
Definition fragmentMain (pointEdgeSoftness : R) (vColor : vec4)
  (gl_PointCoord : vec2) : option vec4 :=
  if Num.gtb (fragDistance gl_PointCoord) 0.5 then None
  else Some (Vec4 (x4 vColor) (y4 vColor) (z4 vColor)
               (w4 vColor * fragAlpha pointEdgeSoftness gl_PointCoord)).


End Shaders.

(** ** main.js: configuration and state *)

Module Main.

(** The numeric and boolean keys of [CONFIG] ([imagePath] is an asset
    reference and [planeSubdivisions] is never read). *)
Record Config : Type := mkConfig {
  frustumSize : R;
  zoomStep : R;
  minZoom : R;
  zoomDamping : R;
  panDamping : R;
  planeHeight : R;
  cameraZ : R;
  pointSize : R;
  texturePlaneFadeStartZoom : R;
  texturePlaneFadeEndZoom : R;
  brightnessMultiplier : R;
  minPointSizeFactor : R;
  pointEdgeSoftness : R;
  zoomThreshold : R;
  maxZoomForSizeTransition : R;
  displacementAmount : R;
  displacementStartZoom : R;
  displacementFullZoom : R;
  displacementJitterMagnitude : R;
  displacementJitterSpeed : R;
  brightnessBoost : R;
  brightnessBoostStartZoom : R;
  brightnessBoostEnabled : bool;
  brightnessSteepness : R;
  autoMovementEnabled : bool;
  autoMovementSpeed : R;
  autoMovementBufferAmount : R;
  autoMovementEdgeThreshold : R;
  autoMovementEdgeForce : R;
  autoMovementChangeRate : R;
  autoZoomEnabled : bool;
  autoZoomSpeed : R;
  autoZoomSpeedVariability : R;
  autoZoomBufferAmount : R;
  autoZoomMinLevel : R;
  autoZoomMaxLevel : R;
  autoZoomChangeRate : R
}.

(** The [CONFIG] object of main.js. *)
Definition CONFIG : Config := {|
  frustumSize := 1;
  zoomStep := 0.02;
  minZoom := 0.1;
  zoomDamping := 0.05;
  panDamping := 0.85;
  planeHeight := 2;
  cameraZ := 5;
  pointSize := 1;
  texturePlaneFadeStartZoom := 4;
  texturePlaneFadeEndZoom := 12;
  brightnessMultiplier := 8.5;
  minPointSizeFactor := 1;
  pointEdgeSoftness := 0;
  zoomThreshold := 1;
  maxZoomForSizeTransition := 5;
  displacementAmount := 0.005;
  displacementStartZoom := 5;
  displacementFullZoom := 1000;
  displacementJitterMagnitude := 0.8;
  displacementJitterSpeed := 1;
  brightnessBoost := -0.05;
  brightnessBoostStartZoom := 10;
  brightnessBoostEnabled := true;
  brightnessSteepness := 4;
  autoMovementEnabled := true;
  autoMovementSpeed := 0.004;
  autoMovementBufferAmount := 0.98;
  autoMovementEdgeThreshold := 0.15;
  autoMovementEdgeForce := 0.05;
  autoMovementChangeRate := 0.0005;
  autoZoomEnabled := true;
  autoZoomSpeed := 0.015;
  autoZoomSpeedVariability := 0.2;
  autoZoomBufferAmount := 0.95;
  autoZoomMinLevel := 1;
  autoZoomMaxLevel := 80;
  autoZoomChangeRate := 0.001
|}.

(** The orthographic camera: the fields main.js reads or writes. *)
Record Camera : Type := mkCamera {
  zoom : R;
  position : vec3;
  left : R;
  right : R;
  top : R;
  bottom : R
}.

Record Window : Type := mkWindow { innerWidth : R; innerHeight : R }.

(** The overlay quad: [material.opacity] and [visible]. *)
Record TexturePlaneMesh : Type := mkTexturePlaneMesh {
  opacity : R;
  visible : bool
}.

(** The module-level variables.  [densePointsMesh] and [texturePlaneMesh]
    are undefined until the image has loaded; of the points mesh the
    model keeps the uniforms of its material. *)
Record State : Type := mkState {
  camera : Camera;
  window : Window;
  isDragging : bool;
  lastMouse : vec2;
  targetZoom : R;
  zoomVelocity : R;
  targetPosition : vec2;
  panVelocity : vec2;
  densePointsMesh : option Shaders.Uniforms;
  texturePlaneMesh : option TexturePlaneMesh;
  imageDimensions : vec2;
  calculatedPlaneWidth : R;
  autoMovementVector : vec2;
  targetAutoMovementVector : vec2;
  autoZoomDirection : R;
  targetAutoZoomDirection : R;
  autoZoomVelocity : R;
  lastAutoZoomTime : R
}.

(** Assignment to camera fields. *)
Definition set_zoom (v : R) (c : Camera) : Camera :=
  mkCamera v (position c) (left c) (right c) (top c) (bottom c).
Definition set_position (v : vec3) (c : Camera) : Camera :=
  mkCamera (zoom c) v (left c) (right c) (top c) (bottom c).
Definition set_frustum (l r t b : R) (c : Camera) : Camera :=
  mkCamera (zoom c) (position c) l r t b.

(** Assignment to one module-level variable. *)
Definition set_camera (v : Camera) (s : State) : State :=
  mkState v (window s) (isDragging s) (lastMouse s) (targetZoom s)
    (zoomVelocity s) (targetPosition s) (panVelocity s) (densePointsMesh s)
    (texturePlaneMesh s) (imageDimensions s) (calculatedPlaneWidth s)
    (autoMovementVector s) (targetAutoMovementVector s) (autoZoomDirection s)
    (targetAutoZoomDirection s) (autoZoomVelocity s) (lastAutoZoomTime s).

Definition set_window (v : Window) (s : State) : State :=
  mkState (camera s) v (isDragging s) (lastMouse s) (targetZoom s)
    (zoomVelocity s) (targetPosition s) (panVelocity s) (densePointsMesh s)
    (texturePlaneMesh s) (imageDimensions s) (calculatedPlaneWidth s)
    (autoMovementVector s) (targetAutoMovementVector s) (autoZoomDirection s)
    (targetAutoZoomDirection s) (autoZoomVelocity s) (lastAutoZoomTime s).

Definition set_isDragging (v : bool) (s : State) : State :=
  mkState (camera s) (window s) v (lastMouse s) (targetZoom s)
    (zoomVelocity s) (targetPosition s) (panVelocity s) (densePointsMesh s)
    (texturePlaneMesh s) (imageDimensions s) (calculatedPlaneWidth s)
    (autoMovementVector s) (targetAutoMovementVector s) (autoZoomDirection s)
    (targetAutoZoomDirection s) (autoZoomVelocity s) (lastAutoZoomTime s).

Definition set_lastMouse (v : vec2) (s : State) : State :=
  mkState (camera s) (window s) (isDragging s) v (targetZoom s)
    (zoomVelocity s) (targetPosition s) (panVelocity s) (densePointsMesh s)
    (texturePlaneMesh s) (imageDimensions s) (calculatedPlaneWidth s)
    (autoMovementVector s) (targetAutoMovementVector s) (autoZoomDirection s)
    (targetAutoZoomDirection s) (autoZoomVelocity s) (lastAutoZoomTime s).

Definition set_targetZoom (v : R) (s : State) : State :=
  mkState (camera s) (window s) (isDragging s) (lastMouse s) v
    (zoomVelocity s) (targetPosition s) (panVelocity s) (densePointsMesh s)
    (texturePlaneMesh s) (imageDimensions s) (calculatedPlaneWidth s)
    (autoMovementVector s) (targetAutoMovementVector s) (autoZoomDirection s)
    (targetAutoZoomDirection s) (autoZoomVelocity s) (lastAutoZoomTime s).

Definition set_zoomVelocity (v : R) (s : State) : State :=
  mkState (camera s) (window s) (isDragging s) (lastMouse s) (targetZoom s) v
    (targetPosition s) (panVelocity s) (densePointsMesh s)
    (texturePlaneMesh s) (imageDimensions s) (calculatedPlaneWidth s)
    (autoMovementVector s) (targetAutoMovementVector s) (autoZoomDirection s)
    (targetAutoZoomDirection s) (autoZoomVelocity s) (lastAutoZoomTime s).

Definition set_targetPosition (v : vec2) (s : State) : State :=
  mkState (camera s) (window s) (isDragging s) (lastMouse s) (targetZoom s)
    (zoomVelocity s) v (panVelocity s) (densePointsMesh s)
    (texturePlaneMesh s) (imageDimensions s) (calculatedPlaneWidth s)
    (autoMovementVector s) (targetAutoMovementVector s) (autoZoomDirection s)
    (targetAutoZoomDirection s) (autoZoomVelocity s) (lastAutoZoomTime s).

Definition set_panVelocity (v : vec2) (s : State) : State :=
  mkState (camera s) (window s) (isDragging s) (lastMouse s) (targetZoom s)
    (zoomVelocity s) (targetPosition s) v (densePointsMesh s)
    (texturePlaneMesh s) (imageDimensions s) (calculatedPlaneWidth s)
    (autoMovementVector s) (targetAutoMovementVector s) (autoZoomDirection s)
    (targetAutoZoomDirection s) (autoZoomVelocity s) (lastAutoZoomTime s).

Definition set_densePointsMesh (v : option Shaders.Uniforms) (s : State) : State :=
  mkState (camera s) (window s) (isDragging s) (lastMouse s) (targetZoom s)
    (zoomVelocity s) (targetPosition s) (panVelocity s) v (texturePlaneMesh s)
    (imageDimensions s) (calculatedPlaneWidth s) (autoMovementVector s)
    (targetAutoMovementVector s) (autoZoomDirection s)
    (targetAutoZoomDirection s) (autoZoomVelocity s) (lastAutoZoomTime s).

Definition set_texturePlaneMesh (v : option TexturePlaneMesh) (s : State) : State :=
  mkState (camera s) (window s) (isDragging s) (lastMouse s) (targetZoom s)
    (zoomVelocity s) (targetPosition s) (panVelocity s) (densePointsMesh s) v
    (imageDimensions s) (calculatedPlaneWidth s) (autoMovementVector s)
    (targetAutoMovementVector s) (autoZoomDirection s)
    (targetAutoZoomDirection s) (autoZoomVelocity s) (lastAutoZoomTime s).

Definition set_imageDimensions (v : vec2) (s : State) : State :=
  mkState (camera s) (window s) (isDragging s) (lastMouse s) (targetZoom s)
    (zoomVelocity s) (targetPosition s) (panVelocity s) (densePointsMesh s)
    (texturePlaneMesh s) v (calculatedPlaneWidth s) (autoMovementVector s)
    (targetAutoMovementVector s) (autoZoomDirection s)
    (targetAutoZoomDirection s) (autoZoomVelocity s) (lastAutoZoomTime s).

Definition set_calculatedPlaneWidth (v : R) (s : State) : State :=
  mkState (camera s) (window s) (isDragging s) (lastMouse s) (targetZoom s)
    (zoomVelocity s) (targetPosition s) (panVelocity s) (densePointsMesh s)
    (texturePlaneMesh s) (imageDimensions s) v (autoMovementVector s)
    (targetAutoMovementVector s) (autoZoomDirection s)
    (targetAutoZoomDirection s) (autoZoomVelocity s) (lastAutoZoomTime s).

Definition set_autoMovementVector (v : vec2) (s : State) : State :=
  mkState (camera s) (window s) (isDragging s) (lastMouse s) (targetZoom s)
    (zoomVelocity s) (targetPosition s) (panVelocity s) (densePointsMesh s)
    (texturePlaneMesh s) (imageDimensions s) (calculatedPlaneWidth s) v
    (targetAutoMovementVector s) (autoZoomDirection s)
    (targetAutoZoomDirection s) (autoZoomVelocity s) (lastAutoZoomTime s).

Definition set_targetAutoMovementVector (v : vec2) (s : State) : State :=
  mkState (camera s) (window s) (isDragging s) (lastMouse s) (targetZoom s)
    (zoomVelocity s) (targetPosition s) (panVelocity s) (densePointsMesh s)
    (texturePlaneMesh s) (imageDimensions s) (calculatedPlaneWidth s)
    (autoMovementVector s) v (autoZoomDirection s) (targetAutoZoomDirection s)
    (autoZoomVelocity s) (lastAutoZoomTime s).

Definition set_autoZoomDirection (v : R) (s : State) : State :=
  mkState (camera s) (window s) (isDragging s) (lastMouse s) (targetZoom s)
    (zoomVelocity s) (targetPosition s) (panVelocity s) (densePointsMesh s)
    (texturePlaneMesh s) (imageDimensions s) (calculatedPlaneWidth s)
    (autoMovementVector s) (targetAutoMovementVector s) v
    (targetAutoZoomDirection s) (autoZoomVelocity s) (lastAutoZoomTime s).

Definition set_targetAutoZoomDirection (v : R) (s : State) : State :=
  mkState (camera s) (window s) (isDragging s) (lastMouse s) (targetZoom s)
    (zoomVelocity s) (targetPosition s) (panVelocity s) (densePointsMesh s)
    (texturePlaneMesh s) (imageDimensions s) (calculatedPlaneWidth s)
    (autoMovementVector s) (targetAutoMovementVector s) (autoZoomDirection s)
    v (autoZoomVelocity s) (lastAutoZoomTime s).

Definition set_autoZoomVelocity (v : R) (s : State) : State :=
  mkState (camera s) (window s) (isDragging s) (lastMouse s) (targetZoom s)
    (zoomVelocity s) (targetPosition s) (panVelocity s) (densePointsMesh s)
    (texturePlaneMesh s) (imageDimensions s) (calculatedPlaneWidth s)
    (autoMovementVector s) (targetAutoMovementVector s) (autoZoomDirection s)
    (targetAutoZoomDirection s) v (lastAutoZoomTime s).

Definition set_lastAutoZoomTime (v : R) (s : State) : State :=
  mkState (camera s) (window s) (isDragging s) (lastMouse s) (targetZoom s)
    (zoomVelocity s) (targetPosition s) (panVelocity s) (densePointsMesh s)
    (texturePlaneMesh s) (imageDimensions s) (calculatedPlaneWidth s)
    (autoMovementVector s) (targetAutoMovementVector s) (autoZoomDirection s)
    (targetAutoZoomDirection s) (autoZoomVelocity s) v.

(** ** main.js: initialisation *)

(** [setupCamera] (main.js lines 139-151), on the initial values of the
    module-level variables (lines 69-90): an orthographic camera of zoom 1
    at [(0, 0, cameraZ)], and the zoom and pan targets taken from it. *)
Definition setupCamera (cfg : Config) (w : Window) : State :=
  let aspect := innerWidth w / innerHeight w in
  let cam := mkCamera 1 (Vec3 0 0 (cameraZ cfg))
               (- frustumSize cfg * aspect) (frustumSize cfg * aspect)
               (frustumSize cfg) (- frustumSize cfg) in
  mkState cam w false (Vec2 0 0) (zoom cam) 0
    (Vec2 (x3 (position cam)) (y3 (position cam))) (Vec2 0 0)
    None None (Vec2 0 0) 0
    (Vec2 0 0) (Vec2 0 0) 1 1 0 0.

(** [initializeAutoMovement]; [rnd] is the value of [Math.random()]. *)
Definition initializeAutoMovement (rnd : R) (s : State) : State :=
  let angle := rnd * PI * 2 in
  let s := set_targetAutoMovementVector (Vec2 (cos angle) (sin angle)) s in
  set_autoMovementVector (targetAutoMovementVector s) s.

(** [initializeAutoZoom]; [rnd] is the value of [Math.random()]. *)
Definition initializeAutoZoom (rnd : R) (s : State) : State :=
  let s := set_camera (set_zoom 1 (camera s)) s in
  let s := set_targetZoom 1 s in
  let s := set_targetAutoZoomDirection (if Num.gtb rnd 0.5 then 1 else -1) s in
  let s := set_autoZoomDirection (targetAutoZoomDirection s) s in
  set_autoZoomVelocity 0 s.

(** [init], without the scene, renderer, statistics panel and listener
    registration; [now] is the value of [Date.now()]. *)
Definition init (cfg : Config) (w : Window) (rndAngle rndDir now : R) : State :=
  let s := setupCamera cfg w in
  let s := initializeAutoMovement rndAngle s in
  let s := initializeAutoZoom rndDir s in
  set_lastAutoZoomTime now s.

(** ** main.js: input handlers (lines 285-345) *)

(** The locals [mouseNDC] and [mouseWorld] of [onWheel]: the cursor in
    normalised device coordinates and in world coordinates. *)
Definition mouseNDC (s : State) (clientX clientY : R) : vec2 :=
  Vec2 ((clientX / innerWidth (window s)) * 2 - 1)
       (- (clientY / innerHeight (window s)) * 2 + 1).

Definition mouseWorld (s : State) (clientX clientY : R) : vec2 :=
  let cam := camera s in
  Vec2 (x2 (mouseNDC s clientX clientY) * (right cam - left cam) / 2 / zoom cam
        + x3 (position cam))
       (y2 (mouseNDC s clientX clientY) * (top cam - bottom cam) / 2 / zoom cam
        + y3 (position cam)).

Definition onWheel (cfg : Config) (clientX clientY deltaY : R) (s : State)
  : State :=
  let cam := camera s in
  let mouseWorld := mouseWorld s clientX clientY in
  let direction := JS.sign (- deltaY) in
  let s := set_zoomVelocity
             (zoomVelocity s + direction * zoomStep cfg * zoom cam) s in
  let zoomFactor := direction * zoomStep cfg in
  let s := set_targetPosition
             (Vec2 (x2 (targetPosition s)
                    + zoomFactor * (x2 mouseWorld - x3 (position cam)))
                   (y2 (targetPosition s))) s in
  set_targetPosition
    (Vec2 (x2 (targetPosition s))
          (y2 (targetPosition s)
           + zoomFactor * (y2 mouseWorld - y3 (position cam)))) s.

Definition onMouseDown (clientX clientY : R) (s : State) : State :=
  let s := set_isDragging true s in
  let s := set_lastMouse (Vec2 clientX clientY) s in
  set_panVelocity (Vec2 0 0) s.

Definition onMouseUp (s : State) : State := set_isDragging false s.

Definition onMouseMove (clientX clientY : R) (s : State) : State :=
  if negb (isDragging s) then s else
  let cam := camera s in
  let dx := (clientX - x2 (lastMouse s)) / innerWidth (window s) in
  let dy := (clientY - y2 (lastMouse s)) / innerHeight (window s) in
  let panX := - dx * (right cam - left cam) / zoom cam in
  let panY := dy * (top cam - bottom cam) / zoom cam in
  let pos := Vec3 (x3 (position cam) + panX) (y3 (position cam) + panY)
               (z3 (position cam)) in
  let s := set_camera (set_position pos cam) s in
  let s := set_targetPosition (Vec2 (x3 pos) (y3 pos)) s in
  let s := set_panVelocity (Vec2 panX panY) s in
  set_lastMouse (Vec2 clientX clientY) s.

(** [onResize], run after the browser has changed the window size to [w]. *)
Definition onResize (cfg : Config) (w : Window) (s : State) : State :=
  let s := set_window w s in
  let aspect := innerWidth w / innerHeight w in
  let s := set_camera
             (set_frustum (- frustumSize cfg * aspect) (frustumSize cfg * aspect)
                (frustumSize cfg) (- frustumSize cfg) (camera s)) s in
  match densePointsMesh s with
  | Some u =>
      set_densePointsMesh
        (Some (Shaders.set_screenHeight (innerHeight w)
                 (Shaders.set_screenWidth (innerWidth w) u))) s
  | None => s
  end.

Definition enforceCameraOrientation (cfg : Config) (s : State) : State :=
  let cam := camera s in
  set_camera
    (set_position (Vec3 (x3 (position cam)) (y3 (position cam)) (cameraZ cfg))
       cam) s.

(** ** main.js: the per-frame updates (lines 355-480) *)

Definition updateZoom (cfg : Config) (s : State) : State :=
  let s :=
    if Num.gtb (JS.abs (zoomVelocity s)) 0.0001 then
      let s := set_targetZoom (targetZoom s + zoomVelocity s) s in
      let s :=
        if Num.ltb (targetZoom s) (minZoom cfg) then
          set_zoomVelocity 0 (set_targetZoom (minZoom cfg) s)
        else s in
      set_zoomVelocity (zoomVelocity s * zoomDamping cfg) s
    else set_zoomVelocity 0 s in
  let s := set_camera
             (set_zoom (zoom (camera s)
                        + (targetZoom s - zoom (camera s)) * 0.2) (camera s)) s in
  let s := set_camera
             (set_zoom (JS.max (minZoom cfg) (zoom (camera s))) (camera s)) s in
  let p := position (camera s) in
  let p := Vec3 (x3 p + (x2 (targetPosition s) - x3 p) * 0.2) (y3 p) (z3 p) in
  let p := Vec3 (x3 p) (y3 p + (y2 (targetPosition s) - y3 p) * 0.2) (z3 p) in
  set_camera (set_position p (camera s)) s.

Definition updatePan (cfg : Config) (s : State) : State :=
  if negb (isDragging s)
     && (Num.gtb (JS.abs (x2 (panVelocity s))) 0.00001
         || Num.gtb (JS.abs (y2 (panVelocity s))) 0.00001) then
    let s := set_targetPosition
               (Vec2 (x2 (targetPosition s) + x2 (panVelocity s))
                     (y2 (targetPosition s) + y2 (panVelocity s))) s in
    set_panVelocity
      (Vec2 (x2 (panVelocity s) * panDamping cfg)
            (y2 (panVelocity s) * panDamping cfg)) s
  else if negb (isDragging s) then set_panVelocity (Vec2 0 0) s
  else s.

(** What one frame reads from its environment: the three calls of
    [Math.random()] (the second is made only when the first falls below
    the change rate) and the three calls of [Date.now()] that
    [updateAutoZoom] makes, in program order. *)
Record FrameInputs : Type := mkFrameInputs {
  randomMove : R;
  randomAngle : R;
  randomZoom : R;
  nowDelta : R;
  nowLast : R;
  nowVariability : R
}.

(** The target direction after the occasional change of direction. *)
Definition retargeted (cfg : Config) (i : FrameInputs) (s : State) : vec2 :=
  if Num.ltb (randomMove i) (autoMovementChangeRate cfg) then
    let angle := randomAngle i * PI * 2 in
    Vec2 (cos angle) (sin angle)
  else targetAutoMovementVector s.

(** The drift direction of the frame: smoothed towards the target, pushed
    back from the edges of the plane, then normalised.  main.js updates
    [autoMovementVector] in place at each of these steps; the local [v]
    carries the same values and is assigned once, below. *)
Definition steered (cfg : Config) (i : FrameInputs) (s : State) : vec2 :=
  let smoothingFactor := 0.1 in
  let t := retargeted cfg i s in
  let v := autoMovementVector s in
  let v := Vec2 (x2 v + (x2 t - x2 v) * smoothingFactor)
                (y2 v + (y2 t - y2 v) * smoothingFactor) in
  let cam := camera s in
  let visibleWidth := (right cam - left cam) / zoom cam in
  let visibleHeight := (top cam - bottom cam) / zoom cam in
  let maxX := calculatedPlaneWidth s / 2
              - visibleWidth * autoMovementEdgeThreshold cfg in
  let minX := - calculatedPlaneWidth s / 2
              + visibleWidth * autoMovementEdgeThreshold cfg in
  let maxY := planeHeight cfg / 2
              - visibleHeight * autoMovementEdgeThreshold cfg in
  let minY := - planeHeight cfg / 2
              + visibleHeight * autoMovementEdgeThreshold cfg in
  let edgeMomentumFactor := autoMovementEdgeForce cfg * 2 in
  let px := x3 (position cam) in
  let py := y3 (position cam) in
  let v := if Num.gtb px maxX
           then Vec2 (x2 v - edgeMomentumFactor * (px - maxX)) (y2 v) else v in
  let v := if Num.ltb px minX
           then Vec2 (x2 v + edgeMomentumFactor * (minX - px)) (y2 v) else v in
  let v := if Num.gtb py maxY
           then Vec2 (x2 v) (y2 v - edgeMomentumFactor * (py - maxY)) else v in
  let v := if Num.ltb py minY
           then Vec2 (x2 v) (y2 v + edgeMomentumFactor * (minY - py)) else v in
  let length := sqrt (x2 v * x2 v + y2 v * y2 v) in
  if Num.gtb length 0 then Vec2 (x2 v / length) (y2 v / length) else v.

Definition updateAutoMovement (cfg : Config) (i : FrameInputs) (s : State)
  : State :=
  if negb (autoMovementEnabled cfg) || isDragging s then s else
  let v := steered cfg i s in
  let s := set_targetAutoMovementVector (retargeted cfg i s) s in
  let s := set_autoMovementVector v s in
  let scaledSpeed := autoMovementSpeed cfg / zoom (camera s) in
  set_targetPosition
    (Vec2 (x2 (targetPosition s) + x2 v * scaledSpeed)
          (y2 (targetPosition s) + y2 v * scaledSpeed)) s.

Definition updateAutoZoom (cfg : Config) (i : FrameInputs) (s : State)
  : State :=
  if negb (autoZoomEnabled cfg) || isDragging s then s else
  let s :=
    if Num.ltb (randomZoom i) (autoZoomChangeRate cfg)
    then set_targetAutoZoomDirection (- targetAutoZoomDirection s) s
    else s in
  let smoothingFactor := 0.1 in
  let s := set_autoZoomDirection
             (autoZoomDirection s
              + (targetAutoZoomDirection s - autoZoomDirection s)
                * smoothingFactor) s in
  let s :=
    if (Num.geb (zoom (camera s)) (autoZoomMaxLevel cfg)
        && Num.gtb (autoZoomDirection s) 0)
       || (Num.leb (zoom (camera s)) (autoZoomMinLevel cfg)
           && Num.ltb (autoZoomDirection s) 0)
    then set_targetAutoZoomDirection (- targetAutoZoomDirection s) s
    else s in
  let timeDelta := (nowDelta i - lastAutoZoomTime s) / 1000 in
  let s := set_lastAutoZoomTime (nowLast i) s in
  let zoomVariability :=
    1 + sin (nowVariability i * 0.001) * autoZoomSpeedVariability cfg in
  let normalizedZoomSpeed :=
    autoZoomSpeed cfg * zoomVariability / zoom (camera s) in
  let variableZoomSpeed := normalizedZoomSpeed * timeDelta * 60 in
  let s := set_autoZoomVelocity (autoZoomDirection s * variableZoomSpeed) s in
  let s := set_targetZoom (targetZoom s + autoZoomVelocity s) s in
  set_targetZoom
    (JS.max (autoZoomMinLevel cfg)
       (JS.min (autoZoomMaxLevel cfg) (targetZoom s))) s.

(** Three values inside a call of [updateAutoZoom], named so that
    statements can refer to them: the target direction after the
    occasional change, the direction after smoothing towards it, and the
    test that guards the reversal at the auto-zoom limits. *)
Definition occasionalFlip (cfg : Config) (i : FrameInputs) (s : State) : R :=
  if Num.ltb (randomZoom i) (autoZoomChangeRate cfg)
  then - targetAutoZoomDirection s else targetAutoZoomDirection s.

Definition smoothedDirection (cfg : Config) (i : FrameInputs) (s : State) : R :=
  autoZoomDirection s + (occasionalFlip cfg i s - autoZoomDirection s) * 0.1.

Definition hitLimit (cfg : Config) (i : FrameInputs) (s : State) : bool :=
  (Num.geb (zoom (camera s)) (autoZoomMaxLevel cfg)
   && Num.gtb (smoothedDirection cfg i s) 0)
  || (Num.leb (zoom (camera s)) (autoZoomMinLevel cfg)
      && Num.ltb (smoothedDirection cfg i s) 0).

(** ** main.js: the animation loop (lines 483-563) *)

(** [boostFactor] as [animate] computes it from the camera zoom. *)
Definition boostFactor (cfg : Config) (zoom : R) : R :=
  let boostStart := brightnessBoostStartZoom cfg in
  let boostEnd := maxZoomForSizeTransition cfg in
  if Num.gtb zoom boostStart
  then JS.min 1 ((zoom - boostStart) / (boostEnd - boostStart))
  else 0.

(** The value [animate] assigns to the [brightnessBoost] uniform. *)
Definition brightnessBoostUniform (cfg : Config) (zoom : R) : R :=
  if brightnessBoostEnabled cfg
  then brightnessBoost cfg * boostFactor cfg zoom
  else 0.

(** The block of [animate] guarded by [if (densePointsMesh)].
    [CONFIG.displacementHalfwayZoom] is not a key of [CONFIG]. *)
Definition pushUniforms (cfg : Config) (s : State) (u : Shaders.Uniforms)
  : Shaders.Uniforms :=
  let u := Shaders.set_cameraZoom (zoom (camera s)) u in
  let u := Shaders.set_screenWidth (innerWidth (window s)) u in
  let u := Shaders.set_screenHeight (innerHeight (window s)) u in
  let u := Shaders.set_zoomThreshold (zoomThreshold cfg) u in
  let u := Shaders.set_maxZoomForSizeTransition
             (maxZoomForSizeTransition cfg) u in
  let u := Shaders.set_displacementStartZoom (displacementStartZoom cfg) u in
  let u := Shaders.set_displacementHalfwayZoom None u in
  let u := Shaders.set_displacementFullZoom (displacementFullZoom cfg) u in
  let u := Shaders.set_time (Shaders.time u + 0.016) u in
  let u := Shaders.set_displacementJitterMagnitude
             (displacementJitterMagnitude cfg) u in
  let u := Shaders.set_displacementJitterSpeed
             (displacementJitterSpeed cfg) u in
  Shaders.set_brightnessBoost
    (brightnessBoostUniform cfg (zoom (camera s))) u.

(** The overlay fade of [animate]: the opacity and visibility written to
    the texture plane at camera zoom [zoom]. *)
Definition fadeTexturePlane (cfg : Config) (zoom : R) : TexturePlaneMesh :=
  let startFade := texturePlaneFadeStartZoom cfg in
  let endFade := texturePlaneFadeEndZoom cfg in
  if Num.ltb zoom startFade then mkTexturePlaneMesh 1 true
  else if Num.gtb zoom endFade then mkTexturePlaneMesh 0 false
  else
    let opacity := 1 - (zoom - startFade) / (endFade - startFade) in
    let opacity := JS.max 0 (JS.min 1 opacity) in
    mkTexturePlaneMesh opacity (Num.gtb opacity 0.001).

(** The factors [animate] prints in the zoom counter. *)
Definition counterZoomFactor (cfg : Config) (zoom : R) : R :=
  JS.min 1 (JS.max 0
    ((zoom - zoomThreshold cfg)
     / (maxZoomForSizeTransition cfg - zoomThreshold cfg))).

Definition counterDisplacementFactor (cfg : Config) (zoom : R) : R :=
  JS.min 1 (JS.max 0
    ((zoom - displacementStartZoom cfg)
     / (displacementFullZoom cfg - displacementStartZoom cfg))).

(** The two guarded blocks of [animate] that follow the updates. *)
Definition refreshUniforms (cfg : Config) (s : State) : State :=
  match densePointsMesh s with
  | Some u => set_densePointsMesh (Some (pushUniforms cfg s u)) s
  | None => s
  end.

Definition refreshTexturePlane (cfg : Config) (s : State) : State :=
  match texturePlaneMesh s with
  | Some _ =>
      set_texturePlaneMesh (Some (fadeTexturePlane cfg (zoom (camera s)))) s
  | None => s
  end.

(** One call of [animate], up to the draw; the next call is the next
    [Frame] event. *)
Definition animate (cfg : Config) (i : FrameInputs) (s : State) : State :=
  let s := updateZoom cfg s in
  let s := updatePan cfg s in
  let s := updateAutoMovement cfg i s in
  let s := updateAutoZoom cfg i s in
  let s := enforceCameraOrientation cfg s in
  let s := refreshUniforms cfg s in
  refreshTexturePlane cfg s.

(** ** main.js: the image-load callback (lines 189-268) *)

(** The sample of texel [(ix, iy)]: texel-centre UV and its position on
    the plane. *)
Definition sample (cfg : Config) (planeWidth : R) (numPointsX numPointsY : nat)
  (ix iy : nat) : Shaders.Attributes :=
  let u := (INR ix + 0.5) / INR numPointsX in
  let v := (INR iy + 0.5) / INR numPointsY in
  let x := (u - 0.5) * planeWidth in
  let y := (v - 0.5) * planeHeight cfg in
  Shaders.mkAttributes (Vec3 x y 0) (Vec2 u v).

(** The points geometry: rows [iy] outermost, as the two loops push them. *)
Definition pointsGeometry (cfg : Config) (width height : nat)
  : list Shaders.Attributes :=
  let planeWidth := planeHeight cfg * (INR width / INR height) in
  flat_map (fun iy => List.map (fun ix => sample cfg planeWidth width height ix iy)
                        (seq 0 width))
           (seq 0 height).

(** The uniforms of the points material at creation; [rnd] is the value
    of [Math.random()] that seeds the hash. *)
Definition initialUniforms (cfg : Config) (s : State)
  (texture : vec2 -> vec4) (rnd : R) : Shaders.Uniforms :=
  Shaders.mkUniforms texture
    (pointSize cfg) (brightnessMultiplier cfg) (pointSize cfg * 0.8)
    (displacementAmount cfg) (rnd * 100) (zoom (camera s))
    (innerWidth (window s)) (innerHeight (window s))
    (x2 (imageDimensions s)) (y2 (imageDimensions s))
    (calculatedPlaneWidth s) (planeHeight cfg)
    (zoomThreshold cfg) (maxZoomForSizeTransition cfg)
    (displacementStartZoom cfg) None (displacementFullZoom cfg)
    0 (displacementJitterMagnitude cfg) (displacementJitterSpeed cfg)
    (brightnessBoost cfg) (brightnessSteepness cfg).

(** The success callback of [loader.load], which ends with the first call
    of [animate]. *)
Definition onTextureLoaded (cfg : Config) (width height : nat)
  (texture : vec2 -> vec4) (rnd : R) (i : FrameInputs) (s : State) : State :=
  let s := set_imageDimensions (Vec2 (INR width) (INR height)) s in
  let imageAspect := x2 (imageDimensions s) / y2 (imageDimensions s) in
  let s := set_calculatedPlaneWidth (planeHeight cfg * imageAspect) s in
  let s := set_densePointsMesh (Some (initialUniforms cfg s texture rnd)) s in
  let s := set_texturePlaneMesh (Some (mkTexturePlaneMesh 1 true)) s in
  animate cfg i s.

(** ** The event loop *)

(** The events the browser delivers: the listeners registered by
    [setupEventListeners], the load callback and the animation frame. *)
Inductive Event : Type :=
| Wheel (clientX clientY deltaY : R)
| MouseDown (clientX clientY : R)
| MouseUp
| MouseMove (clientX clientY : R)
| Resize (w : Window)
| TextureLoaded (width height : nat) (texture : vec2 -> vec4) (rnd : R)
    (i : FrameInputs)
| Frame (i : FrameInputs).

Definition step (cfg : Config) (s : State) (e : Event) : State :=
  match e with
  | Wheel cx cy dy => onWheel cfg cx cy dy s
  | MouseDown cx cy => onMouseDown cx cy s
  | MouseUp => onMouseUp s
  | MouseMove cx cy => onMouseMove cx cy s
  | Resize w => onResize cfg w s
  | TextureLoaded w h t rnd i => onTextureLoaded cfg w h t rnd i s
  | Frame i => animate cfg i s
  end.

Definition run (cfg : Config) (s : State) (es : list Event) : State :=
  fold_left (step cfg) es s.

(** An event that runs [animate]. *)
Definition isTick (e : Event) : bool :=
  match e with
  | TextureLoaded _ _ _ _ _ | Frame _ => true
  | _ => false
  end.

(** ** main working x1.js: the earlier variant

    Its [updateZoom], [updatePan], handlers and shader arithmetic are those
    of main.js; it has no auto-navigation, no overlay plane and no
    brightness boost, and its [animate] is shorter. *)

Definition pushUniforms_x1 (cfg : Config) (s : State) (u : Shaders.Uniforms)
  : Shaders.Uniforms :=
  let u := Shaders.set_cameraZoom (zoom (camera s)) u in
  let u := Shaders.set_screenWidth (innerWidth (window s)) u in
  let u := Shaders.set_screenHeight (innerHeight (window s)) u in
  let u := Shaders.set_zoomThreshold (zoomThreshold cfg) u in
  let u := Shaders.set_maxZoomForSizeTransition
             (maxZoomForSizeTransition cfg) u in
  let u := Shaders.set_displacementStartZoom (displacementStartZoom cfg) u in
  let u := Shaders.set_displacementHalfwayZoom None u in
  let u := Shaders.set_displacementFullZoom (displacementFullZoom cfg) u in
  let u := Shaders.set_time (Shaders.time u + 0.016) u in
  let u := Shaders.set_displacementJitterMagnitude
             (displacementJitterMagnitude cfg) u in
  Shaders.set_displacementJitterSpeed (displacementJitterSpeed cfg) u.

Definition refreshUniforms_x1 (cfg : Config) (s : State) : State :=
  match densePointsMesh s with
  | Some u => set_densePointsMesh (Some (pushUniforms_x1 cfg s u)) s
  | None => s
  end.

Definition animate_x1 (cfg : Config) (s : State) : State :=
  let s := updateZoom cfg s in
  let s := updatePan cfg s in
  let s := enforceCameraOrientation cfg s in
  refreshUniforms_x1 cfg s.

(** The events of the variant; its load callback also ends in [animate]. *)
Definition step_x1 (cfg : Config) (s : State) (e : Event) : State :=
  match e with
  | Wheel cx cy dy => onWheel cfg cx cy dy s
  | MouseDown cx cy => onMouseDown cx cy s
  | MouseUp => onMouseUp s
  | MouseMove cx cy => onMouseMove cx cy s
  | Resize w => onResize cfg w s
  | TextureLoaded w h t rnd _ =>
      let s := set_imageDimensions (Vec2 (INR w) (INR h)) s in
      let imageAspect := x2 (imageDimensions s) / y2 (imageDimensions s) in
      let s := set_calculatedPlaneWidth (planeHeight cfg * imageAspect) s in
      let s := set_densePointsMesh (Some (initialUniforms cfg s t rnd)) s in
      animate_x1 cfg s
  | Frame _ => animate_x1 cfg s
  end.

Definition run_x1 (cfg : Config) (s : State) (es : list Event) : State :=
  fold_left (step_x1 cfg) es s.

(** [n] consecutive calls of [updateZoom] with no other input, and the
    camera zooms seen after each call. *)
Fixpoint ticks (cfg : Config) (n : nat) (s : State) : State :=
  match n with
  | O => s
  | S k => updateZoom cfg (ticks cfg k s)
  end.

Definition zoomAfter (cfg : Config) (s : State) (n : nat) : R :=
  zoom (camera (ticks cfg n s)).

(** ** Sample inputs *)

(** A texture that is black everywhere, and an image of 4 by 2 texels. *)
Definition blackTexture : vec2 -> vec4 := fun _ => Vec4 0 0 0 1.

(** The state of main.js when a 4 by 2 image has loaded in a 1280 by 720
    window, before the first frame, with the camera zoom set to [zoom]. *)
Definition loadedAt (zoom : R) : State :=
  let s := init CONFIG (mkWindow 1280 720) 0.25 0.75 0 in
  let s := set_imageDimensions (Vec2 (INR 4) (INR 2)) s in
  let s := set_calculatedPlaneWidth
             (planeHeight CONFIG
              * (x2 (imageDimensions s) / y2 (imageDimensions s))) s in
  let s := set_densePointsMesh
             (Some (initialUniforms CONFIG s blackTexture 0.5)) s in
  let s := set_texturePlaneMesh (Some (mkTexturePlaneMesh 1 true)) s in
  set_camera (set_zoom zoom (camera s)) s.

(** The uniforms main.js pushes for that state. *)
Definition uniformsAt (zoom : R) : Shaders.Uniforms :=
  pushUniforms CONFIG (loadedAt zoom)
    (initialUniforms CONFIG (loadedAt zoom) blackTexture 0.5).


(** Frame inputs under which neither occasional change fires. *)
Definition quietFrame : FrameInputs := mkFrameInputs 0.5 0.5 0.5 16 16 16.

(** Frame inputs under which the occasional change of the zoom direction
    fires: [Math.random()] returns 0.0005 there, below the
    [autoZoomChangeRate] 0.001 of [CONFIG]. *)
Definition flipFrame : FrameInputs := mkFrameInputs 0.5 0.5 0.0005 16 16 16.


(** ** The zoom-in impulse scenario *)

(** The start of the scenario: zoom and target zoom 1, velocity +0.02. *)
Definition impulseStart (s : State) : Prop :=
  zoom (camera s) = 1 /\ targetZoom s = 1 /\ zoomVelocity s = 0.02.

(** One such state: the camera as [setupCamera] leaves it in a 1280 by 720
    window, with the velocity of the impulse. *)
Definition impulseState : State :=
  set_zoomVelocity 0.02 (setupCamera CONFIG (mkWindow 1280 720)).

(** The zoom sequence stays put from the tick at which the velocity has
    fallen below the threshold, for the first [N] ticks. *)
Definition stabilizesBelowThreshold (cfg : Config) (s : State) (N : nat)
  : Prop :=
  forall n, (n < N)%nat ->
    JS.abs (zoomVelocity (ticks cfg n s)) < 0.0001 ->
    zoomAfter cfg s (S n) = zoomAfter cfg s n.

(** The state after a drag in a loaded scene at zoom 2: button down at
    the centre of the window, one move, button up. *)
Definition releasedAfterDrag : State :=
  onMouseUp (onMouseMove 700 400 (onMouseDown 640 360 (loadedAt 2))).


(** ** Invariants of the navigation state *)


(** The zoom is driven by auto-zoom alone: no zoom momentum, and the zoom
    and its target within the auto-zoom range. *)
Definition zoomInAutoRange (cfg : Config) (s : State) : Prop :=
  zoomVelocity s = 0
  /\ autoZoomMinLevel cfg <= targetZoom s <= autoZoomMaxLevel cfg
  /\ autoZoomMinLevel cfg <= zoom (camera s) <= autoZoomMaxLevel cfg.


(** The [CONFIG] of main.js with both auto-navigation switches off. *)
Definition manualConfig : Config :=
  mkConfig 1 0.02 0.1 0.05 0.85 2 5 1 4 12 8.5 1 0 1 5
    0.005 5 1000 0.8 1 (-0.05) 10 true 4
    false 0.004 0.98 0.15 0.05 0.0005
    false 0.015 0.2 0.95 1 80 0.001.


(** ** Iterated updates and event filters *)

(** [n] consecutive calls of [updatePan] with no other input. *)
Fixpoint panTicks (cfg : Config) (n : nat) (s : State) : State :=
  match n with
  | O => s
  | S k => updatePan cfg (panTicks cfg k s)
  end.

Definition isWheel (e : Event) : bool :=
  match e with
  | Wheel _ _ _ => true
  | _ => false
  end.


End Main.

(** * Properties *)

(** ** Comparisons *)

Lemma gtb_true (a b : R) : Num.gtb a b = true <-> b < a.
Proof. unfold Num.gtb. destruct (Rlt_dec b a); split; intros; try easy. Qed.

Lemma gtb_false (a b : R) : Num.gtb a b = false <-> a <= b.
Proof.
  unfold Num.gtb. destruct (Rlt_dec b a); split; intros; try easy; lra.
Qed.

Lemma ltb_true (a b : R) : Num.ltb a b = true <-> a < b.
Proof. unfold Num.ltb. destruct (Rlt_dec a b); split; intros; try easy. Qed.

Lemma ltb_false (a b : R) : Num.ltb a b = false <-> b <= a.
Proof.
  unfold Num.ltb. destruct (Rlt_dec a b); split; intros; try easy; lra.
Qed.

Lemma geb_true (a b : R) : Num.geb a b = true <-> b <= a.
Proof. unfold Num.geb. destruct (Rle_dec b a); split; intros; try easy. Qed.

Lemma geb_false (a b : R) : Num.geb a b = false <-> a < b.
Proof.
  unfold Num.geb. destruct (Rle_dec b a); split; intros; try easy; lra.
Qed.

Lemma leb_true (a b : R) : Num.leb a b = true <-> a <= b.
Proof. unfold Num.leb. destruct (Rle_dec a b); split; intros; try easy. Qed.

Lemma leb_false (a b : R) : Num.leb a b = false <-> b < a.
Proof.
  unfold Num.leb. destruct (Rle_dec a b); split; intros; try easy; lra.
Qed.

(** Case analysis on the first comparison of the goal, leaving the order
    fact in the context. *)
Ltac cmp_case :=
  let H := fresh "Hcmp" in
  match goal with
  | |- context [Num.gtb ?a ?b] =>
      destruct (Num.gtb a b) eqn:H;
      [ apply gtb_true in H | apply gtb_false in H ]
  | |- context [Num.ltb ?a ?b] =>
      destruct (Num.ltb a b) eqn:H;
      [ apply ltb_true in H | apply ltb_false in H ]
  | |- context [Num.geb ?a ?b] =>
      destruct (Num.geb a b) eqn:H;
      [ apply geb_true in H | apply geb_false in H ]
  | |- context [Num.leb ?a ?b] =>
      destruct (Num.leb a b) eqn:H;
      [ apply leb_true in H | apply leb_false in H ]
  end.

(** Unfolds [Math.max], [Math.min], [Math.abs] and [clamp] into cases that
    linear arithmetic closes. *)
Ltac no_case t :=
  lazymatch t with
  | context [Rle_dec _ _] => fail
  | context [Rcase_abs _] => fail
  | _ => idtac
  end.

Ltac minmax :=
  unfold JS.max, JS.min, JS.abs, GLSL.clamp, Rmax, Rmin, Rabs;
  repeat match goal with
         | |- context [Rle_dec ?a ?b] =>
             no_case a; no_case b; destruct (Rle_dec a b)
         | |- context [Rcase_abs ?a] => no_case a; destruct (Rcase_abs a)
         end;
  try lra.

(** The keys of [CONFIG] that the arithmetic below reads. *)
Ltac config :=
  cbn [Main.CONFIG Main.minZoom Main.zoomDamping Main.zoomStep
       Main.texturePlaneFadeStartZoom Main.texturePlaneFadeEndZoom
       Main.brightnessBoost Main.brightnessBoostStartZoom
       Main.brightnessBoostEnabled Main.maxZoomForSizeTransition
       Main.displacementStartZoom Main.displacementFullZoom
       Main.autoZoomEnabled Main.autoZoomMinLevel Main.autoZoomMaxLevel
       Main.autoZoomChangeRate] in *.

(** ** The zoom written by [updateZoom] *)

Section ZoomTick.

Variable cfg : Main.Config.

(** [targetZoom] after the momentum branch of [updateZoom]. *)
Lemma updateZoom_targetZoom (s : Main.State) :
  Main.targetZoom (Main.updateZoom cfg s) =
  if Num.gtb (JS.abs (Main.zoomVelocity s)) 0.0001
  then JS.max (Main.minZoom cfg) (Main.targetZoom s + Main.zoomVelocity s)
  else Main.targetZoom s.
Proof.
  unfold Main.updateZoom.
  destruct (Num.gtb (JS.abs (Main.zoomVelocity s)) 0.0001); cbn; [|reflexivity].
  cmp_case; cbn; minmax.
Qed.

(** [zoomVelocity] after [updateZoom]: zero on a clamp and below the
    threshold, damped otherwise. *)
Lemma updateZoom_zoomVelocity (s : Main.State) :
  Main.zoomVelocity (Main.updateZoom cfg s) =
  if Num.gtb (JS.abs (Main.zoomVelocity s)) 0.0001
  then if Num.ltb (Main.targetZoom s + Main.zoomVelocity s) (Main.minZoom cfg)
       then 0 else Main.zoomVelocity s * Main.zoomDamping cfg
  else 0.
Proof.
  unfold Main.updateZoom.
  destruct (Num.gtb (JS.abs (Main.zoomVelocity s)) 0.0001); cbn; [|reflexivity].
  destruct (Num.ltb (Main.targetZoom s + Main.zoomVelocity s) (Main.minZoom cfg));
    cbn; lra.
Qed.

(** The camera zoom after [updateZoom]: the blend towards the new target,
    floored at [minZoom]. *)
Lemma updateZoom_zoom (s : Main.State) :
  Main.zoom (Main.camera (Main.updateZoom cfg s)) =
  JS.max (Main.minZoom cfg)
    (Main.zoom (Main.camera s)
     + (Main.targetZoom (Main.updateZoom cfg s) - Main.zoom (Main.camera s)) * 0.2).
Proof.
  unfold Main.updateZoom.
  destruct (Num.gtb (JS.abs (Main.zoomVelocity s)) 0.0001); cbn; [|reflexivity].
  destruct (Num.ltb (Main.targetZoom s + Main.zoomVelocity s) (Main.minZoom cfg));
    reflexivity.
Qed.

Lemma updateZoom_zoom_ge (s : Main.State) :
  Main.minZoom cfg <= Main.zoom (Main.camera (Main.updateZoom cfg s)).
Proof. rewrite updateZoom_zoom. apply Rmax_l. Qed.

End ZoomTick.

(** ** Who writes the camera zoom

    [updateZoom] is the only per-frame update and the only handler that
    assigns [camera.zoom]. *)

Section ZoomFrame.

Variable cfg : Main.Config.

Lemma updatePan_camera (s : Main.State) :
  Main.camera (Main.updatePan cfg s) = Main.camera s.
Proof.
  unfold Main.updatePan.
  destruct (negb (Main.isDragging s) && _); [reflexivity|].
  destruct (negb (Main.isDragging s)); reflexivity.
Qed.

Lemma updateAutoMovement_camera (i : Main.FrameInputs) (s : Main.State) :
  Main.camera (Main.updateAutoMovement cfg i s) = Main.camera s.
Proof.
  unfold Main.updateAutoMovement.
  destruct (negb (Main.autoMovementEnabled cfg) || Main.isDragging s);
    reflexivity.
Qed.

Lemma updateAutoZoom_camera (i : Main.FrameInputs) (s : Main.State) :
  Main.camera (Main.updateAutoZoom cfg i s) = Main.camera s.
Proof.
  unfold Main.updateAutoZoom.
  destruct (negb (Main.autoZoomEnabled cfg) || Main.isDragging s);
    [reflexivity|].
  cbv zeta.
  destruct (Num.ltb (Main.randomZoom i) (Main.autoZoomChangeRate cfg)); cbn;
    match goal with |- context [if ?c then _ else _] => destruct c end;
    reflexivity.
Qed.

Lemma enforceCameraOrientation_zoom (s : Main.State) :
  Main.zoom (Main.camera (Main.enforceCameraOrientation cfg s)) =
  Main.zoom (Main.camera s).
Proof. reflexivity. Qed.

Lemma refreshUniforms_camera (s : Main.State) :
  Main.camera (Main.refreshUniforms cfg s) = Main.camera s.
Proof.
  unfold Main.refreshUniforms. destruct (Main.densePointsMesh s); reflexivity.
Qed.

Lemma refreshUniforms_x1_camera (s : Main.State) :
  Main.camera (Main.refreshUniforms_x1 cfg s) = Main.camera s.
Proof.
  unfold Main.refreshUniforms_x1.
  destruct (Main.densePointsMesh s); reflexivity.
Qed.

Lemma refreshTexturePlane_camera (s : Main.State) :
  Main.camera (Main.refreshTexturePlane cfg s) = Main.camera s.
Proof.
  unfold Main.refreshTexturePlane.
  destruct (Main.texturePlaneMesh s); reflexivity.
Qed.

(** A frame leaves the camera zoom as [updateZoom] wrote it. *)
Lemma animate_zoom (i : Main.FrameInputs) (s : Main.State) :
  Main.zoom (Main.camera (Main.animate cfg i s)) =
  Main.zoom (Main.camera (Main.updateZoom cfg s)).
Proof.
  unfold Main.animate.
  rewrite refreshTexturePlane_camera, refreshUniforms_camera,
    enforceCameraOrientation_zoom, updateAutoZoom_camera,
    updateAutoMovement_camera, updatePan_camera.
  reflexivity.
Qed.

Lemma animate_x1_zoom (s : Main.State) :
  Main.zoom (Main.camera (Main.animate_x1 cfg s)) =
  Main.zoom (Main.camera (Main.updateZoom cfg s)).
Proof.
  unfold Main.animate_x1.
  rewrite refreshUniforms_x1_camera, enforceCameraOrientation_zoom,
    updatePan_camera.
  reflexivity.
Qed.

Lemma onWheel_camera (cx cy dy : R) (s : Main.State) :
  Main.camera (Main.onWheel cfg cx cy dy s) = Main.camera s.
Proof. reflexivity. Qed.

Lemma onMouseMove_zoom (cx cy : R) (s : Main.State) :
  Main.zoom (Main.camera (Main.onMouseMove cx cy s)) =
  Main.zoom (Main.camera s).
Proof.
  unfold Main.onMouseMove. destruct (negb (Main.isDragging s)); reflexivity.
Qed.

Lemma onResize_zoom (w : Main.Window) (s : Main.State) :
  Main.zoom (Main.camera (Main.onResize cfg w s)) = Main.zoom (Main.camera s).
Proof.
  unfold Main.onResize. cbn. destruct (Main.densePointsMesh s); reflexivity.
Qed.

(** The zoom after one event: a tick floors it, anything else keeps it. *)
Lemma step_zoom (s : Main.State) (e : Main.Event) :
  Main.zoom (Main.camera (Main.step cfg s e)) =
  if Main.isTick e
  then JS.max (Main.minZoom cfg) (Main.zoom (Main.camera (Main.step cfg s e)))
  else Main.zoom (Main.camera s).
Proof.
  destruct e; cbn [Main.step Main.isTick].
  - apply (f_equal Main.zoom (onWheel_camera _ _ _ s)).
  - reflexivity.
  - reflexivity.
  - apply onMouseMove_zoom.
  - apply onResize_zoom.
  - unfold Main.onTextureLoaded. cbv zeta. rewrite animate_zoom.
    symmetry. apply Rmax_right, updateZoom_zoom_ge.
  - rewrite animate_zoom. symmetry. apply Rmax_right, updateZoom_zoom_ge.
Qed.

Lemma step_x1_zoom (s : Main.State) (e : Main.Event) :
  Main.zoom (Main.camera (Main.step_x1 cfg s e)) =
  if Main.isTick e
  then JS.max (Main.minZoom cfg) (Main.zoom (Main.camera (Main.step_x1 cfg s e)))
  else Main.zoom (Main.camera s).
Proof.
  destruct e; cbn [Main.step_x1 Main.isTick].
  - apply (f_equal Main.zoom (onWheel_camera _ _ _ s)).
  - reflexivity.
  - reflexivity.
  - apply onMouseMove_zoom.
  - apply onResize_zoom.
  - cbv zeta. rewrite animate_x1_zoom.
    symmetry. apply Rmax_right, updateZoom_zoom_ge.
  - rewrite animate_x1_zoom. symmetry. apply Rmax_right, updateZoom_zoom_ge.
Qed.

(** The floor is an invariant of every event. *)
Lemma step_keeps_floor (s : Main.State) (e : Main.Event) :
  Main.minZoom cfg <= Main.zoom (Main.camera s) ->
  Main.minZoom cfg <= Main.zoom (Main.camera (Main.step cfg s e)).
Proof.
  intros H. rewrite step_zoom. destruct (Main.isTick e); [apply Rmax_l | exact H].
Qed.

Lemma step_x1_keeps_floor (s : Main.State) (e : Main.Event) :
  Main.minZoom cfg <= Main.zoom (Main.camera s) ->
  Main.minZoom cfg <= Main.zoom (Main.camera (Main.step_x1 cfg s e)).
Proof.
  intros H. rewrite step_x1_zoom.
  destruct (Main.isTick e); [apply Rmax_l | exact H].
Qed.

Lemma run_keeps_floor (es : list Main.Event) (s : Main.State) :
  Main.minZoom cfg <= Main.zoom (Main.camera s) ->
  Main.minZoom cfg <= Main.zoom (Main.camera (Main.run cfg s es)).
Proof.
  revert s. induction es as [|e es IH]; intros s H; cbn; [exact H|].
  apply IH, step_keeps_floor, H.
Qed.

Lemma run_x1_keeps_floor (es : list Main.Event) (s : Main.State) :
  Main.minZoom cfg <= Main.zoom (Main.camera s) ->
  Main.minZoom cfg <= Main.zoom (Main.camera (Main.run_x1 cfg s es)).
Proof.
  revert s. induction es as [|e es IH]; intros s H; cbn; [exact H|].
  apply IH, step_x1_keeps_floor, H.
Qed.

End ZoomFrame.

(** C1: after any tick the camera zoom is at least [minZoom], whatever
    events came before and whatever events follow: for every state, every
    event sequence that contains a frame ends with [minZoom <= zoom], in
    main.js and in its x1 variant, and so does every event sequence run
    from the initial state of main.js.  [updateZoom] floors the target zoom
    at [minZoom] when it integrates the velocity, zeroes the velocity when
    the floor is hit, and floors the blended zoom at [minZoom]. *)
Theorem zoom_never_below_minZoom (cfg : Main.Config) :
  (forall s es1 i es2,
     Main.minZoom cfg
     <= Main.zoom (Main.camera (Main.run cfg s (es1 ++ Main.Frame i :: es2))))
  /\ (forall s es1 i es2,
        Main.minZoom cfg
        <= Main.zoom
             (Main.camera (Main.run_x1 cfg s (es1 ++ Main.Frame i :: es2))))
  /\ (forall w rndAngle rndDir now es,
        Main.minZoom Main.CONFIG
        <= Main.zoom
             (Main.camera
                (Main.run Main.CONFIG
                   (Main.init Main.CONFIG w rndAngle rndDir now) es)))
  /\ (forall s,
        Main.targetZoom (Main.updateZoom cfg s) =
        if Num.gtb (JS.abs (Main.zoomVelocity s)) 0.0001
        then JS.max (Main.minZoom cfg)
               (Main.targetZoom s + Main.zoomVelocity s)
        else Main.targetZoom s)
  /\ (forall s,
        Main.zoomVelocity (Main.updateZoom cfg s) =
        if Num.gtb (JS.abs (Main.zoomVelocity s)) 0.0001
        then if Num.ltb (Main.targetZoom s + Main.zoomVelocity s)
                  (Main.minZoom cfg)
             then 0 else Main.zoomVelocity s * Main.zoomDamping cfg
        else 0)
  /\ (forall s,
        Main.zoom (Main.camera (Main.updateZoom cfg s)) =
        JS.max (Main.minZoom cfg)
          (Main.zoom (Main.camera s)
           + (Main.targetZoom (Main.updateZoom cfg s)
              - Main.zoom (Main.camera s)) * 0.2)).
Proof.
  repeat split.
  - intros s es1 i es2. unfold Main.run.
    rewrite fold_left_app. cbn [fold_left].
    apply run_keeps_floor. cbn [Main.step].
    rewrite animate_zoom. apply updateZoom_zoom_ge.
  - intros s es1 i es2. unfold Main.run_x1.
    rewrite fold_left_app. cbn [fold_left].
    apply run_x1_keeps_floor. cbn [Main.step_x1].
    rewrite animate_x1_zoom. apply updateZoom_zoom_ge.
  - intros w rndAngle rndDir now es. apply run_keeps_floor. cbn. lra.
  - apply updateZoom_targetZoom.
  - apply updateZoom_zoomVelocity.
  - apply updateZoom_zoom.
Qed.

(** ** Fifty ticks after a zoom-in impulse *)

Section Momentum.

Variable cfg : Main.Config.

(** A tick whose velocity is at or below the threshold only blends. *)
Lemma updateZoom_rest (s : Main.State) :
  JS.abs (Main.zoomVelocity s) <= 0.0001 ->
  Main.targetZoom (Main.updateZoom cfg s) = Main.targetZoom s
  /\ Main.zoomVelocity (Main.updateZoom cfg s) = 0
  /\ Main.zoom (Main.camera (Main.updateZoom cfg s)) =
     JS.max (Main.minZoom cfg)
       (Main.zoom (Main.camera s)
        + (Main.targetZoom s - Main.zoom (Main.camera s)) * 0.2).
Proof.
  intros H. apply gtb_false in H.
  rewrite updateZoom_zoom, updateZoom_targetZoom, updateZoom_zoomVelocity, H.
  auto.
Qed.

(** A tick whose velocity exceeds the threshold and does not reach the
    floor integrates and damps it. *)
Lemma updateZoom_glide (s : Main.State) :
  0.0001 < JS.abs (Main.zoomVelocity s) ->
  Main.minZoom cfg <= Main.targetZoom s + Main.zoomVelocity s ->
  Main.targetZoom (Main.updateZoom cfg s) =
    Main.targetZoom s + Main.zoomVelocity s
  /\ Main.zoomVelocity (Main.updateZoom cfg s) =
     Main.zoomVelocity s * Main.zoomDamping cfg
  /\ Main.zoom (Main.camera (Main.updateZoom cfg s)) =
     JS.max (Main.minZoom cfg)
       (Main.zoom (Main.camera s)
        + (Main.targetZoom s + Main.zoomVelocity s
           - Main.zoom (Main.camera s)) * 0.2).
Proof.
  intros H Hfloor. apply gtb_true in H. pose proof Hfloor as Hf.
  apply ltb_false in Hf.
  rewrite updateZoom_zoom, updateZoom_targetZoom, updateZoom_zoomVelocity, H, Hf.
  unfold JS.max. rewrite (Rmax_right _ _ Hfloor). auto.
Qed.

End Momentum.

Section Impulse.

Variable s : Main.State.
Hypothesis Hstart : Main.impulseStart s.

(** The first tick integrates the impulse. *)
Lemma impulse_tick1 :
  Main.targetZoom (Main.ticks Main.CONFIG 1 s) = 1.02
  /\ Main.zoomVelocity (Main.ticks Main.CONFIG 1 s) = 0.001
  /\ Main.zoom (Main.camera (Main.ticks Main.CONFIG 1 s)) = 1.004.
Proof.
  destruct Hstart as (Hz & Ht & Hv). cbn [Main.ticks].
  destruct (updateZoom_glide Main.CONFIG s) as (Et & Ev & Ez).
  - rewrite Hv. minmax.
  - rewrite Ht, Hv. config. lra.
  - rewrite Et, Ev, Ez, Ht, Hv, Hz. config. repeat split; minmax.
Qed.

(** The second tick integrates the damped velocity, which then lies
    below the threshold. *)
Lemma impulse_tick2 :
  Main.targetZoom (Main.ticks Main.CONFIG 2 s) = 1.021
  /\ Main.zoomVelocity (Main.ticks Main.CONFIG 2 s) = 0.00005
  /\ Main.zoom (Main.camera (Main.ticks Main.CONFIG 2 s)) = 1.0074.
Proof.
  destruct impulse_tick1 as (Ht & Hv & Hz).
  change (Main.ticks Main.CONFIG 2 s)
    with (Main.updateZoom Main.CONFIG (Main.ticks Main.CONFIG 1 s)).
  set (t := Main.ticks Main.CONFIG 1 s) in *. clearbody t.
  destruct (updateZoom_glide Main.CONFIG t) as (Et & Ev & Ez).
  - rewrite Hv. minmax.
  - rewrite Ht, Hv. config. lra.
  - rewrite Et, Ev, Ez, Ht, Hv, Hz. config. repeat split; minmax.
Qed.

(** From the second tick on the target is fixed, the velocity is at or
    below half the threshold, and the zoom lies strictly between 1 and
    the target. *)
Lemma impulse_tail (n : nat) :
  Main.targetZoom (Main.ticks Main.CONFIG (2 + n) s) = 1.021
  /\ (Main.zoomVelocity (Main.ticks Main.CONFIG (2 + n) s) = 0.00005
      \/ Main.zoomVelocity (Main.ticks Main.CONFIG (2 + n) s) = 0)
  /\ 1 < Main.zoom (Main.camera (Main.ticks Main.CONFIG (2 + n) s)) < 1.021.
Proof.
  induction n as [|n (Ht & Hv & Hz)].
  - destruct impulse_tick2 as (Ht & Hv & Hz).
    replace (2 + 0)%nat with 2%nat by reflexivity.
    rewrite Ht, Hv, Hz. repeat split; auto; lra.
  - replace (2 + S n)%nat with (S (2 + n)) by lia.
    cbn [Main.ticks].
    set (t := Main.ticks Main.CONFIG (2 + n) s) in *. clearbody t.
    destruct (updateZoom_rest Main.CONFIG t) as (Et & Ev & Ez).
    { destruct Hv as [-> | ->]; minmax. }
    rewrite Et, Ev, Ez, Ht. config. repeat split; auto; minmax.
Qed.

(** Once the velocity is at rest, a tick closes a fifth of the gap between
    the zoom and its target. *)
Lemma impulse_gap (n : nat) :
  1.021 - Main.zoom (Main.camera (Main.ticks Main.CONFIG (3 + n) s)) =
  0.8 * (1.021 - Main.zoom (Main.camera (Main.ticks Main.CONFIG (2 + n) s))).
Proof.
  destruct (impulse_tail n) as (Ht & Hv & Hz).
  replace (3 + n)%nat with (S (2 + n)) by lia.
  cbn [Main.ticks].
  set (t := Main.ticks Main.CONFIG (2 + n) s) in *. clearbody t.
  destruct (updateZoom_rest Main.CONFIG t) as (_ & _ & Ez).
  { destruct Hv as [-> | ->]; minmax. }
  rewrite Ez, Ht. config. minmax.
Qed.

(** Every tick raises the zoom. *)
Lemma impulse_rises (n : nat) :
  Main.zoomAfter Main.CONFIG s n < Main.zoomAfter Main.CONFIG s (S n).
Proof.
  unfold Main.zoomAfter.
  destruct n as [|[|n]].
  - destruct impulse_tick1 as (_ & _ & ->). destruct Hstart as (Hz & _).
    cbn [Main.ticks]. lra.
  - destruct impulse_tick1 as (_ & _ & ->).
    destruct impulse_tick2 as (_ & _ & ->). lra.
  - pose proof (impulse_gap n) as Hg.
    destruct (impulse_tail n) as (_ & _ & Hz).
    change (S (S n)) with (2 + n)%nat.
    change (S (2 + n)) with (3 + n)%nat. lra.
Qed.

Lemma impulse_above_one (n : nat) :
  1 < Main.zoomAfter Main.CONFIG s (S n).
Proof.
  induction n as [|n IH].
  - unfold Main.zoomAfter.
    destruct impulse_tick1 as (_ & _ & ->). lra.
  - pose proof (impulse_rises (S n)). lra.
Qed.

Lemma impulse_rest (n : nat) :
  Main.zoomVelocity (Main.ticks Main.CONFIG (3 + n) s) = 0.
Proof.
  destruct (impulse_tail n) as (_ & Hv & _).
  replace (3 + n)%nat with (S (2 + n)) by lia.
  cbn [Main.ticks].
  apply (updateZoom_rest Main.CONFIG (Main.ticks Main.CONFIG (2 + n) s)).
  destruct Hv as [-> | ->]; minmax.
Qed.

Lemma impulse_below_target (n : nat) :
  Main.zoomAfter Main.CONFIG s n < 1.021.
Proof.
  unfold Main.zoomAfter.
  destruct n as [|[|n]].
  - cbn [Main.ticks]. destruct Hstart as (-> & _). lra.
  - destruct impulse_tick1 as (_ & _ & ->). lra.
  - apply (impulse_tail n).
Qed.

End Impulse.

Lemma impulseState_start : Main.impulseStart Main.impulseState.
Proof. repeat split. Qed.

(** C5, as the code has it: from zoom 1, target zoom 1 and velocity +0.02,
    with the damping 0.05 and the floor 0.1 of [CONFIG], every
    [updateZoom] tick strictly raises the zoom.  The velocity is below
    the 0.0001 threshold after the second tick and zero from the third
    on; what is constant from the second tick on is the target zoom,
    1.021, which the zoom approaches from below, each later tick closing
    a fifth of the remaining gap.  After 50 ticks the zoom is above 1,
    and it is never below [minZoom]. *)
Theorem impulse_converges_upward (s : Main.State) :
  Main.impulseStart s ->
  (forall n, Main.zoomAfter Main.CONFIG s n
             < Main.zoomAfter Main.CONFIG s (S n))
  /\ JS.abs (Main.zoomVelocity (Main.ticks Main.CONFIG 2 s)) < 0.0001
  /\ (forall n, Main.zoomVelocity (Main.ticks Main.CONFIG (3 + n) s) = 0)
  /\ (forall n, Main.targetZoom (Main.ticks Main.CONFIG (2 + n) s) = 1.021)
  /\ (forall n, Main.zoomAfter Main.CONFIG s n < 1.021)
  /\ (forall n, 1.021 - Main.zoomAfter Main.CONFIG s (3 + n) =
                0.8 * (1.021 - Main.zoomAfter Main.CONFIG s (2 + n)))
  /\ 1 < Main.zoomAfter Main.CONFIG s 50
  /\ (forall n, Main.minZoom Main.CONFIG <= Main.zoomAfter Main.CONFIG s n).
Proof.
  intros Hstart. repeat split.
  - apply impulse_rises, Hstart.
  - destruct (impulse_tick2 s Hstart) as (_ & -> & _). minmax.
  - intros n. apply impulse_rest, Hstart.
  - intros n. apply (impulse_tail s Hstart n).
  - intros n. apply impulse_below_target, Hstart.
  - intros n. apply impulse_gap, Hstart.
  - apply (impulse_above_one s Hstart 49).
  - intros [|n].
    + destruct Hstart as (Hz & _). unfold Main.zoomAfter.
      cbn [Main.ticks]. rewrite Hz. config. lra.
    + pose proof (impulse_above_one s Hstart n). config. lra.
Qed.

(** The theorem at the state written out above. *)
Lemma impulse_converges_upward_witness :
  Main.impulseStart Main.impulseState
  /\ 1 < Main.zoomAfter Main.CONFIG Main.impulseState 50.
Proof.
  split; [exact impulseState_start|].
  apply (impulse_converges_upward Main.impulseState impulseState_start).
Defined.

(** The zoom sequence does not come to rest when the velocity falls below
    the threshold: the velocity is 0.00005 after the second tick, and the
    third tick still raises the zoom. *)
Lemma impulse_not_stable :
  ~ Main.stabilizesBelowThreshold Main.CONFIG Main.impulseState 50.
Proof.
  intros H. specialize (H 2%nat ltac:(lia)).
  destruct (impulse_tick2 _ impulseState_start) as (_ & Hv & _).
  rewrite Hv in H.
  pose proof (impulse_rises _ impulseState_start 2) as Hr.
  rewrite H in Hr; [lra | minmax].
Qed.

(** ** The wheel handler *)

Lemma sign_of_negative (d : R) : d < 0 -> JS.sign (- d) = 1.
Proof.
  intros H. unfold JS.sign. destruct (Rlt_dec 0 (- d)); [reflexivity | lra].
Qed.

(** [onWheel] assigns [zoomVelocity] and [targetPosition] and nothing
    else. *)
Lemma onWheel_frame (cfg : Main.Config) (cx cy dy : R) (s : Main.State) :
  Main.onWheel cfg cx cy dy s =
  Main.set_targetPosition
    (Main.targetPosition (Main.onWheel cfg cx cy dy s))
    (Main.set_zoomVelocity (Main.zoomVelocity (Main.onWheel cfg cx cy dy s)) s).
Proof. destruct s; reflexivity. Qed.

(** The cursor at the centre of the window is the camera position in
    world coordinates. *)
Lemma mouseWorld_centre (s : Main.State) (cx cy : R) :
  Main.mouseNDC s cx cy = Vec2 0 0 ->
  Main.mouseWorld s cx cy =
  Vec2 (x3 (Main.position (Main.camera s))) (y3 (Main.position (Main.camera s))).
Proof.
  intros H. unfold Main.mouseWorld. rewrite H. cbn [x2 y2].
  f_equal; unfold Rdiv; ring.
Qed.

Lemma onWheel_window (cfg : Main.Config) (cx cy dy : R) (s : Main.State) :
  Main.window (Main.onWheel cfg cx cy dy s) = Main.window s.
Proof. reflexivity. Qed.

(** The target position after a wheel event that zooms in, in terms of
    the pixel coordinates of the event, the window size and the frustum. *)
Lemma onWheel_in_target (cfg : Main.Config) (s : Main.State) (cx cy dy : R) :
  dy < 0 ->
  let cam := Main.camera s in
  Main.targetPosition (Main.onWheel cfg cx cy dy s) =
  Vec2 (x2 (Main.targetPosition s)
        + Main.zoomStep cfg
          * ((2 * cx / Main.innerWidth (Main.window s) - 1)
             * ((Main.right cam - Main.left cam) / 2 / Main.zoom cam)))
       (y2 (Main.targetPosition s)
        + Main.zoomStep cfg
          * ((1 - 2 * cy / Main.innerHeight (Main.window s))
             * ((Main.top cam - Main.bottom cam) / 2 / Main.zoom cam))).
Proof.
  intros Hdy cam. pose proof (sign_of_negative dy Hdy) as Hsign.
  unfold Main.onWheel, Main.mouseWorld, Main.mouseNDC. cbv zeta.
  rewrite Hsign. destruct s. cbn -[Rmult Rplus Rminus Rdiv Ropp IZR].
  f_equal; unfold Rdiv; ring.
Qed.

(** A product of a non-zero offset and a non-zero half extent of the view
    is non-zero. *)
Lemma offset_nonzero (k n extent zoom : R) :
  0 < k -> n <> 0 -> extent <> 0 -> zoom <> 0 ->
  k * (n * (extent / 2 / zoom)) <> 0.
Proof.
  intros Hk Hn He Hz.
  apply Rmult_integral_contrapositive_currified; [lra|].
  apply Rmult_integral_contrapositive_currified; [exact Hn|].
  unfold Rdiv.
  apply Rmult_integral_contrapositive_currified;
    [|apply Rinv_neq_0_compat, Hz].
  apply Rmult_integral_contrapositive_currified; [exact He | lra].
Qed.

(** C4, as the code has it.  The cursor of a wheel event at pixel
    [(clientX, clientY)] of a window of non-zero size lies, in world
    coordinates, at the camera position plus the offset
    [(2 clientX / innerWidth - 1, 1 - 2 clientY / innerHeight)] scaled by
    half the visible extent [(right - left) / 2 / zoom] by
    [(top - bottom) / 2 / zoom].  A wheel event with [deltaY < 0] adds
    [1 * zoomStep * zoom] to [zoomVelocity] and moves [targetPosition] by
    [zoomStep] times the vector from the camera position to that cursor
    position, a positive multiple since the step is positive.  At the
    centre pixel [(innerWidth / 2, innerHeight / 2)] that vector is zero
    and [targetPosition] is unchanged; off the centre column (row) of a
    non-degenerate view the x (y) coordinate does change.  When
    [targetPosition] is at the camera position the move shortens its
    offset from the cursor to [1 - zoomStep] times what it was, so for a
    step of at most 1 it ends no farther from the cursor in either
    coordinate.  No other variable is written. *)
Theorem wheel_zooms_towards_cursor (cfg : Main.Config) (s : Main.State)
  (cx cy dy : R) :
  dy < 0 ->
  0 < Main.zoomStep cfg ->
  Main.innerWidth (Main.window s) <> 0 ->
  Main.innerHeight (Main.window s) <> 0 ->
  let s' := Main.onWheel cfg cx cy dy s in
  let cam := Main.camera s in
  let width := Main.innerWidth (Main.window s) in
  let height := Main.innerHeight (Main.window s) in
  let halfExtentX := (Main.right cam - Main.left cam) / 2 / Main.zoom cam in
  let halfExtentY := (Main.top cam - Main.bottom cam) / 2 / Main.zoom cam in
  let cursorX := x3 (Main.position cam) + (2 * cx / width - 1) * halfExtentX in
  let cursorY := y3 (Main.position cam) + (1 - 2 * cy / height) * halfExtentY in
  Main.zoomVelocity s' =
    Main.zoomVelocity s + JS.sign (- dy) * Main.zoomStep cfg * Main.zoom cam
  /\ JS.sign (- dy) = 1
  /\ x2 (Main.targetPosition s') - x2 (Main.targetPosition s) =
     Main.zoomStep cfg * (cursorX - x3 (Main.position cam))
  /\ y2 (Main.targetPosition s') - y2 (Main.targetPosition s) =
     Main.zoomStep cfg * (cursorY - y3 (Main.position cam))
  /\ (cx = width / 2 -> cy = height / 2 ->
      Main.targetPosition s' = Main.targetPosition s)
  /\ (cx <> width / 2 ->
      Main.right cam - Main.left cam <> 0 -> Main.zoom cam <> 0 ->
      x2 (Main.targetPosition s') <> x2 (Main.targetPosition s))
  /\ (cy <> height / 2 ->
      Main.top cam - Main.bottom cam <> 0 -> Main.zoom cam <> 0 ->
      y2 (Main.targetPosition s') <> y2 (Main.targetPosition s))
  /\ (Main.targetPosition s
      = Vec2 (x3 (Main.position cam)) (y3 (Main.position cam)) ->
      cursorX - x2 (Main.targetPosition s')
      = (1 - Main.zoomStep cfg) * (cursorX - x2 (Main.targetPosition s))
      /\ cursorY - y2 (Main.targetPosition s')
         = (1 - Main.zoomStep cfg) * (cursorY - y2 (Main.targetPosition s))
      /\ (Main.zoomStep cfg <= 1 ->
          Rabs (cursorX - x2 (Main.targetPosition s'))
          <= Rabs (cursorX - x2 (Main.targetPosition s))
          /\ Rabs (cursorY - y2 (Main.targetPosition s'))
             <= Rabs (cursorY - y2 (Main.targetPosition s))))
  /\ s' = Main.set_targetPosition (Main.targetPosition s')
            (Main.set_zoomVelocity (Main.zoomVelocity s') s).
Proof.
  intros Hdy Hstep Hw Hh s' cam width height halfExtentX halfExtentY
    cursorX cursorY.
  pose proof (sign_of_negative dy Hdy) as Hsign.
  pose proof (onWheel_in_target cfg s cx cy dy Hdy) as Ht.
  cbv zeta in Ht.
  fold s' cam width height halfExtentX halfExtentY in Ht.
  assert (Hx : x2 (Main.targetPosition s') - x2 (Main.targetPosition s) =
               Main.zoomStep cfg * (cursorX - x3 (Main.position cam))).
  { rewrite Ht. cbn [x2]. unfold cursorX. ring. }
  assert (Hy : y2 (Main.targetPosition s') - y2 (Main.targetPosition s) =
               Main.zoomStep cfg * (cursorY - y3 (Main.position cam))).
  { rewrite Ht. cbn [y2]. unfold cursorY. ring. }
  split; [reflexivity|]. split; [exact Hsign|].
  split; [exact Hx|]. split; [exact Hy|].
  split; [|split; [|split; [|split]]].
  - intros Hcx Hcy. rewrite Ht.
    assert (H0x : 2 * cx / width - 1 = 0) by (rewrite Hcx; field; exact Hw).
    assert (H0y : 1 - 2 * cy / height = 0) by (rewrite Hcy; field; exact Hh).
    rewrite H0x, H0y.
    destruct (Main.targetPosition s) as [a b]. cbn [x2 y2]. f_equal; ring.
  - intros Hn He Hz Heq. rewrite Ht in Heq. cbn [x2] in Heq.
    assert (Hoff : 2 * cx / width - 1 <> 0).
    { intros H0. apply Hn.
      assert (H1 : 2 * cx / width = 1) by lra.
      replace cx with (2 * cx / width * width / 2) by (field; exact Hw).
      rewrite H1. lra. }
    pose proof (offset_nonzero _ _ _ _ Hstep Hoff He Hz) as Hne.
    fold halfExtentX in Hne. lra.
  - intros Hn He Hz Heq. rewrite Ht in Heq. cbn [y2] in Heq.
    assert (Hoff : 1 - 2 * cy / height <> 0).
    { intros H0. apply Hn.
      assert (H1 : 2 * cy / height = 1) by lra.
      replace cy with (2 * cy / height * height / 2) by (field; exact Hh).
      rewrite H1. lra. }
    pose proof (offset_nonzero _ _ _ _ Hstep Hoff He Hz) as Hne.
    fold halfExtentY in Hne. lra.
  - intros Hrest. rewrite Hrest in Hx, Hy. cbn [x2 y2] in Hx, Hy.
    rewrite Hrest. cbn [x2 y2].
    assert (Ex : cursorX - x2 (Main.targetPosition s')
                 = (1 - Main.zoomStep cfg) * (cursorX - x3 (Main.position cam)))
      by lra.
    assert (Ey : cursorY - y2 (Main.targetPosition s')
                 = (1 - Main.zoomStep cfg) * (cursorY - y3 (Main.position cam)))
      by lra.
    split; [exact Ex|]. split; [exact Ey|].
    intros Hle. rewrite Ex, Ey, !Rabs_mult.
    rewrite (Rabs_pos_eq (1 - Main.zoomStep cfg)) by lra.
    pose proof (Rabs_pos (cursorX - x3 (Main.position cam))).
    pose proof (Rabs_pos (cursorY - y3 (Main.position cam))).
    split; nra.
  - apply onWheel_frame.
Qed.

(** Two wheel events in a 1280 by 720 window showing the initial view: at
    the centre pixel (640, 360) the target position stays, and at the
    right edge (1280, 360) its x coordinate changes. *)
Lemma wheel_zooms_towards_cursor_witness :
  let s := Main.setupCamera Main.CONFIG (Main.mkWindow 1280 720) in
  Main.targetPosition (Main.onWheel Main.CONFIG 640 360 (-100) s)
  = Main.targetPosition s
  /\ x2 (Main.targetPosition (Main.onWheel Main.CONFIG 1280 360 (-100) s))
     <> x2 (Main.targetPosition s).
Proof.
  intros s.
  assert (Hdy : -100 < 0) by lra.
  assert (Hstep : 0 < Main.zoomStep Main.CONFIG) by (config; lra).
  assert (Hw : Main.innerWidth (Main.window s) <> 0) by (cbn; lra).
  assert (Hh : Main.innerHeight (Main.window s) <> 0) by (cbn; lra).
  split.
  - apply (proj1 (proj2 (proj2 (proj2 (proj2
             (wheel_zooms_towards_cursor Main.CONFIG s 640 360 (-100)
                Hdy Hstep Hw Hh)))))); cbn; lra.
  - apply (proj1 (proj2 (proj2 (proj2 (proj2 (proj2
             (wheel_zooms_towards_cursor Main.CONFIG s 1280 360 (-100)
                Hdy Hstep Hw Hh))))))); cbn; lra.
Defined.

(** Two wheel events that zoom in, one after the other with no frame in
    between, in a 1280 by 720 window showing the initial view.  The first,
    at the right edge, moves the target position from the camera position
    (0, 0) to (0.32 / 9, 0).  The cursor of the second, at pixel
    (646.4, 360), is off the centre and lies in the world at
    (0.16 / 9, 0), between the camera and the target position; the second
    event moves the target position to (0.3232 / 9, 0), farther from the
    cursor than it was. *)
Lemma wheel_moves_target_away_from_cursor :
  let s0 := Main.init Main.CONFIG (Main.mkWindow 1280 720) 0.25 0.75 0 in
  let s := Main.onWheel Main.CONFIG 1280 360 (-100) s0 in
  let s' := Main.onWheel Main.CONFIG 646.4 360 (-100) s in
  let cam := Main.camera s in
  let cursorX := x3 (Main.position cam)
                 + (2 * 646.4 / 1280 - 1)
                   * ((Main.right cam - Main.left cam) / 2 / Main.zoom cam) in
  let cursorY := y3 (Main.position cam)
                 + (1 - 2 * 360 / 720)
                   * ((Main.top cam - Main.bottom cam) / 2 / Main.zoom cam) in
  Main.window s = Main.mkWindow 1280 720
  /\ 646.4 <> 1280 / 2
  /\ Main.mouseWorld s 646.4 360 = Vec2 cursorX cursorY
  /\ x3 (Main.position cam) = 0 /\ y3 (Main.position cam) = 0
  /\ cursorX = 0.16 / 9 /\ cursorY = 0
  /\ Main.targetPosition s = Vec2 (0.32 / 9) 0
  /\ Main.targetPosition s' = Vec2 (0.3232 / 9) 0
  /\ Rabs (cursorX - x2 (Main.targetPosition s))
     < Rabs (cursorX - x2 (Main.targetPosition s'))
  /\ cursorY - y2 (Main.targetPosition s) = 0
  /\ cursorY - y2 (Main.targetPosition s') = 0.
Proof.
  intros s0 s s' cam cursorX cursorY.
  assert (Hdy : -100 < 0) by lra.
  assert (Hcam : cam = Main.camera s0) by apply onWheel_camera.
  assert (Hwin : Main.window s = Main.window s0) by apply onWheel_window.
  assert (Ht : Main.targetPosition s = Vec2 (0.32 / 9) 0).
  { unfold s. rewrite (onWheel_in_target _ _ _ _ _ Hdy). cbn.
    f_equal; lra. }
  assert (Hcx : cursorX = 0.16 / 9).
  { unfold cursorX. rewrite Hcam. cbn. lra. }
  assert (Hcy : cursorY = 0).
  { unfold cursorY. rewrite Hcam. cbn. lra. }
  assert (Ht' : Main.targetPosition s' = Vec2 (0.3232 / 9) 0).
  { unfold s'. rewrite (onWheel_in_target _ _ _ _ _ Hdy). cbv zeta.
    rewrite Ht, Hwin. fold cam. rewrite Hcam. cbn. f_equal; lra. }
  split; [exact Hwin|]. split; [lra|].
  split.
  { unfold Main.mouseWorld, Main.mouseNDC. cbv zeta. rewrite Hwin.
    fold cam. unfold cursorX, cursorY.
    change (Main.window s0) with (Main.mkWindow 1280 720).
    cbn [Main.innerWidth Main.innerHeight x2 y2].
    f_equal; unfold Rdiv; ring. }
  split; [rewrite Hcam; reflexivity|]. split; [rewrite Hcam; reflexivity|].
  split; [exact Hcx|]. split; [exact Hcy|].
  split; [exact Ht|]. split; [exact Ht'|].
  rewrite Ht, Ht', Hcx, Hcy. cbn [x2 y2].
  split; [|split; lra].
  rewrite !Rabs_left by lra. lra.
Qed.

(** ** What a frame does to the two meshes *)

Section Meshes.

Variable cfg : Main.Config.

(** The four updates and the orientation fix leave both meshes alone. *)
Lemma updateZoom_meshes (s : Main.State) :
  Main.densePointsMesh (Main.updateZoom cfg s) = Main.densePointsMesh s
  /\ Main.texturePlaneMesh (Main.updateZoom cfg s) = Main.texturePlaneMesh s.
Proof.
  unfold Main.updateZoom.
  destruct (Num.gtb (JS.abs (Main.zoomVelocity s)) 0.0001); cbn; [|auto].
  destruct (Num.ltb (Main.targetZoom s + Main.zoomVelocity s) (Main.minZoom cfg));
    auto.
Qed.

Lemma updatePan_meshes (s : Main.State) :
  Main.densePointsMesh (Main.updatePan cfg s) = Main.densePointsMesh s
  /\ Main.texturePlaneMesh (Main.updatePan cfg s) = Main.texturePlaneMesh s.
Proof.
  unfold Main.updatePan.
  destruct (negb (Main.isDragging s) && _); [auto|].
  destruct (negb (Main.isDragging s)); auto.
Qed.

Lemma updateAutoMovement_meshes (i : Main.FrameInputs) (s : Main.State) :
  Main.densePointsMesh (Main.updateAutoMovement cfg i s)
    = Main.densePointsMesh s
  /\ Main.texturePlaneMesh (Main.updateAutoMovement cfg i s)
     = Main.texturePlaneMesh s.
Proof.
  unfold Main.updateAutoMovement.
  destruct (negb (Main.autoMovementEnabled cfg) || Main.isDragging s); auto.
Qed.

Lemma updateAutoZoom_meshes (i : Main.FrameInputs) (s : Main.State) :
  Main.densePointsMesh (Main.updateAutoZoom cfg i s) = Main.densePointsMesh s
  /\ Main.texturePlaneMesh (Main.updateAutoZoom cfg i s)
     = Main.texturePlaneMesh s.
Proof.
  unfold Main.updateAutoZoom.
  destruct (negb (Main.autoZoomEnabled cfg) || Main.isDragging s); [auto|].
  cbv zeta.
  destruct (Num.ltb (Main.randomZoom i) (Main.autoZoomChangeRate cfg)); cbn;
    match goal with |- context [if ?c then _ else _] => destruct c end;
    auto.
Qed.

(** The state on which [animate] refreshes the uniforms and the overlay. *)
Lemma updates_meshes (i : Main.FrameInputs) (s : Main.State) :
  let s' := Main.enforceCameraOrientation cfg
              (Main.updateAutoZoom cfg i
                 (Main.updateAutoMovement cfg i
                    (Main.updatePan cfg (Main.updateZoom cfg s)))) in
  Main.densePointsMesh s' = Main.densePointsMesh s
  /\ Main.texturePlaneMesh s' = Main.texturePlaneMesh s.
Proof.
  cbv zeta. unfold Main.enforceCameraOrientation.
  cbn [Main.densePointsMesh Main.texturePlaneMesh Main.set_camera].
  destruct (updateZoom_meshes s) as (D1 & T1).
  destruct (updatePan_meshes (Main.updateZoom cfg s)) as (D2 & T2).
  destruct (updateAutoMovement_meshes i (Main.updatePan cfg (Main.updateZoom cfg s)))
    as (D3 & T3).
  destruct (updateAutoZoom_meshes i
              (Main.updateAutoMovement cfg i
                 (Main.updatePan cfg (Main.updateZoom cfg s)))) as (D4 & T4).
  split; congruence.
Qed.

Lemma refreshUniforms_texturePlane (s : Main.State) :
  Main.texturePlaneMesh (Main.refreshUniforms cfg s) = Main.texturePlaneMesh s.
Proof.
  unfold Main.refreshUniforms. destruct (Main.densePointsMesh s); reflexivity.
Qed.

Lemma refreshTexturePlane_densePoints (s : Main.State) :
  Main.densePointsMesh (Main.refreshTexturePlane cfg s) = Main.densePointsMesh s.
Proof.
  unfold Main.refreshTexturePlane.
  destruct (Main.texturePlaneMesh s); reflexivity.
Qed.

(** Once the overlay exists, a frame writes it the fade of the frame's
    camera zoom. *)
Lemma animate_texturePlane (i : Main.FrameInputs) (s : Main.State)
  (p : Main.TexturePlaneMesh) :
  Main.texturePlaneMesh s = Some p ->
  Main.texturePlaneMesh (Main.animate cfg i s) =
  Some (Main.fadeTexturePlane cfg
          (Main.zoom (Main.camera (Main.animate cfg i s)))).
Proof.
  intros Hp. rewrite animate_zoom. unfold Main.animate. cbv zeta.
  pose proof (updates_meshes i s) as (_ & T). cbv zeta in T.
  set (s' := Main.enforceCameraOrientation cfg _) in *.
  assert (Hz : Main.zoom (Main.camera (Main.refreshUniforms cfg s')) =
               Main.zoom (Main.camera (Main.updateZoom cfg s))).
  { rewrite refreshUniforms_camera. unfold s'.
    rewrite enforceCameraOrientation_zoom, updateAutoZoom_camera,
      updateAutoMovement_camera, updatePan_camera. reflexivity. }
  unfold Main.refreshTexturePlane.
  rewrite refreshUniforms_texturePlane, T, Hp. cbn [Main.texturePlaneMesh
    Main.set_texturePlaneMesh]. now rewrite Hz.
Qed.

(** Once the points mesh exists, a frame pushes the uniforms of the state
    the updates have produced. *)
Lemma animate_densePoints (i : Main.FrameInputs) (s : Main.State)
  (u : Shaders.Uniforms) :
  Main.densePointsMesh s = Some u ->
  exists s', Main.zoom (Main.camera s')
             = Main.zoom (Main.camera (Main.animate cfg i s))
    /\ Main.densePointsMesh (Main.animate cfg i s)
       = Some (Main.pushUniforms cfg s' u).
Proof.
  intros Hu. unfold Main.animate. cbv zeta.
  pose proof (updates_meshes i s) as (D & _). cbv zeta in D.
  set (s' := Main.enforceCameraOrientation cfg _) in *.
  exists s'. split.
  - now rewrite refreshTexturePlane_camera, refreshUniforms_camera.
  - rewrite refreshTexturePlane_densePoints. unfold Main.refreshUniforms.
    rewrite D, Hu. reflexivity.
Qed.

End Meshes.


(** ** Linear ramps *)

Section Ramp.

Variables lo hi : R.
Hypothesis Hramp : lo < hi.

Lemma ramp_nonneg (a : R) : lo <= a -> 0 <= (a - lo) / (hi - lo).
Proof.
  intros H. apply Rmult_le_pos; [lra | left; apply Rinv_0_lt_compat; lra].
Qed.

Lemma ramp_nonpos (a : R) : a <= lo -> (a - lo) / (hi - lo) <= 0.
Proof.
  intros H. pose proof (ramp_nonneg (lo + (lo - a)) ltac:(lra)) as H0.
  replace ((a - lo) / (hi - lo)) with (- ((lo + (lo - a) - lo) / (hi - lo)))
    by (field; lra).
  lra.
Qed.

Lemma ramp_le_one (a : R) : a <= hi -> (a - lo) / (hi - lo) <= 1.
Proof.
  intros H. apply (Rmult_le_reg_r (hi - lo)); [lra|].
  unfold Rdiv. rewrite Rmult_assoc, Rinv_l by lra. lra.
Qed.

Lemma ramp_ge_one (a : R) : hi <= a -> 1 <= (a - lo) / (hi - lo).
Proof.
  intros H. apply (Rmult_le_reg_r (hi - lo)); [lra|].
  unfold Rdiv. rewrite Rmult_assoc, Rinv_l by lra. lra.
Qed.

Lemma ramp_monotone (a b : R) :
  a <= b -> (a - lo) / (hi - lo) <= (b - lo) / (hi - lo).
Proof.
  intros H. apply Rmult_le_compat_r; [left; apply Rinv_0_lt_compat; lra | lra].
Qed.

(** [clamp] of the ramp, as GLSL and main.js both compute it. *)
Lemma clamp_ramp_below (a : R) :
  a <= lo -> GLSL.clamp ((a - lo) / (hi - lo)) 0 1 = 0.
Proof. intros H. pose proof (ramp_nonpos a H). minmax. Qed.

Lemma clamp_ramp_above (a : R) :
  hi <= a -> GLSL.clamp ((a - lo) / (hi - lo)) 0 1 = 1.
Proof. intros H. pose proof (ramp_ge_one a H). minmax. Qed.

Lemma clamp_ramp_between (a : R) :
  lo <= a <= hi ->
  GLSL.clamp ((a - lo) / (hi - lo)) 0 1 = (a - lo) / (hi - lo).
Proof.
  intros [H0 H1]. pose proof (ramp_nonneg a H0). pose proof (ramp_le_one a H1).
  minmax.
Qed.

End Ramp.

(** ** The overlay fade *)

Section Fade.

Variable cfg : Main.Config.
Hypothesis Hfade :
  Main.texturePlaneFadeStartZoom cfg < Main.texturePlaneFadeEndZoom cfg.

Lemma fade_below (zoom : R) :
  zoom <= Main.texturePlaneFadeStartZoom cfg ->
  Main.opacity (Main.fadeTexturePlane cfg zoom) = 1.
Proof.
  intros H. unfold Main.fadeTexturePlane.
  pose proof (ramp_nonpos _ _ Hfade zoom H).
  repeat cmp_case; cbn [Main.opacity]; try lra; minmax.
Qed.

Lemma fade_above (zoom : R) :
  Main.texturePlaneFadeEndZoom cfg <= zoom ->
  Main.opacity (Main.fadeTexturePlane cfg zoom) = 0.
Proof.
  intros H. unfold Main.fadeTexturePlane.
  pose proof (ramp_ge_one _ _ Hfade zoom H).
  repeat cmp_case; cbn [Main.opacity]; try lra; minmax.
Qed.

Lemma fade_between (zoom : R) :
  Main.texturePlaneFadeStartZoom cfg <= zoom
    <= Main.texturePlaneFadeEndZoom cfg ->
  Main.opacity (Main.fadeTexturePlane cfg zoom) =
  1 - (zoom - Main.texturePlaneFadeStartZoom cfg)
      / (Main.texturePlaneFadeEndZoom cfg - Main.texturePlaneFadeStartZoom cfg).
Proof.
  intros [Hlo Hhi]. unfold Main.fadeTexturePlane.
  pose proof (ramp_nonneg _ _ Hfade zoom Hlo).
  pose proof (ramp_le_one _ _ Hfade zoom Hhi).
  repeat cmp_case; cbn [Main.opacity]; try lra; minmax.
Qed.

(** The plane is hidden exactly when the opacity written with it is at
    most 0.001. *)
Lemma fade_visible (zoom : R) :
  Main.visible (Main.fadeTexturePlane cfg zoom) = false <->
  Main.opacity (Main.fadeTexturePlane cfg zoom) <= 0.001.
Proof.
  unfold Main.fadeTexturePlane.
  destruct (Num.ltb zoom (Main.texturePlaneFadeStartZoom cfg));
    [|destruct (Num.gtb zoom (Main.texturePlaneFadeEndZoom cfg))];
    cbn [Main.opacity Main.visible].
  - split; [discriminate | lra].
  - split; [lra | reflexivity].
  - apply gtb_false.
Qed.

End Fade.

(** C6: with the fade range 4 to 12 of [CONFIG], the overlay opacity is 1
    for every zoom up to 4, 0 for every zoom from 12 on, and
    [1 - (zoom - 4) / (12 - 4)] in between, so 0.5 at zoom 8; and the plane
    is marked not visible exactly when that opacity is at most 0.001.
    After a frame the overlay, once created, holds these values for the
    camera zoom of the frame. *)
Theorem overlay_fade (zoom : R) :
  let plane := Main.fadeTexturePlane Main.CONFIG zoom in
  (zoom <= 4 -> Main.opacity plane = 1)
  /\ (12 <= zoom -> Main.opacity plane = 0)
  /\ (4 <= zoom <= 12 -> Main.opacity plane = 1 - (zoom - 4) / (12 - 4))
  /\ Main.opacity (Main.fadeTexturePlane Main.CONFIG 8) = 0.5
  /\ (Main.visible plane = false <-> Main.opacity plane <= 0.001)
  /\ (forall i s p,
        Main.texturePlaneMesh s = Some p ->
        Main.texturePlaneMesh (Main.animate Main.CONFIG i s) =
        Some (Main.fadeTexturePlane Main.CONFIG
                (Main.zoom (Main.camera (Main.animate Main.CONFIG i s))))).
Proof.
  assert (Hfade : Main.texturePlaneFadeStartZoom Main.CONFIG
                  < Main.texturePlaneFadeEndZoom Main.CONFIG) by (config; lra).
  intros plane.
  split; [apply (fade_below Main.CONFIG Hfade)|].
  split; [apply (fade_above Main.CONFIG Hfade)|].
  split; [apply (fade_between Main.CONFIG Hfade)|].
  split.
  { rewrite (fade_between Main.CONFIG Hfade) by (config; lra). config. lra. }
  split; [apply fade_visible|].
  intros i s p Hp. apply animate_texturePlane with (p := p). exact Hp.
Qed.

(** The two ends of the fade range. *)
Lemma overlay_fade_witness :
  Main.opacity (Main.fadeTexturePlane Main.CONFIG 4) = 1
  /\ Main.opacity (Main.fadeTexturePlane Main.CONFIG 12) = 0.
Proof.
  split.
  - apply (proj1 (overlay_fade 4)). lra.
  - apply (proj1 (proj2 (overlay_fade 12))). lra.
Defined.

(** ** The displacement factor *)

(** main.js recomputes the factor for the zoom counter with [Math.min]
    and [Math.max]; it is the shader's clamp at the pushed uniforms. *)
Lemma counterDisplacementFactor_shader (cfg : Main.Config) (s : Main.State)
  (u : Shaders.Uniforms) :
  Main.counterDisplacementFactor cfg (Main.zoom (Main.camera s)) =
  Shaders.displacementFactor (Main.pushUniforms cfg s u).
Proof.
  unfold Main.counterDisplacementFactor, Shaders.displacementFactor.
  cbn. unfold GLSL.clamp, JS.min, JS.max.
  rewrite Rmin_comm. f_equal. apply Rmax_comm.
Qed.

(** C7: as a function of the camera zoom, with the other uniforms fixed
    and [displacementStartZoom < displacementFullZoom], the displacement
    factor of the vertex shader is the clamp to [0, 1] of
    [(zoom - start) / (full - start)]: 0 up to the start zoom, 1 from the
    full zoom on, and that linear expression in between. *)
Theorem displacement_factor_ramp (u : Shaders.Uniforms) (zoom : R) :
  Shaders.displacementStartZoom u < Shaders.displacementFullZoom u ->
  let start := Shaders.displacementStartZoom u in
  let full := Shaders.displacementFullZoom u in
  let factor := Shaders.displacementFactor (Shaders.set_cameraZoom zoom u) in
  factor = GLSL.clamp ((zoom - start) / (full - start)) 0 1
  /\ (zoom <= start -> factor = 0)
  /\ (full <= zoom -> factor = 1)
  /\ (start <= zoom <= full -> factor = (zoom - start) / (full - start)).
Proof.
  intros H start full factor.
  assert (E : factor = GLSL.clamp ((zoom - start) / (full - start)) 0 1)
    by reflexivity.
  split; [exact E|]. rewrite E.
  split; [apply clamp_ramp_below, H|].
  split; [apply clamp_ramp_above, H | apply clamp_ramp_between, H].
Qed.

(** The uniforms of the shipped configuration, below the start zoom and
    above the full zoom. *)
Lemma displacement_factor_ramp_witness :
  Shaders.displacementFactor (Shaders.set_cameraZoom 3 (Main.uniformsAt 1)) = 0
  /\ Shaders.displacementFactor (Shaders.set_cameraZoom 2000 (Main.uniformsAt 1))
     = 1.
Proof.
  assert (H : Shaders.displacementStartZoom (Main.uniformsAt 1)
              < Shaders.displacementFullZoom (Main.uniformsAt 1))
    by (cbn; lra).
  split.
  - apply (proj1 (proj2 (displacement_factor_ramp (Main.uniformsAt 1) 3 H))).
    cbn. lra.
  - apply (proj1 (proj2 (proj2
             (displacement_factor_ramp (Main.uniformsAt 1) 2000 H)))).
    cbn. lra.
Defined.

(** ** The sampling rate *)

Section Sampling.

Variable u : Shaders.Uniforms.
Hypothesis HscreenW : 0 <= Shaders.screenWidth u.
Hypothesis HscreenH : 0 <= Shaders.screenHeight u.
Hypothesis HplaneW : 0 <= Shaders.planeWidth u.
Hypothesis HplaneH : 0 <= Shaders.planeHeight u.
Hypothesis Htotal : 0 < Shaders.totalPoints u.

(** The visible-pixel estimate grows with the zoom. *)
Lemma visiblePixels_monotone (z1 z2 : R) :
  0 <= z1 <= z2 ->
  Shaders.visiblePixels (Shaders.set_cameraZoom z1 u)
  <= Shaders.visiblePixels (Shaders.set_cameraZoom z2 u).
Proof.
  intros [H0 H12]. unfold Shaders.visiblePixels. cbn.
  set (pw := Shaders.planeWidth u) in *. set (ph := Shaders.planeHeight u) in *.
  set (sw := Shaders.screenWidth u) in *. set (sh := Shaders.screenHeight u) in *.
  assert (Hp : 0 <= pw * ph) by (apply Rmult_le_pos; assumption).
  assert (Hs : 0 <= sw * sh) by (apply Rmult_le_pos; assumption).
  assert (Hz : z1 * z1 <= z2 * z2) by nra.
  assert (Hc : 0 <= (pw * ph) * (sw * sh)) by (apply Rmult_le_pos; assumption).
  assert (Hm : (pw * ph) * (sw * sh) * (z1 * z1)
               <= (pw * ph) * (sw * sh) * (z2 * z2))
    by (apply Rmult_le_compat_l; assumption).
  lra.
Qed.

Lemma samplingRate_monotone (z1 z2 : R) :
  0 <= z1 <= z2 ->
  Shaders.samplingRate (Shaders.set_cameraZoom z1 u)
  <= Shaders.samplingRate (Shaders.set_cameraZoom z2 u).
Proof.
  intros H. unfold Shaders.samplingRate.
  apply Rle_min_compat_l.
  change (Shaders.totalPoints (Shaders.set_cameraZoom z1 u))
    with (Shaders.totalPoints u).
  change (Shaders.totalPoints (Shaders.set_cameraZoom z2 u))
    with (Shaders.totalPoints u).
  apply Rmult_le_compat_r; [left; apply Rinv_0_lt_compat, Htotal|].
  apply visiblePixels_monotone, H.
Qed.

Lemma samplingRate_saturates :
  Shaders.totalPoints u <= Shaders.visiblePixels u ->
  Shaders.samplingRate u = 1.
Proof.
  intros H. unfold Shaders.samplingRate. apply Rmin_left.
  apply (Rmult_le_reg_r (Shaders.totalPoints u)); [exact Htotal|].
  unfold Rdiv. rewrite Rmult_assoc, Rinv_l by lra. lra.
Qed.

End Sampling.

(** C3: with the screen, plane and image sizes fixed (screen and plane
    sizes non-negative, image sizes positive), the sampling rate
    [min(1, planeWidth * planeHeight * zoom^2 * screenWidth * screenHeight
    / 4 / (imageWidth * imageHeight))] is non-decreasing in the zoom from
    [minZoom] upwards, and it is exactly 1 whenever the visible-pixel
    estimate is at least the number of samples. *)
Theorem sampling_rate_monotone (u : Shaders.Uniforms) (z1 z2 : R) :
  0 <= Shaders.screenWidth u -> 0 <= Shaders.screenHeight u ->
  0 <= Shaders.planeWidth u -> 0 <= Shaders.planeHeight u ->
  0 < Shaders.imageWidth u -> 0 < Shaders.imageHeight u ->
  Main.minZoom Main.CONFIG <= z1 <= z2 ->
  let rate := fun zoom => Shaders.samplingRate (Shaders.set_cameraZoom zoom u) in
  rate z1 <= rate z2
  /\ rate z2 =
     Rmin 1 (Shaders.planeWidth u * Shaders.planeHeight u * z2 * z2
             * Shaders.screenWidth u * Shaders.screenHeight u / 4
             / (Shaders.imageWidth u * Shaders.imageHeight u))
  /\ (Shaders.totalPoints (Shaders.set_cameraZoom z2 u)
      <= Shaders.visiblePixels (Shaders.set_cameraZoom z2 u) ->
      rate z2 = 1).
Proof.
  intros Hsw Hsh Hpw Hph Hiw Hih Hz rate.
  assert (Htotal : 0 < Shaders.totalPoints u)
    by (apply Rmult_lt_0_compat; assumption).
  split; [|split].
  - apply samplingRate_monotone; try assumption.
    revert Hz. config. lra.
  - reflexivity.
  - intros Hv. apply samplingRate_saturates; assumption.
Qed.

(** A 4 by 2 image in a 1280 by 720 window, at zooms 1 and 2. *)
Lemma sampling_rate_monotone_witness :
  Shaders.samplingRate (Shaders.set_cameraZoom 1 (Main.uniformsAt 1))
  <= Shaders.samplingRate (Shaders.set_cameraZoom 2 (Main.uniformsAt 1)).
Proof.
  refine (proj1 (sampling_rate_monotone (Main.uniformsAt 1) 1 2 _ _ _ _ _ _ _));
    cbn; lra.
Defined.

(** ** The brightness boost *)

Section Boost.

Variable cfg : Main.Config.

Lemma boostFactor_below (zoom : R) :
  zoom <= Main.brightnessBoostStartZoom cfg -> Main.boostFactor cfg zoom = 0.
Proof.
  intros H. unfold Main.boostFactor. cbv zeta.
  apply gtb_false in H. now rewrite H.
Qed.

Lemma boostFactor_above (zoom : R) :
  Main.brightnessBoostStartZoom cfg < zoom ->
  Main.boostFactor cfg zoom =
  JS.min 1 ((zoom - Main.brightnessBoostStartZoom cfg)
            / (Main.maxZoomForSizeTransition cfg
               - Main.brightnessBoostStartZoom cfg)).
Proof.
  intros H. unfold Main.boostFactor. cbv zeta.
  apply gtb_true in H. now rewrite H.
Qed.

Lemma boostFactor_le_one (zoom : R) : Main.boostFactor cfg zoom <= 1.
Proof.
  unfold Main.boostFactor. cbv zeta. cmp_case; [apply Rmin_l | lra].
Qed.

(** With the start below the end, the factor ramps from 0 to 1. *)
Lemma boostFactor_ramp (zoom : R) :
  Main.brightnessBoostStartZoom cfg < Main.maxZoomForSizeTransition cfg ->
  (Main.brightnessBoostStartZoom cfg <= zoom
     <= Main.maxZoomForSizeTransition cfg ->
   Main.boostFactor cfg zoom =
   (zoom - Main.brightnessBoostStartZoom cfg)
   / (Main.maxZoomForSizeTransition cfg - Main.brightnessBoostStartZoom cfg))
  /\ (Main.maxZoomForSizeTransition cfg <= zoom ->
      Main.boostFactor cfg zoom = 1).
Proof.
  intros Hlt. split.
  - intros [Hlo Hhi].
    pose proof (ramp_le_one _ _ Hlt zoom Hhi).
    pose proof (ramp_nonneg _ _ Hlt zoom Hlo).
    pose proof (ramp_nonpos _ _ Hlt zoom).
    unfold Main.boostFactor. cbv zeta. cmp_case; minmax.
  - intros Hhi. pose proof (ramp_ge_one _ _ Hlt zoom Hhi).
    unfold Main.boostFactor. cbv zeta. cmp_case; minmax.
Qed.

End Boost.

(** The boost that the shipped [CONFIG] pushes: its start zoom 10 lies
    above its end zoom 5 and its strength is negative, so the uniform is
    [0.01 * (zoom - 10)] past zoom 10. *)
Lemma shipped_boost (zoom : R) :
  Main.brightnessBoostUniform Main.CONFIG zoom =
  if Num.gtb zoom 10 then 0.01 * (zoom - 10) else 0.
Proof.
  unfold Main.brightnessBoostUniform, Main.boostFactor. config.
  cmp_case; [|lra].
  replace ((zoom - 10) / (5 - 10)) with (- 0.2 * (zoom - 10)) by lra.
  minmax.
Qed.

(** The clamp to [0, 1] returns its argument when that lies in [0, 1]. *)
Lemma clamp_fixed (b : R) : 0 <= b <= 1 -> GLSL.clamp b 0 1 = b.
Proof. intros H. minmax. Qed.

Lemma pow_one (e : R) : GLSL.pow 1 e = 1.
Proof.
  unfold GLSL.pow. destruct (Rle_dec 1 0); [lra|].
  unfold Rpower. rewrite ln_1, Rmult_0_r. apply exp_0.
Qed.

(** C2, as the code has it: the boost factor of a frame is 0 at or below
    [brightnessBoostStartZoom] and [min(1, (zoom - start) / (end - start))]
    above it, with [end = maxZoomForSizeTransition]; it never exceeds 1,
    and when the start lies below the end it is the linear ramp from 0 at
    the start to 1 at the end, and 1 beyond.  The uniform pushed is
    [CONFIG.brightnessBoost] times that factor (0 when the boost is
    disabled).  The shader clamps the uniform to [0, 1] before use: the
    impact is [(1 - brightness)^brightnessSteepness] times the clamped
    uniform.  That impact equals the product with the uniform itself if and
    only if the uniform lies in [0, 1] or the factor
    [(1 - brightness)^brightnessSteepness] is 0 (both products are then 0).
    Each colour channel is mixed towards 1 with the impact and alpha is
    kept. *)
Theorem brightness_boost (cfg : Main.Config) (s : Main.State)
  (u0 : Shaders.Uniforms) (uv : vec2) :
  let zoom := Main.zoom (Main.camera s) in
  let start := Main.brightnessBoostStartZoom cfg in
  let stop := Main.maxZoomForSizeTransition cfg in
  let u := Main.pushUniforms cfg s u0 in
  let shade := GLSL.pow (1 - Shaders.brightness u uv)
                 (Shaders.brightnessSteepness u) in
  (zoom <= start -> Main.boostFactor cfg zoom = 0)
  /\ (start < zoom ->
      Main.boostFactor cfg zoom = JS.min 1 ((zoom - start) / (stop - start)))
  /\ Main.boostFactor cfg zoom <= 1
  /\ (start < stop -> start <= zoom <= stop ->
      Main.boostFactor cfg zoom = (zoom - start) / (stop - start))
  /\ (start < stop -> stop <= zoom -> Main.boostFactor cfg zoom = 1)
  /\ Shaders.brightnessBoost u =
     (if Main.brightnessBoostEnabled cfg
      then Main.brightnessBoost cfg * Main.boostFactor cfg zoom else 0)
  /\ Shaders.impact u uv = shade * GLSL.clamp (Shaders.brightnessBoost u) 0 1
  /\ (Shaders.impact u uv = shade * Shaders.brightnessBoost u <->
      0 <= Shaders.brightnessBoost u <= 1 \/ shade = 0)
  /\ GLSL.rgb (Shaders.vColor u uv) =
     GLSL.mix3 (GLSL.rgb (Shaders.map u uv)) (Vec3 1 1 1) (Shaders.impact u uv)
  /\ w4 (Shaders.vColor u uv) = w4 (Shaders.map u uv).
Proof.
  intros zoom start stop u shade.
  split; [apply boostFactor_below|].
  split; [apply boostFactor_above|].
  split; [apply boostFactor_le_one|].
  split; [intros Hlt; apply (boostFactor_ramp cfg zoom Hlt)|].
  split; [intros Hlt; apply (boostFactor_ramp cfg zoom Hlt)|].
  split; [reflexivity|].
  split; [reflexivity|].
  split; [|split; reflexivity].
  change (Shaders.impact u uv)
    with (shade * GLSL.clamp (Shaders.brightnessBoost u) 0 1).
  assert (Hc : 0 <= GLSL.clamp (Shaders.brightnessBoost u) 0 1 <= 1)
    by (split; minmax).
  split.
  - intros H.
    destruct (Req_dec shade 0) as [Hz | Hnz]; [right; exact Hz | left].
    apply Rmult_eq_reg_l in H; [|exact Hnz]. rewrite <- H. exact Hc.
  - intros [Hin | Hz].
    + f_equal. apply clamp_fixed, Hin.
    + rewrite Hz. ring.
Qed.

(** At camera zoom 60 the shipped configuration pushes the boost 0.5,
    inside [0, 1]: the impact of a black texel is the product 1 * 0.5. *)
Lemma brightness_boost_witness :
  let u := Main.pushUniforms Main.CONFIG (Main.loadedAt 60)
             (Main.initialUniforms Main.CONFIG (Main.loadedAt 60)
                Main.blackTexture 0.5) in
  Shaders.brightnessBoost u = 0.5
  /\ Shaders.impact u (Vec2 0.5 0.5) =
     GLSL.pow (1 - Shaders.brightness u (Vec2 0.5 0.5))
       (Shaders.brightnessSteepness u) * Shaders.brightnessBoost u.
Proof.
  intros u.
  assert (Hb : Shaders.brightnessBoost u = 0.5).
  { change (Shaders.brightnessBoost u)
      with (Main.brightnessBoostUniform Main.CONFIG 60).
    rewrite shipped_boost.
    assert (Hg : Num.gtb 60 10 = true) by (apply gtb_true; lra).
    rewrite Hg. lra. }
  split; [exact Hb|].
  apply (proj2 (proj1 (proj2 (proj2 (proj2 (proj2 (proj2 (proj2 (proj2
           (brightness_boost Main.CONFIG (Main.loadedAt 60)
              (Main.initialUniforms Main.CONFIG (Main.loadedAt 60)
                 Main.blackTexture 0.5) (Vec2 0.5 0.5))))))))))).
  left. fold u. rewrite Hb. lra.
Defined.

(** At camera zoom 200 the shipped configuration pushes the boost 1.9,
    from the factor -38; for a black texel the impact is 1: neither the
    product with the boost nor the product with the factor.  At its end
    zoom 5 the factor of the shipped configuration is 0. *)
Lemma boost_impact_is_clamped :
  let u := Main.uniformsAt 200 in
  let uv := Vec2 0.5 0.5 in
  let shade := GLSL.pow (1 - Shaders.brightness u uv)
                 (Shaders.brightnessSteepness u) in
  Main.boostFactor Main.CONFIG 200 = -38
  /\ Shaders.brightnessBoost u = 1.9
  /\ shade = 1
  /\ Shaders.impact u uv = 1
  /\ Shaders.impact u uv <> shade * Shaders.brightnessBoost u
  /\ Shaders.impact u uv <> shade * Main.boostFactor Main.CONFIG 200
  /\ Main.boostFactor Main.CONFIG
       (Main.maxZoomForSizeTransition Main.CONFIG) = 0.
Proof.
  intros u uv shade.
  assert (Hf : Main.boostFactor Main.CONFIG 200 = -38).
  { rewrite boostFactor_above by (config; lra). config.
    replace ((200 - 10) / (5 - 10)) with (-38) by lra. minmax. }
  assert (Hb : Shaders.brightnessBoost u = 1.9).
  { change (Shaders.brightnessBoost u)
      with (Main.brightnessBoostUniform Main.CONFIG 200).
    rewrite shipped_boost.
    assert (Hg : Num.gtb 200 10 = true) by (apply gtb_true; lra).
    rewrite Hg. lra. }
  assert (Hs : shade = 1).
  { unfold shade. replace (1 - Shaders.brightness u uv) with 1;
      [apply pow_one|].
    unfold Shaders.brightness, Shaders.sampledColor, GLSL.dot3, GLSL.rgb.
    cbn. unfold Main.blackTexture. cbn. lra. }
  assert (Hi : Shaders.impact u uv = 1).
  { unfold Shaders.impact, Shaders.brightenFactor, Shaders.darkness.
    fold shade. rewrite Hs, Hb. minmax. }
  rewrite Hi, Hs, Hb, Hf.
  assert (He : Main.boostFactor Main.CONFIG
                 (Main.maxZoomForSizeTransition Main.CONFIG) = 0)
    by (apply boostFactor_below; config; lra).
  rewrite He. repeat split; lra.
Qed.

(** ** The per-point hash *)

Lemma random_seed (u1 u2 : Shaders.Uniforms) (st : vec2) :
  Shaders.seed u1 = Shaders.seed u2 -> Shaders.random u1 st = Shaders.random u2 st.
Proof. intros H. unfold Shaders.random. now rewrite H. Qed.

(** Neither uniform push writes the seed or the texture. *)
Lemma pushUniforms_seed (cfg : Main.Config) (s : Main.State)
  (u : Shaders.Uniforms) :
  Shaders.seed (Main.pushUniforms cfg s u) = Shaders.seed u
  /\ Shaders.seed (Main.pushUniforms_x1 cfg s u) = Shaders.seed u.
Proof. split; reflexivity. Qed.

(** C8: the hash reads its argument and the seed uniform only.  Under two
    sets of uniforms with the same seed (two frames, whatever their time,
    zoom or screen size) the point id of a sample, its two displacement
    directions and its jitter phase are the same, and so is the decision
    to discard it when the sampling rates agree.  A frame of main.js never
    writes the seed: the uniforms it pushes give every hash value of the
    frame before, and two consecutive pushes at the same camera zoom and
    window size discard the same samples. *)
Theorem hash_is_deterministic (u1 u2 : Shaders.Uniforms)
  (a : Shaders.Attributes) :
  Shaders.seed u1 = Shaders.seed u2 ->
  Shaders.pointId u1 (Shaders.uv a) = Shaders.pointId u2 (Shaders.uv a)
  /\ Shaders.randX u1 (Shaders.position a) = Shaders.randX u2 (Shaders.position a)
  /\ Shaders.randY u1 (Shaders.position a) = Shaders.randY u2 (Shaders.position a)
  /\ Shaders.pointSpecificPhaseOffset u1 (Shaders.position a)
     = Shaders.pointSpecificPhaseOffset u2 (Shaders.position a)
  /\ (Shaders.samplingRate u1 = Shaders.samplingRate u2 ->
      Shaders.culled u1 (Shaders.uv a) = Shaders.culled u2 (Shaders.uv a))
  /\ (forall cfg i s,
        Main.densePointsMesh s = Some u1 ->
        exists u', Main.densePointsMesh (Main.animate cfg i s) = Some u'
                   /\ Shaders.seed u' = Shaders.seed u1
                   /\ forall st, Shaders.random u' st = Shaders.random u1 st)
  /\ (forall cfg s s',
        Main.zoom (Main.camera s) = Main.zoom (Main.camera s') ->
        Main.window s = Main.window s' ->
        Shaders.culled (Main.pushUniforms cfg s' (Main.pushUniforms cfg s u1))
          (Shaders.uv a)
        = Shaders.culled (Main.pushUniforms cfg s u1) (Shaders.uv a)).
Proof.
  intros Hseed.
  split; [apply random_seed, Hseed|].
  split; [unfold Shaders.randX; now rewrite (random_seed u1 u2)|].
  split; [unfold Shaders.randY; now rewrite (random_seed u1 u2)|].
  split; [unfold Shaders.pointSpecificPhaseOffset;
          now rewrite (random_seed u1 u2)|].
  split.
  { intros Hrate. unfold Shaders.culled, Shaders.pointId.
    now rewrite Hrate, (random_seed u1 u2). }
  split.
  - intros cfg i s Hu.
    destruct (animate_densePoints cfg i s u1 Hu) as (s' & _ & Hd).
    exists (Main.pushUniforms cfg s' u1).
    split; [exact Hd|]. split; [reflexivity|].
    intros st. apply random_seed. reflexivity.
  - intros cfg s s' Hz Hw.
    unfold Shaders.culled, Shaders.pointId, Shaders.samplingRate,
      Shaders.visiblePixels, Shaders.totalPoints, Shaders.random.
    cbn. now rewrite Hz, Hw.
Qed.

(** The uniforms pushed at zoom 1 and at zoom 50 carry the same seed. *)
Lemma hash_is_deterministic_witness :
  let a := Main.sample Main.CONFIG 4 4 2 0 0 in
  Shaders.pointId (Main.uniformsAt 1) (Shaders.uv a)
  = Shaders.pointId (Main.uniformsAt 50) (Shaders.uv a).
Proof.
  intros a.
  exact (proj1 (hash_is_deterministic (Main.uniformsAt 1) (Main.uniformsAt 50)
                  a eq_refl)).
Defined.

(** ** Auto-zoom *)

Section AutoZoom.

Variable cfg : Main.Config.
Variable i : Main.FrameInputs.
Variable s : Main.State.
Hypothesis Henabled : Main.autoZoomEnabled cfg = true.
Hypothesis Hidle : Main.isDragging s = false.

(** What an active call of [updateAutoZoom] leaves in the three variables
    the statement is about. *)
Lemma updateAutoZoom_active :
  Main.autoZoomDirection (Main.updateAutoZoom cfg i s)
    = Main.smoothedDirection cfg i s
  /\ Main.targetAutoZoomDirection (Main.updateAutoZoom cfg i s)
     = (if Main.hitLimit cfg i s
        then - Main.occasionalFlip cfg i s else Main.occasionalFlip cfg i s)
  /\ Main.targetZoom (Main.updateAutoZoom cfg i s)
     = JS.max (Main.autoZoomMinLevel cfg)
         (JS.min (Main.autoZoomMaxLevel cfg)
            (Main.targetZoom s
             + Main.autoZoomVelocity (Main.updateAutoZoom cfg i s))).
Proof.
  unfold Main.updateAutoZoom, Main.hitLimit, Main.smoothedDirection,
    Main.occasionalFlip.
  rewrite Henabled, Hidle. cbn [negb orb]. cbv zeta.
  destruct (Num.ltb (Main.randomZoom i) (Main.autoZoomChangeRate cfg)); cbn;
    match goal with |- context [if ?c then _ else _] => destruct c end;
    cbn; auto.
Qed.

(** The guard of the forced reversal, in terms of the camera zoom and of
    the direction the call has just smoothed. *)
Lemma hitLimit_spec :
  Main.hitLimit cfg i s = true <->
  (Main.autoZoomMaxLevel cfg <= Main.zoom (Main.camera s)
   /\ 0 < Main.smoothedDirection cfg i s)
  \/ (Main.zoom (Main.camera s) <= Main.autoZoomMinLevel cfg
      /\ Main.smoothedDirection cfg i s < 0).
Proof.
  unfold Main.hitLimit.
  rewrite orb_true_iff, !andb_true_iff, geb_true, gtb_true, leb_true, ltb_true.
  reflexivity.
Qed.

End AutoZoom.

(** C9, as the code has it: a call of [updateAutoZoom] with auto-zoom
    enabled and no drag in progress leaves [targetZoom] within
    [autoZoomMinLevel, autoZoomMaxLevel] (the bounds being in order).  The
    call first applies the occasional random change, which negates the
    target direction when [Math.random()] is below [autoZoomChangeRate],
    then smooths the direction towards it; when the camera zoom is at or
    above the maximum with the smoothed direction positive, or at or below
    the minimum with it negative, the call negates the target direction it
    holds at that point, and otherwise leaves it.  So at a limit the call
    ends with the negation of the target direction it was entered with
    when the occasional change did not fire in that call, and with the
    very direction it was entered with when it did fire; away from a limit
    it is the other way round. *)
Theorem auto_zoom_bounds_and_reversal (cfg : Main.Config)
  (i : Main.FrameInputs) (s : Main.State) :
  Main.autoZoomEnabled cfg = true ->
  Main.isDragging s = false ->
  Main.autoZoomMinLevel cfg <= Main.autoZoomMaxLevel cfg ->
  let s' := Main.updateAutoZoom cfg i s in
  let zoom := Main.zoom (Main.camera s) in
  let atLimit :=
    (Main.autoZoomMaxLevel cfg <= zoom /\ 0 < Main.autoZoomDirection s')
    \/ (zoom <= Main.autoZoomMinLevel cfg /\ Main.autoZoomDirection s' < 0) in
  Main.autoZoomMinLevel cfg <= Main.targetZoom s' <= Main.autoZoomMaxLevel cfg
  /\ Main.autoZoomDirection s' =
     Main.autoZoomDirection s
     + (Main.occasionalFlip cfg i s - Main.autoZoomDirection s) * 0.1
  /\ (atLimit ->
      Main.targetAutoZoomDirection s' = - Main.occasionalFlip cfg i s)
  /\ (~ atLimit ->
      Main.targetAutoZoomDirection s' = Main.occasionalFlip cfg i s)
  /\ (Main.autoZoomChangeRate cfg <= Main.randomZoom i ->
      Main.occasionalFlip cfg i s = Main.targetAutoZoomDirection s)
  /\ (Main.randomZoom i < Main.autoZoomChangeRate cfg ->
      Main.occasionalFlip cfg i s = - Main.targetAutoZoomDirection s)
  /\ (atLimit -> Main.autoZoomChangeRate cfg <= Main.randomZoom i ->
      Main.targetAutoZoomDirection s' = - Main.targetAutoZoomDirection s)
  /\ (atLimit -> Main.randomZoom i < Main.autoZoomChangeRate cfg ->
      Main.targetAutoZoomDirection s' = Main.targetAutoZoomDirection s)
  /\ (~ atLimit -> Main.autoZoomChangeRate cfg <= Main.randomZoom i ->
      Main.targetAutoZoomDirection s' = Main.targetAutoZoomDirection s)
  /\ (~ atLimit -> Main.randomZoom i < Main.autoZoomChangeRate cfg ->
      Main.targetAutoZoomDirection s' = - Main.targetAutoZoomDirection s).
Proof.
  intros Hen Hidle Hord s' zoom atLimit.
  destruct (updateAutoZoom_active cfg i s Hen Hidle) as (Hd & Ht & Hz).
  fold s' in Hd, Ht, Hz.
  pose proof (hitLimit_spec cfg i s) as Hl. rewrite <- Hd in Hl.
  fold zoom in Hl. fold atLimit in Hl.
  split.
  { rewrite Hz. minmax. }
  split; [exact Hd|].
  assert (Hat : atLimit ->
                Main.targetAutoZoomDirection s' = - Main.occasionalFlip cfg i s).
  { intros Ha. apply Hl in Ha. now rewrite Ht, Ha. }
  assert (Hoff : ~ atLimit ->
                 Main.targetAutoZoomDirection s' = Main.occasionalFlip cfg i s).
  { intros Hn. rewrite Ht.
    destruct (Main.hitLimit cfg i s); [|reflexivity].
    exfalso. apply Hn, Hl. reflexivity. }
  assert (Hquiet : Main.autoZoomChangeRate cfg <= Main.randomZoom i ->
                   Main.occasionalFlip cfg i s = Main.targetAutoZoomDirection s).
  { intros H. unfold Main.occasionalFlip. apply ltb_false in H. now rewrite H. }
  assert (Hfired : Main.randomZoom i < Main.autoZoomChangeRate cfg ->
                   Main.occasionalFlip cfg i s
                   = - Main.targetAutoZoomDirection s).
  { intros H. unfold Main.occasionalFlip. apply ltb_true in H. now rewrite H. }
  split; [exact Hat|]. split; [exact Hoff|].
  split; [exact Hquiet|]. split; [exact Hfired|].
  split; [|split; [|split]].
  - intros Ha Hr. now rewrite (Hat Ha), (Hquiet Hr).
  - intros Ha Hr. rewrite (Hat Ha), (Hfired Hr). ring.
  - intros Hn Hr. now rewrite (Hoff Hn), (Hquiet Hr).
  - intros Hn Hr. now rewrite (Hoff Hn), (Hfired Hr).
Qed.

(** At the upper limit 80 with the direction pointing up and no
    occasional change: the target direction becomes -1. *)
Lemma auto_zoom_bounds_and_reversal_witness :
  Main.targetAutoZoomDirection
    (Main.updateAutoZoom Main.CONFIG Main.quietFrame (Main.loadedAt 80)) = -1.
Proof.
  assert (Hord : Main.autoZoomMinLevel Main.CONFIG
                 <= Main.autoZoomMaxLevel Main.CONFIG) by (config; lra).
  destruct (auto_zoom_bounds_and_reversal Main.CONFIG Main.quietFrame
              (Main.loadedAt 80) eq_refl eq_refl Hord)
    as (_ & Hd & Hflip & _ & Hquiet & _).
  assert (Hq : Main.occasionalFlip Main.CONFIG Main.quietFrame (Main.loadedAt 80)
               = 1).
  { rewrite Hquiet by (cbn; lra). cbn.
    assert (Hg : Num.gtb 0.75 0.5 = true) by (apply gtb_true; lra).
    now rewrite Hg. }
  rewrite Hq in Hd, Hflip. rewrite Hflip; [reflexivity|].
  left. split; [cbn; lra|]. rewrite Hd. cbn.
  assert (Hg : Num.gtb 0.75 0.5 = true) by (apply gtb_true; lra).
  rewrite Hg. lra.
Defined.

(** At the upper limit 80 with both the target direction and the smoothed
    direction pointing up, a call in which the occasional change fires
    ([Math.random()] returns 0.0005) ends with the target direction it was
    entered with: the occasional change makes it -1, the smoothed direction
    is 0.8, still positive, and the reversal at the limit makes it 1
    again. *)
Lemma limit_reversal_cancelled_by_occasional_change :
  let s := Main.loadedAt 80 in
  let s' := Main.updateAutoZoom Main.CONFIG Main.flipFrame s in
  Main.autoZoomEnabled Main.CONFIG = true
  /\ Main.isDragging s = false
  /\ Main.autoZoomMaxLevel Main.CONFIG <= Main.zoom (Main.camera s)
  /\ Main.autoZoomDirection s = 1
  /\ Main.autoZoomDirection s' = 0.8
  /\ Main.targetAutoZoomDirection s = 1
  /\ Main.targetAutoZoomDirection s' = 1
  /\ Main.targetAutoZoomDirection s' <> - Main.targetAutoZoomDirection s.
Proof.
  intros s s'.
  assert (Hg : Num.gtb 0.75 0.5 = true) by (apply gtb_true; lra).
  assert (Hr : Num.ltb 0.0005 0.001 = true) by (apply ltb_true; lra).
  assert (Ht0 : Main.targetAutoZoomDirection s = 1).
  { cbn. now rewrite Hg. }
  assert (Hd0 : Main.autoZoomDirection s = 1).
  { cbn. now rewrite Hg. }
  assert (Hflip : Main.occasionalFlip Main.CONFIG Main.flipFrame s = -1).
  { unfold Main.occasionalFlip. rewrite Ht0.
    change (Main.randomZoom Main.flipFrame) with 0.0005.
    change (Main.autoZoomChangeRate Main.CONFIG) with 0.001.
    now rewrite Hr. }
  assert (Hsm : Main.smoothedDirection Main.CONFIG Main.flipFrame s = 0.8).
  { unfold Main.smoothedDirection. rewrite Hflip, Hd0. lra. }
  assert (Hz : Main.autoZoomMaxLevel Main.CONFIG <= Main.zoom (Main.camera s))
    by (cbn; lra).
  assert (Hlim : Main.hitLimit Main.CONFIG Main.flipFrame s = true).
  { apply hitLimit_spec. left. split; [exact Hz | rewrite Hsm; lra]. }
  destruct (updateAutoZoom_active Main.CONFIG Main.flipFrame s eq_refl eq_refl)
    as (Hd & Ht & _).
  fold s' in Hd, Ht. rewrite Hlim, Hflip in Ht. rewrite Hsm in Hd.
  assert (Ht1 : Main.targetAutoZoomDirection s' = 1) by (rewrite Ht; lra).
  split; [reflexivity|]. split; [reflexivity|]. split; [exact Hz|].
  split; [exact Hd0|]. split; [exact Hd|]. split; [exact Ht0|].
  split; [exact Ht1|]. rewrite Ht1, Ht0. lra.
Qed.

(** ** Displacement stays in the plane *)

(** Every sample the load callback creates lies on the plane [z = 0]. *)
Lemma pointsGeometry_on_plane (cfg : Main.Config) (width height : nat)
  (a : Shaders.Attributes) :
  In a (Main.pointsGeometry cfg width height) -> z3 (Shaders.position a) = 0.
Proof.
  unfold Main.pointsGeometry. cbv zeta. intros H.
  apply in_flat_map in H. destruct H as (iy & _ & H).
  apply in_map_iff in H. destruct H as (ix & <- & _). reflexivity.
Qed.

(** The displacement adds nothing to the third component. *)
Lemma displacedPosition_z (u : Shaders.Uniforms) (p : vec3) :
  z3 (Shaders.displacedPosition u p) = z3 p.
Proof. unfold Shaders.displacedPosition, GLSL.add3. cbn [z3]. ring. Qed.

(** C10: the displaced position of a vertex differs from its position by
    the jitter in x and in y only; its z is the z of the position.  For
    every sample of the points geometry, under every assignment of the
    uniforms, that z is 0, and a sample that is not discarded is projected
    from a point of the plane [z = 0]. *)
Theorem displacement_keeps_plane (cfg : Main.Config) (m : Shaders.Builtins)
  (u : Shaders.Uniforms) (width height : nat) :
  (forall p,
     Shaders.displacedPosition u p =
     Vec3 (x3 p + Shaders.randX u p * Shaders.finalScaledDisplacement u p)
          (y3 p + Shaders.randY u p * Shaders.finalScaledDisplacement u p)
          (z3 p))
  /\ (forall a,
        In a (Main.pointsGeometry cfg width height) ->
        z3 (Shaders.position a) = 0
        /\ z3 (Shaders.displacedPosition u (Shaders.position a)) = 0
        /\ (Shaders.culled u (Shaders.uv a) = false ->
            Shaders.out_gl_Position (Shaders.main m u a) =
            Shaders.projectionMatrix m
              (Shaders.modelViewMatrix m
                 (Vec4 (x3 (Shaders.displacedPosition u (Shaders.position a)))
                       (y3 (Shaders.displacedPosition u (Shaders.position a)))
                       0 1)))).
Proof.
  split.
  - intros p. unfold Shaders.displacedPosition, GLSL.add3. cbn [x3 y3 z3].
    f_equal. ring.
  - intros a Ha. pose proof (pointsGeometry_on_plane cfg width height a Ha) as Hz.
    split; [exact Hz|].
    assert (Hd : z3 (Shaders.displacedPosition u (Shaders.position a)) = 0)
      by (rewrite displacedPosition_z; exact Hz).
    split; [exact Hd|].
    intros Hc. unfold Shaders.main. rewrite Hc. cbv zeta.
    cbn [Shaders.out_gl_Position]. now rewrite Hd.
Qed.

(** The first sample of a 4 by 2 image, at zoom 50. *)
Lemma displacement_keeps_plane_witness :
  let a := Main.sample Main.CONFIG (Main.planeHeight Main.CONFIG * (INR 4 / INR 2))
             4 2 0 0 in
  z3 (Shaders.displacedPosition (Main.uniformsAt 50) (Shaders.position a)) = 0.
Proof.
  intros a.
  refine (proj1 (proj2 (proj2 (displacement_keeps_plane Main.CONFIG
            (Shaders.mkBuiltins (fun v => v) (fun v => v))
            (Main.uniformsAt 50) 4 2) a _))).
  unfold Main.pointsGeometry. cbn. left. reflexivity.
Defined.

(** * Further properties of the code *)

(** ** The points geometry *)

Lemma flat_map_length_const {A B : Type} (f : A -> list B) (n : nat)
  (l : list A) :
  (forall x, length (f x) = n) -> length (flat_map f l) = (length l * n)%nat.
Proof.
  intros H. induction l as [|x l IH]; cbn; [reflexivity|].
  now rewrite length_app, H, IH.
Qed.

(** A texel-centre coordinate lies strictly inside the unit interval. *)
Lemma texel_centre_inside (i n : nat) :
  (i < n)%nat -> 0 < (INR i + 0.5) / INR n < 1.
Proof.
  intros H.
  assert (Hi : 0 <= INR i) by apply pos_INR.
  assert (Hn : INR i + 1 <= INR n) by (rewrite <- S_INR; apply le_INR; lia).
  assert (Hpos : 0 < / INR n) by (apply Rinv_0_lt_compat; lra).
  split.
  - apply Rmult_lt_0_compat; lra.
  - apply (Rmult_lt_reg_r (INR n)); [lra|].
    unfold Rdiv. rewrite Rmult_assoc, Rinv_l by lra. lra.
Qed.

(** X1: the load callback creates exactly one sample per texel, in
    [width * height] samples.  Every sample is the one of some texel
    [(ix, iy)] of the image, its UV lies strictly inside the unit square,
    and its position is that UV recentred and scaled to the plane, at
    [z = 0]; and every texel of the image has its sample. *)
Theorem points_geometry_covers_image (cfg : Main.Config)
  (width height : nat) :
  let planeWidth := Main.planeHeight cfg * (INR width / INR height) in
  length (Main.pointsGeometry cfg width height) = (height * width)%nat
  /\ (forall a,
        In a (Main.pointsGeometry cfg width height) ->
        exists ix iy,
          (ix < width)%nat /\ (iy < height)%nat
          /\ a = Main.sample cfg planeWidth width height ix iy
          /\ 0 < x2 (Shaders.uv a) < 1
          /\ 0 < y2 (Shaders.uv a) < 1
          /\ Shaders.position a =
             Vec3 ((x2 (Shaders.uv a) - 0.5) * planeWidth)
                  ((y2 (Shaders.uv a) - 0.5) * Main.planeHeight cfg)
                  0)
  /\ (forall ix iy,
        (ix < width)%nat -> (iy < height)%nat ->
        In (Main.sample cfg planeWidth width height ix iy)
           (Main.pointsGeometry cfg width height)).
Proof.
  intros planeWidth. unfold Main.pointsGeometry. cbv zeta. fold planeWidth.
  split; [|split].
  - rewrite (flat_map_length_const _ width).
    + now rewrite length_seq.
    + intros iy. now rewrite length_map, length_seq.
  - intros a Ha. apply in_flat_map in Ha. destruct Ha as (iy & Hiy & Ha).
    apply in_map_iff in Ha. destruct Ha as (ix & <- & Hix).
    apply in_seq in Hiy. apply in_seq in Hix.
    exists ix, iy. split; [lia|]. split; [lia|]. split; [reflexivity|].
    cbn. split; [apply texel_centre_inside; lia|].
    split; [apply texel_centre_inside; lia | reflexivity].
  - intros ix iy Hix Hiy. apply in_flat_map. exists iy.
    split; [apply in_seq; lia|].
    apply in_map_iff. exists ix. split; [reflexivity | apply in_seq; lia].
Qed.

(** ** The blend of [updateZoom] *)

Section Blend.

Variable cfg : Main.Config.

Lemma updateZoom_targetPosition (s : Main.State) :
  Main.targetPosition (Main.updateZoom cfg s) = Main.targetPosition s.
Proof.
  unfold Main.updateZoom.
  destruct (Num.gtb (JS.abs (Main.zoomVelocity s)) 0.0001); cbn; [|reflexivity].
  destruct (Num.ltb (Main.targetZoom s + Main.zoomVelocity s) (Main.minZoom cfg));
    reflexivity.
Qed.

Lemma updateZoom_position (s : Main.State) :
  Main.position (Main.camera (Main.updateZoom cfg s)) =
  let p := Main.position (Main.camera s) in
  Vec3 (x3 p + (x2 (Main.targetPosition s) - x3 p) * 0.2)
       (y3 p + (y2 (Main.targetPosition s) - y3 p) * 0.2)
       (z3 p).
Proof.
  unfold Main.updateZoom.
  destruct (Num.gtb (JS.abs (Main.zoomVelocity s)) 0.0001); cbn; [|reflexivity].
  destruct (Num.ltb (Main.targetZoom s + Main.zoomVelocity s) (Main.minZoom cfg));
    reflexivity.
Qed.

Lemma ticks_targetPosition (n : nat) (s : Main.State) :
  Main.targetPosition (Main.ticks cfg n s) = Main.targetPosition s.
Proof.
  induction n as [|n IH]; cbn [Main.ticks]; [reflexivity|].
  now rewrite updateZoom_targetPosition.
Qed.

End Blend.

(** X2: [updateZoom] moves the camera a fifth of the way to
    [targetPosition] and never writes [targetPosition]: after [n] ticks
    with no other input the offset of the camera from the target is the
    initial offset times [0.8^n] in x and in y, and z is untouched. *)
Theorem position_converges_geometrically (cfg : Main.Config) (s : Main.State)
  (n : nat) :
  let p := Main.position (Main.camera (Main.ticks cfg n s)) in
  let p0 := Main.position (Main.camera s) in
  let t := Main.targetPosition s in
  Main.targetPosition (Main.ticks cfg n s) = t
  /\ x3 p - x2 t = 0.8 ^ n * (x3 p0 - x2 t)
  /\ y3 p - y2 t = 0.8 ^ n * (y3 p0 - y2 t)
  /\ z3 p = z3 p0.
Proof.
  cbv zeta. split; [apply ticks_targetPosition|].
  induction n as [|n (Hx & Hy & Hz)]; cbn [Main.ticks].
  - cbn [pow]. repeat split; lra.
  - rewrite updateZoom_position, ticks_targetPosition. cbv zeta.
    cbn [x3 y3 z3 pow]. repeat split; lra.
Qed.

(** X3: one tick never overshoots.  From a zoom at or above [minZoom], the
    zoom after [updateZoom] lies between the zoom before and the target
    the tick has just computed; and when that target is itself at or above
    [minZoom] the tick closes exactly a fifth of the gap. *)
Theorem zoom_blend_no_overshoot (cfg : Main.Config) (s : Main.State) :
  Main.minZoom cfg <= Main.zoom (Main.camera s) ->
  let z := Main.zoom (Main.camera s) in
  let z' := Main.zoom (Main.camera (Main.updateZoom cfg s)) in
  let t' := Main.targetZoom (Main.updateZoom cfg s) in
  Rmin z t' <= z' <= Rmax z t'
  /\ (Main.minZoom cfg <= t' -> z' - t' = 0.8 * (z - t')).
Proof.
  intros H z z' t'. subst z z' t'. rewrite updateZoom_zoom.
  split; [split|intros Ht]; minmax.
Qed.

Lemma zoom_blend_no_overshoot_witness :
  let s := Main.impulseState in
  Rmin (Main.zoom (Main.camera s)) (Main.targetZoom (Main.updateZoom Main.CONFIG s))
  <= Main.zoom (Main.camera (Main.updateZoom Main.CONFIG s)).
Proof.
  intros s.
  refine (proj1 (proj1 (zoom_blend_no_overshoot Main.CONFIG s _))).
  cbn. lra.
Defined.

(** ** Momentum comes to rest *)

(** A quantity multiplied by a damping factor below 1 at every step falls
    below any positive threshold. *)
Lemma damped_below (d v eps : R) :
  0 <= d < 1 -> 0 < eps ->
  exists N, forall n, (N <= n)%nat -> Rabs (v * d ^ n) < eps.
Proof.
  intros Hd Heps.
  assert (Hv : 0 <= Rabs v) by apply Rabs_pos.
  assert (Hy : 0 < eps / (Rabs v + 1)).
  { apply Rmult_lt_0_compat; [lra | apply Rinv_0_lt_compat; lra]. }
  destruct (pow_lt_1_zero d) with (y := eps / (Rabs v + 1)) as [N HN];
    [rewrite Rabs_pos_eq; lra | exact Hy |].
  exists N. intros n Hn. specialize (HN n Hn).
  rewrite Rabs_mult.
  assert (Hp : 0 <= Rabs (d ^ n)) by apply Rabs_pos.
  assert (Hm : Rabs v * Rabs (d ^ n) <= Rabs v * (eps / (Rabs v + 1)))
    by (apply Rmult_le_compat_l; lra).
  assert (He : (Rabs v + 1) * (eps / (Rabs v + 1)) = eps) by (field; lra).
  nra.
Qed.

Section ZoomMomentum.

Variable cfg : Main.Config.
Variable s : Main.State.
Hypothesis Hdamp : 0 <= Main.zoomDamping cfg < 1.

(** The velocity after [k] ticks is the damped initial velocity, unless a
    tick has already zeroed it. *)
Lemma zoomVelocity_shape (k : nat) :
  Main.zoomVelocity (Main.ticks cfg k s) = 0
  \/ Main.zoomVelocity (Main.ticks cfg k s)
     = Main.zoomVelocity s * Main.zoomDamping cfg ^ k.
Proof.
  induction k as [|k IH]; cbn [Main.ticks pow].
  - right. lra.
  - rewrite updateZoom_zoomVelocity.
    destruct (Num.gtb _ 0.0001); [|now left].
    destruct (Num.ltb _ (Main.minZoom cfg)); [now left|].
    destruct IH as [-> | ->]; [left | right]; lra.
Qed.

Lemma zoomVelocity_rest :
  exists N, forall n, (N <= n)%nat ->
    Main.zoomVelocity (Main.ticks cfg n s) = 0.
Proof.
  destruct (damped_below (Main.zoomDamping cfg) (Main.zoomVelocity s) 0.0001
              Hdamp ltac:(lra)) as [N HN].
  exists (S N). intros [|n] Hn; [lia|].
  cbn [Main.ticks].
  apply (updateZoom_rest cfg (Main.ticks cfg n s)).
  unfold JS.abs.
  destruct (zoomVelocity_shape n) as [-> | ->].
  - rewrite Rabs_R0. lra.
  - left. apply HN. lia.
Qed.

End ZoomMomentum.

(** X4: zoom momentum dies out.  With a damping factor in [0, 1) and no
    further input, from any state there is a tick from which on
    [zoomVelocity] is zero and [targetZoom] no longer changes. *)
Theorem zoom_momentum_comes_to_rest (cfg : Main.Config) (s : Main.State) :
  0 <= Main.zoomDamping cfg < 1 ->
  exists N, forall n, (N <= n)%nat ->
    Main.zoomVelocity (Main.ticks cfg n s) = 0
    /\ Main.targetZoom (Main.ticks cfg n s)
       = Main.targetZoom (Main.ticks cfg N s).
Proof.
  intros Hd. destruct (zoomVelocity_rest cfg s Hd) as [N HN].
  exists N. intros n Hn. split; [apply HN, Hn|].
  induction n as [|n IH].
  - replace N with 0%nat by lia. reflexivity.
  - destruct (Nat.eq_dec N (S n)) as [-> | Hne]; [reflexivity|].
    rewrite <- IH by lia. cbn [Main.ticks].
    apply (updateZoom_rest cfg (Main.ticks cfg n s)).
    rewrite HN by lia. unfold JS.abs. rewrite Rabs_R0. lra.
Qed.

Lemma zoom_momentum_comes_to_rest_witness :
  exists N, forall n, (N <= n)%nat ->
    Main.zoomVelocity (Main.ticks Main.CONFIG n Main.impulseState) = 0
    /\ Main.targetZoom (Main.ticks Main.CONFIG n Main.impulseState)
       = Main.targetZoom (Main.ticks Main.CONFIG N Main.impulseState).
Proof.
  apply (zoom_momentum_comes_to_rest Main.CONFIG Main.impulseState).
  config. lra.
Defined.

(** X5: once the momentum is at rest the zoom converges geometrically.
    From a state whose velocity is at or below the threshold and whose
    zoom and target zoom are at or above [minZoom], [n] ticks leave the
    target where it is and shrink the gap between zoom and target to
    [0.8^n] times the initial gap. *)
Theorem zoom_converges_geometrically (cfg : Main.Config) (s : Main.State)
  (n : nat) :
  JS.abs (Main.zoomVelocity s) <= 0.0001 ->
  Main.minZoom cfg <= Main.zoom (Main.camera s) ->
  Main.minZoom cfg <= Main.targetZoom s ->
  Main.targetZoom (Main.ticks cfg n s) = Main.targetZoom s
  /\ Main.zoomAfter cfg s n - Main.targetZoom s
     = 0.8 ^ n * (Main.zoom (Main.camera s) - Main.targetZoom s).
Proof.
  intros Hv Hz Ht. unfold Main.zoomAfter.
  assert (H : Main.targetZoom (Main.ticks cfg n s) = Main.targetZoom s
              /\ Main.zoom (Main.camera (Main.ticks cfg n s)) - Main.targetZoom s
                 = 0.8 ^ n * (Main.zoom (Main.camera s) - Main.targetZoom s)
              /\ JS.abs (Main.zoomVelocity (Main.ticks cfg n s)) <= 0.0001
              /\ Main.minZoom cfg <= Main.zoom (Main.camera (Main.ticks cfg n s))).
  { induction n as [|n (IHt & IHz & IHv & IHm)]; cbn [Main.ticks pow].
    - repeat split; try assumption; lra.
    - destruct (updateZoom_rest cfg (Main.ticks cfg n s) IHv) as (Et & Ev & Ez).
      rewrite Et, Ev, Ez, IHt.
      split; [reflexivity|]. split; [minmax|].
      split; [unfold JS.abs; rewrite Rabs_R0; lra | apply Rmax_l]. }
  split; apply H.
Qed.

Lemma zoom_converges_geometrically_witness :
  Main.zoomAfter Main.CONFIG (Main.loadedAt 8) 3 - 1 = 0.8 ^ 3 * (8 - 1).
Proof.
  refine (proj2 (zoom_converges_geometrically Main.CONFIG (Main.loadedAt 8) 3
                   _ _ _)).
  - cbn. unfold JS.abs. rewrite Rabs_R0. lra.
  - cbn. lra.
  - cbn. lra.
Defined.

Section PanMomentum.

Variable cfg : Main.Config.

Lemma updatePan_isDragging (s : Main.State) :
  Main.isDragging (Main.updatePan cfg s) = Main.isDragging s.
Proof.
  unfold Main.updatePan.
  destruct (negb (Main.isDragging s) && _); [reflexivity|].
  destruct (negb (Main.isDragging s)); reflexivity.
Qed.

(** With no drag in progress and both components at or below the
    threshold, [updatePan] zeroes the velocity and moves nothing. *)
Lemma updatePan_rest (s : Main.State) :
  Main.isDragging s = false ->
  JS.abs (x2 (Main.panVelocity s)) <= 0.00001 ->
  JS.abs (y2 (Main.panVelocity s)) <= 0.00001 ->
  Main.panVelocity (Main.updatePan cfg s) = Vec2 0 0
  /\ Main.targetPosition (Main.updatePan cfg s) = Main.targetPosition s.
Proof.
  intros Hd Hx Hy. apply gtb_false in Hx. apply gtb_false in Hy.
  unfold Main.updatePan. rewrite Hd, Hx, Hy. cbn. auto.
Qed.

(** With no drag in progress, [updatePan] either zeroes the velocity or
    damps both components. *)
Lemma updatePan_step (s : Main.State) :
  Main.isDragging s = false ->
  Main.panVelocity (Main.updatePan cfg s) = Vec2 0 0
  \/ Main.panVelocity (Main.updatePan cfg s)
     = Vec2 (x2 (Main.panVelocity s) * Main.panDamping cfg)
            (y2 (Main.panVelocity s) * Main.panDamping cfg).
Proof.
  intros Hd. unfold Main.updatePan. rewrite Hd. cbn [negb andb].
  destruct (_ || _); [right | left]; reflexivity.
Qed.

Variable s : Main.State.
Hypothesis Hidle : Main.isDragging s = false.
Hypothesis Hdamp : 0 <= Main.panDamping cfg < 1.

Lemma panTicks_isDragging (k : nat) :
  Main.isDragging (Main.panTicks cfg k s) = false.
Proof.
  induction k as [|k IH]; cbn [Main.panTicks]; [exact Hidle|].
  now rewrite updatePan_isDragging.
Qed.

Lemma panVelocity_shape (k : nat) :
  Main.panVelocity (Main.panTicks cfg k s) = Vec2 0 0
  \/ Main.panVelocity (Main.panTicks cfg k s)
     = Vec2 (x2 (Main.panVelocity s) * Main.panDamping cfg ^ k)
            (y2 (Main.panVelocity s) * Main.panDamping cfg ^ k).
Proof.
  induction k as [|k IH]; cbn [Main.panTicks pow].
  - right. destruct (Main.panVelocity s). cbn. f_equal; lra.
  - destruct (updatePan_step (Main.panTicks cfg k s) (panTicks_isDragging k))
      as [E | E]; [now left|].
    rewrite E. destruct IH as [-> | ->]; cbn [x2 y2];
      [left | right]; f_equal; lra.
Qed.

Lemma panVelocity_rest :
  exists N, forall n, (N <= n)%nat ->
    Main.panVelocity (Main.panTicks cfg n s) = Vec2 0 0.
Proof.
  destruct (damped_below (Main.panDamping cfg) (x2 (Main.panVelocity s))
              0.00001 Hdamp ltac:(lra)) as [Nx HNx].
  destruct (damped_below (Main.panDamping cfg) (y2 (Main.panVelocity s))
              0.00001 Hdamp ltac:(lra)) as [Ny HNy].
  exists (S (Nx + Ny)). intros [|n] Hn; [lia|].
  cbn [Main.panTicks].
  apply (updatePan_rest (Main.panTicks cfg n s) (panTicks_isDragging n));
    unfold JS.abs;
    destruct (panVelocity_shape n) as [-> | ->]; cbn [x2 y2];
    try (rewrite Rabs_R0; lra).
  - left. apply HNx. lia.
  - left. apply HNy. lia.
Qed.

End PanMomentum.

(** X6: pan momentum dies out.  After the button is released, with a
    damping factor in [0, 1) and no further input, there is a call of
    [updatePan] from which on [panVelocity] is zero and [targetPosition]
    no longer moves. *)
Theorem pan_momentum_comes_to_rest (cfg : Main.Config) (s : Main.State) :
  Main.isDragging s = false ->
  0 <= Main.panDamping cfg < 1 ->
  exists N, forall n, (N <= n)%nat ->
    Main.panVelocity (Main.panTicks cfg n s) = Vec2 0 0
    /\ Main.targetPosition (Main.panTicks cfg n s)
       = Main.targetPosition (Main.panTicks cfg N s).
Proof.
  intros Hi Hd. destruct (panVelocity_rest cfg s Hi Hd) as [N HN].
  exists N. intros n Hn. split; [apply HN, Hn|].
  induction n as [|n IH].
  - replace N with 0%nat by lia. reflexivity.
  - destruct (Nat.eq_dec N (S n)) as [-> | Hne]; [reflexivity|].
    rewrite <- IH by lia. cbn [Main.panTicks].
    apply (updatePan_rest cfg (Main.panTicks cfg n s)
             (panTicks_isDragging cfg s Hi n));
      rewrite HN by lia; cbn [x2 y2]; unfold JS.abs; rewrite Rabs_R0; lra.
Qed.

Lemma pan_momentum_comes_to_rest_witness :
  exists N, forall n, (N <= n)%nat ->
    Main.panVelocity (Main.panTicks Main.CONFIG n Main.releasedAfterDrag)
    = Vec2 0 0
    /\ Main.targetPosition (Main.panTicks Main.CONFIG n Main.releasedAfterDrag)
       = Main.targetPosition
           (Main.panTicks Main.CONFIG N Main.releasedAfterDrag).
Proof.
  apply (pan_momentum_comes_to_rest Main.CONFIG Main.releasedAfterDrag);
    [reflexivity | cbn; lra].
Defined.

(** ** Dragging and scrolling *)

(** Splits an equation between vectors or cameras into its components. *)
Ltac components :=
  repeat match goal with
         | |- Vec2 _ _ = Vec2 _ _ => f_equal
         | |- Vec3 _ _ _ = Vec3 _ _ _ => f_equal
         | |- Main.mkCamera _ _ _ _ _ _ = Main.mkCamera _ _ _ _ _ _ => f_equal
         end.

Lemma sign_of_positive (d : R) : 0 < d -> JS.sign (- d) = -1.
Proof.
  intros H. unfold JS.sign.
  destruct (Rlt_dec 0 (- d)); [lra|].
  destruct (Rlt_dec (- d) 0); [reflexivity | lra].
Qed.

(** X7: a drag is path independent.  While the button is held (in a
    window of non-zero size, at a non-zero zoom), moving the pointer to
    [b] and then to [c] leaves the camera where moving straight to [c]
    does, with [targetPosition] on the camera and [lastMouse] at [c]; in
    particular moving away and back to the starting pointer position
    restores the camera position. *)
Theorem drag_is_path_independent (s : Main.State) (bx by_ cx cy : R) :
  Main.isDragging s = true ->
  Main.innerWidth (Main.window s) <> 0 ->
  Main.innerHeight (Main.window s) <> 0 ->
  Main.zoom (Main.camera s) <> 0 ->
  let via := Main.onMouseMove cx cy (Main.onMouseMove bx by_ s) in
  let direct := Main.onMouseMove cx cy s in
  let back := Main.onMouseMove (x2 (Main.lastMouse s)) (y2 (Main.lastMouse s))
                (Main.onMouseMove bx by_ s) in
  Main.camera via = Main.camera direct
  /\ Main.targetPosition via = Main.targetPosition direct
  /\ Main.targetPosition via =
     Vec2 (x3 (Main.position (Main.camera via)))
          (y3 (Main.position (Main.camera via)))
  /\ Main.lastMouse via = Vec2 cx cy
  /\ Main.position (Main.camera back) = Main.position (Main.camera s).
Proof.
  intros Hd _ _ _ via direct back. subst via direct back.
  unfold Main.onMouseMove. rewrite Hd. cbn. rewrite Hd. cbn.
  destruct (Main.camera s) as [z [px py pz] l r t b]. cbn.
  unfold Main.set_position. cbn.
  repeat split; components; unfold Rdiv; ring.
Qed.

Lemma drag_is_path_independent_witness :
  let s := Main.onMouseDown 640 360 (Main.loadedAt 2) in
  Main.position
    (Main.camera (Main.onMouseMove 640 360 (Main.onMouseMove 700 400 s)))
  = Main.position (Main.camera s).
Proof.
  intros s.
  refine (proj2 (proj2 (proj2 (proj2
            (drag_is_path_independent s 700 400 0 0 eq_refl _ _ _)))));
    cbn; lra.
Defined.

(** [onWheel] as one assignment to each of the two variables it writes. *)
Lemma onWheel_assigns (cfg : Main.Config) (cx cy dy : R) (s : Main.State) :
  Main.onWheel cfg cx cy dy s =
  let k := JS.sign (- dy) * Main.zoomStep cfg in
  let cursor := Main.mouseWorld s cx cy in
  let p := Main.position (Main.camera s) in
  Main.set_targetPosition
    (Vec2 (x2 (Main.targetPosition s) + k * (x2 cursor - x3 p))
          (y2 (Main.targetPosition s) + k * (y2 cursor - y3 p)))
    (Main.set_zoomVelocity
       (Main.zoomVelocity s + k * Main.zoom (Main.camera s)) s).
Proof. destruct s; reflexivity. Qed.

Lemma set_targetPosition_zoomVelocity_twice (a a' : vec2) (b b' : R)
  (s : Main.State) :
  Main.set_targetPosition a'
    (Main.set_zoomVelocity b'
       (Main.set_targetPosition a (Main.set_zoomVelocity b s)))
  = Main.set_targetPosition a' (Main.set_zoomVelocity b' s).
Proof. reflexivity. Qed.

Lemma set_targetPosition_zoomVelocity_same (s : Main.State) :
  Main.set_targetPosition (Main.targetPosition s)
    (Main.set_zoomVelocity (Main.zoomVelocity s) s) = s.
Proof. destruct s; reflexivity. Qed.

(** Two wheel events at the same cursor whose directions add up to zero
    cancel. *)
Lemma onWheel_cancel (cfg : Main.Config) (cx cy d1 d2 : R) (s : Main.State) :
  JS.sign (- d1) + JS.sign (- d2) = 0 ->
  Main.onWheel cfg cx cy d2 (Main.onWheel cfg cx cy d1 s) = s.
Proof.
  intros H. rewrite (onWheel_assigns cfg cx cy d2), (onWheel_assigns cfg cx cy d1).
  cbv zeta.
  set (k1 := JS.sign (- d1) * Main.zoomStep cfg).
  set (k2 := JS.sign (- d2) * Main.zoomStep cfg).
  assert (Hk : k1 + k2 = 0) by (unfold k1, k2; nra).
  change (Main.mouseWorld (Main.set_targetPosition _ _) cx cy)
    with (Main.mouseWorld s cx cy).
  cbn [Main.camera Main.targetPosition Main.zoomVelocity
       Main.set_targetPosition Main.set_zoomVelocity x2 y2].
  rewrite set_targetPosition_zoomVelocity_twice.
  etransitivity; [|apply set_targetPosition_zoomVelocity_same].
  apply f_equal2; [|apply (f_equal2 Main.set_zoomVelocity); [nra | reflexivity]].
  destruct (Main.targetPosition s) as [tx ty]. cbn [x2 y2].
  components; nra.
Qed.

(** X8: between two frames, one wheel notch in and one notch out at the
    same cursor position cancel: the state is the one before the two
    events, in either order (in a window of non-zero size, at a non-zero
    zoom).  A wheel event with [deltaY = 0] changes nothing. *)
Theorem wheel_in_and_out_cancel (cfg : Main.Config) (s : Main.State)
  (cx cy dIn dOut : R) :
  dIn < 0 -> 0 < dOut ->
  Main.innerWidth (Main.window s) <> 0 ->
  Main.innerHeight (Main.window s) <> 0 ->
  Main.zoom (Main.camera s) <> 0 ->
  Main.onWheel cfg cx cy dOut (Main.onWheel cfg cx cy dIn s) = s
  /\ Main.onWheel cfg cx cy dIn (Main.onWheel cfg cx cy dOut s) = s
  /\ Main.onWheel cfg cx cy 0 s = s.
Proof.
  intros Hin Hout _ _ _.
  pose proof (sign_of_negative dIn Hin) as Hi.
  pose proof (sign_of_positive dOut Hout) as Ho.
  split; [|split].
  - apply onWheel_cancel. rewrite Hi, Ho. lra.
  - apply onWheel_cancel. rewrite Hi, Ho. lra.
  - assert (H0 : JS.sign (- 0) = 0).
    { unfold JS.sign. destruct (Rlt_dec 0 (- 0)); [lra|].
      destruct (Rlt_dec (- 0) 0); [lra | reflexivity]. }
    rewrite onWheel_assigns. cbv zeta. rewrite H0.
    etransitivity; [|apply set_targetPosition_zoomVelocity_same].
    apply f_equal2;
      [|apply (f_equal2 Main.set_zoomVelocity); [ring | reflexivity]].
    destruct (Main.targetPosition s) as [tx ty]. cbn [x2 y2].
    components; ring.
Qed.

Lemma wheel_in_and_out_cancel_witness :
  Main.onWheel Main.CONFIG 100 200 120
    (Main.onWheel Main.CONFIG 100 200 (-120) (Main.loadedAt 2))
  = Main.loadedAt 2.
Proof.
  refine (proj1 (wheel_in_and_out_cancel Main.CONFIG (Main.loadedAt 2)
                   100 200 (-120) 120 _ _ _ _ _)); cbn; lra.
Defined.

(** ** A drag suspends momentum pan and auto-navigation *)

Section DragFrame.

Variable cfg : Main.Config.

(** [updateZoom] writes the camera, [targetZoom] and [zoomVelocity] only. *)
Lemma updateZoom_assigns (s : Main.State) :
  Main.updateZoom cfg s =
  Main.set_camera (Main.camera (Main.updateZoom cfg s))
    (Main.set_zoomVelocity (Main.zoomVelocity (Main.updateZoom cfg s))
       (Main.set_targetZoom (Main.targetZoom (Main.updateZoom cfg s)) s)).
Proof.
  unfold Main.updateZoom.
  destruct (Num.gtb (JS.abs (Main.zoomVelocity s)) 0.0001); cbn;
    [destruct (Num.ltb (Main.targetZoom s + Main.zoomVelocity s)
                 (Main.minZoom cfg))|];
    destruct s; reflexivity.
Qed.

Lemma updatePan_dragging (s : Main.State) :
  Main.isDragging s = true -> Main.updatePan cfg s = s.
Proof. intros H. unfold Main.updatePan. now rewrite H. Qed.

Lemma updateAutoMovement_dragging (i : Main.FrameInputs) (s : Main.State) :
  Main.isDragging s = true -> Main.updateAutoMovement cfg i s = s.
Proof.
  intros H. unfold Main.updateAutoMovement. now rewrite H, orb_true_r.
Qed.

Lemma updateAutoZoom_dragging (i : Main.FrameInputs) (s : Main.State) :
  Main.isDragging s = true -> Main.updateAutoZoom cfg i s = s.
Proof.
  intros H. unfold Main.updateAutoZoom. now rewrite H, orb_true_r.
Qed.

(** A frame during a drag: the zoom update, the orientation fix and the
    two refreshes. *)
Lemma animate_dragging (i : Main.FrameInputs) (s : Main.State) :
  Main.isDragging s = true ->
  Main.animate cfg i s =
  Main.refreshTexturePlane cfg
    (Main.refreshUniforms cfg
       (Main.enforceCameraOrientation cfg (Main.updateZoom cfg s))).
Proof.
  intros H. unfold Main.animate. cbv zeta.
  assert (H1 : Main.isDragging (Main.updateZoom cfg s) = true)
    by (rewrite updateZoom_assigns; exact H).
  now rewrite (updatePan_dragging _ H1), (updateAutoMovement_dragging i _ H1),
    (updateAutoZoom_dragging i _ H1).
Qed.

(** The orientation fix and the two refreshes write the camera and the two
    meshes only. *)
Lemma refreshes_assign (s : Main.State) :
  let s' := Main.refreshTexturePlane cfg
              (Main.refreshUniforms cfg (Main.enforceCameraOrientation cfg s)) in
  s' = Main.set_camera (Main.camera s')
         (Main.set_densePointsMesh (Main.densePointsMesh s')
            (Main.set_texturePlaneMesh (Main.texturePlaneMesh s') s)).
Proof.
  cbv zeta.
  unfold Main.refreshTexturePlane, Main.refreshUniforms,
    Main.enforceCameraOrientation.
  destruct s as [cam w dr lm tz zv tp pv [u|] [p|] im pw av tav zd tzd azv lt];
    reflexivity.
Qed.

End DragFrame.

(** X9: while a drag is in progress a frame runs the zoom update only.
    It leaves [targetPosition], [panVelocity], both drift vectors, both
    auto-zoom directions and the auto-zoom clock as they are, keeps the
    drag flag, and leaves in [targetZoom] what [updateZoom] wrote, without
    the clamp to the auto-zoom range. *)
Theorem drag_suspends_navigation (cfg : Main.Config) (i : Main.FrameInputs)
  (s : Main.State) :
  Main.isDragging s = true ->
  let s' := Main.animate cfg i s in
  Main.isDragging s' = true
  /\ Main.targetPosition s' = Main.targetPosition s
  /\ Main.panVelocity s' = Main.panVelocity s
  /\ Main.autoMovementVector s' = Main.autoMovementVector s
  /\ Main.targetAutoMovementVector s' = Main.targetAutoMovementVector s
  /\ Main.autoZoomDirection s' = Main.autoZoomDirection s
  /\ Main.targetAutoZoomDirection s' = Main.targetAutoZoomDirection s
  /\ Main.lastAutoZoomTime s' = Main.lastAutoZoomTime s
  /\ Main.targetZoom s' = Main.targetZoom (Main.updateZoom cfg s)
  /\ Main.zoomVelocity s' = Main.zoomVelocity (Main.updateZoom cfg s).
Proof.
  intros H s'. subst s'. rewrite (animate_dragging cfg i s H).
  pose proof (refreshes_assign cfg (Main.updateZoom cfg s)) as E.
  cbv zeta in E. rewrite E. clear E.
  cbn [Main.isDragging Main.targetPosition Main.panVelocity
       Main.autoMovementVector Main.targetAutoMovementVector
       Main.autoZoomDirection Main.targetAutoZoomDirection
       Main.lastAutoZoomTime Main.targetZoom Main.zoomVelocity
       Main.set_camera Main.set_densePointsMesh Main.set_texturePlaneMesh].
  rewrite (updateZoom_assigns cfg s).
  cbn [Main.isDragging Main.targetPosition Main.panVelocity
       Main.autoMovementVector Main.targetAutoMovementVector
       Main.autoZoomDirection Main.targetAutoZoomDirection
       Main.lastAutoZoomTime Main.targetZoom Main.zoomVelocity
       Main.set_camera Main.set_zoomVelocity Main.set_targetZoom].
  repeat split; try reflexivity; exact H.
Qed.

Lemma drag_suspends_navigation_witness :
  let s := Main.onMouseDown 640 360 (Main.loadedAt 2) in
  Main.targetPosition (Main.animate Main.CONFIG Main.quietFrame s)
  = Main.targetPosition s.
Proof.
  intros s.
  exact (proj1 (proj2 (drag_suspends_navigation Main.CONFIG Main.quietFrame
                         s eq_refl))).
Defined.

(** ** What each update writes *)

Section Assigns.

Variable cfg : Main.Config.

Lemma updatePan_assigns (s : Main.State) :
  Main.updatePan cfg s =
  Main.set_panVelocity (Main.panVelocity (Main.updatePan cfg s))
    (Main.set_targetPosition (Main.targetPosition (Main.updatePan cfg s)) s).
Proof.
  unfold Main.updatePan.
  destruct (negb (Main.isDragging s) && _);
    [|destruct (negb (Main.isDragging s))];
    destruct s; reflexivity.
Qed.

Lemma updateAutoMovement_assigns (i : Main.FrameInputs) (s : Main.State) :
  Main.updateAutoMovement cfg i s =
  Main.set_targetPosition
    (Main.targetPosition (Main.updateAutoMovement cfg i s))
    (Main.set_autoMovementVector
       (Main.autoMovementVector (Main.updateAutoMovement cfg i s))
       (Main.set_targetAutoMovementVector
          (Main.targetAutoMovementVector (Main.updateAutoMovement cfg i s))
          s)).
Proof.
  unfold Main.updateAutoMovement.
  destruct (negb (Main.autoMovementEnabled cfg) || Main.isDragging s);
    destruct s; reflexivity.
Qed.

Lemma updateAutoZoom_assigns (i : Main.FrameInputs) (s : Main.State) :
  Main.updateAutoZoom cfg i s =
  Main.set_targetZoom (Main.targetZoom (Main.updateAutoZoom cfg i s))
    (Main.set_autoZoomVelocity
       (Main.autoZoomVelocity (Main.updateAutoZoom cfg i s))
       (Main.set_lastAutoZoomTime
          (Main.lastAutoZoomTime (Main.updateAutoZoom cfg i s))
          (Main.set_targetAutoZoomDirection
             (Main.targetAutoZoomDirection (Main.updateAutoZoom cfg i s))
             (Main.set_autoZoomDirection
                (Main.autoZoomDirection (Main.updateAutoZoom cfg i s)) s)))).
Proof.
  unfold Main.updateAutoZoom.
  destruct (negb (Main.autoZoomEnabled cfg) || Main.isDragging s);
    [destruct s; reflexivity|].
  cbv zeta.
  destruct (Num.ltb (Main.randomZoom i) (Main.autoZoomChangeRate cfg)); cbn;
    match goal with |- context [if ?c then _ else _] => destruct c end;
    destruct s; reflexivity.
Qed.

End Assigns.

(** X10: every per-frame update writes its own variables and no others.
    [updateZoom] writes the camera, [targetZoom] and [zoomVelocity];
    [updatePan] writes [targetPosition] and [panVelocity];
    [updateAutoMovement] writes [targetPosition] and the two drift
    vectors; [updateAutoZoom] writes [targetZoom], the two auto-zoom
    directions, the auto-zoom velocity and its clock.  Each state after
    is the state before with exactly those variables replaced. *)
Theorem updates_write_their_variables (cfg : Main.Config)
  (i : Main.FrameInputs) (s : Main.State) :
  Main.updateZoom cfg s =
    Main.set_camera (Main.camera (Main.updateZoom cfg s))
      (Main.set_zoomVelocity (Main.zoomVelocity (Main.updateZoom cfg s))
         (Main.set_targetZoom (Main.targetZoom (Main.updateZoom cfg s)) s))
  /\ Main.updatePan cfg s =
     Main.set_panVelocity (Main.panVelocity (Main.updatePan cfg s))
       (Main.set_targetPosition (Main.targetPosition (Main.updatePan cfg s)) s)
  /\ Main.updateAutoMovement cfg i s =
     Main.set_targetPosition
       (Main.targetPosition (Main.updateAutoMovement cfg i s))
       (Main.set_autoMovementVector
          (Main.autoMovementVector (Main.updateAutoMovement cfg i s))
          (Main.set_targetAutoMovementVector
             (Main.targetAutoMovementVector (Main.updateAutoMovement cfg i s))
             s))
  /\ Main.updateAutoZoom cfg i s =
     Main.set_targetZoom (Main.targetZoom (Main.updateAutoZoom cfg i s))
       (Main.set_autoZoomVelocity
          (Main.autoZoomVelocity (Main.updateAutoZoom cfg i s))
          (Main.set_lastAutoZoomTime
             (Main.lastAutoZoomTime (Main.updateAutoZoom cfg i s))
             (Main.set_targetAutoZoomDirection
                (Main.targetAutoZoomDirection (Main.updateAutoZoom cfg i s))
                (Main.set_autoZoomDirection
                   (Main.autoZoomDirection (Main.updateAutoZoom cfg i s))
                   s)))).
Proof.
  split; [apply updateZoom_assigns|].
  split; [apply updatePan_assigns|].
  split; [apply updateAutoMovement_assigns | apply updateAutoZoom_assigns].
Qed.

(** ** The drift direction *)

(** Normalisation as [updateAutoMovement] does it leaves a unit vector, or
    the zero vector it was given. *)
Lemma normalised_unit_or_zero (v : vec2) :
  let length := sqrt (x2 v * x2 v + y2 v * y2 v) in
  let v' := if Num.gtb length 0
            then Vec2 (x2 v / length) (y2 v / length) else v in
  x2 v' * x2 v' + y2 v' * y2 v' = 1 \/ v' = Vec2 0 0.
Proof.
  destruct v as [a b]. cbn [x2 y2]. cbv zeta.
  assert (Hsq : 0 <= a * a + b * b) by nra.
  cmp_case.
  - left. cbn [x2 y2].
    pose proof (sqrt_sqrt _ Hsq) as Hs.
    set (l := sqrt (a * a + b * b)) in *.
    replace (a / l * (a / l) + b / l * (b / l))
      with ((a * a + b * b) / (l * l)) by (field; lra).
    rewrite Hs. field. nra.
  - right.
    assert (H0 : sqrt (a * a + b * b) = 0)
      by (pose proof (sqrt_pos (a * a + b * b)); lra).
    apply sqrt_eq_0 in H0; [|exact Hsq].
    f_equal; nra.
Qed.

Lemma steered_unit_or_zero (cfg : Main.Config) (i : Main.FrameInputs)
  (s : Main.State) :
  let v := Main.steered cfg i s in
  x2 v * x2 v + y2 v * y2 v = 1 \/ v = Vec2 0 0.
Proof.
  unfold Main.steered. cbv zeta.
  match goal with
  | |- context [Num.gtb (sqrt (x2 ?v * x2 ?v + y2 ?v * y2 ?v)) 0] =>
      exact (normalised_unit_or_zero v)
  end.
Qed.


(** An active call of [updateAutoMovement]. *)
Lemma updateAutoMovement_active (cfg : Main.Config) (i : Main.FrameInputs)
  (s : Main.State) :
  Main.autoMovementEnabled cfg = true ->
  Main.isDragging s = false ->
  let s' := Main.updateAutoMovement cfg i s in
  Main.autoMovementVector s' = Main.steered cfg i s
  /\ Main.targetAutoMovementVector s' = Main.retargeted cfg i s
  /\ Main.targetPosition s' =
     Vec2 (x2 (Main.targetPosition s)
           + x2 (Main.steered cfg i s)
             * (Main.autoMovementSpeed cfg / Main.zoom (Main.camera s)))
          (y2 (Main.targetPosition s)
           + y2 (Main.steered cfg i s)
             * (Main.autoMovementSpeed cfg / Main.zoom (Main.camera s))).
Proof.
  intros He Hd. cbv zeta. unfold Main.updateAutoMovement.
  rewrite He, Hd. cbn [negb orb]. cbv zeta. cbn. auto.
Qed.

(** X11: the drift keeps a constant apparent speed.  After an active call
    of [updateAutoMovement] (enabled, no drag, non-zero zoom) the drift
    vector is a unit vector or the zero vector, and [targetPosition] has
    moved by that vector times [autoMovementSpeed / zoom]: a step of
    length exactly [autoMovementSpeed / zoom] for a unit vector, and no
    step at all for the zero vector. *)
Theorem drift_step_has_constant_speed (cfg : Main.Config)
  (i : Main.FrameInputs) (s : Main.State) :
  Main.autoMovementEnabled cfg = true ->
  Main.isDragging s = false ->
  Main.zoom (Main.camera s) <> 0 ->
  let s' := Main.updateAutoMovement cfg i s in
  let v := Main.autoMovementVector s' in
  let dx := x2 (Main.targetPosition s') - x2 (Main.targetPosition s) in
  let dy := y2 (Main.targetPosition s') - y2 (Main.targetPosition s) in
  let speed := Main.autoMovementSpeed cfg / Main.zoom (Main.camera s) in
  dx = x2 v * speed /\ dy = y2 v * speed
  /\ ((x2 v * x2 v + y2 v * y2 v = 1 /\ dx * dx + dy * dy = speed * speed)
      \/ (v = Vec2 0 0 /\ Main.targetPosition s' = Main.targetPosition s)).
Proof.
  intros He Hd _ s' v dx dy speed.
  destruct (updateAutoMovement_active cfg i s He Hd) as (Ev & _ & Et).
  fold s' in Ev, Et. fold speed in Et.
  assert (Hx : dx = x2 v * speed)
    by (unfold dx, v; rewrite Et, Ev; cbn [x2]; ring).
  assert (Hy : dy = y2 v * speed)
    by (unfold dy, v; rewrite Et, Ev; cbn [y2]; ring).
  split; [exact Hx|]. split; [exact Hy|].
  pose proof (steered_unit_or_zero cfg i s) as Hs. cbv zeta in Hs.
  destruct Hs as [Hu | H0].
  - left.
    assert (Hv : x2 v * x2 v + y2 v * y2 v = 1)
      by (unfold v; rewrite Ev; exact Hu).
    split; [exact Hv|]. rewrite Hx, Hy. nra.
  - right. split; [unfold v; rewrite Ev; exact H0|].
    rewrite Et, H0. cbn [x2 y2].
    destruct (Main.targetPosition s). cbn [x2 y2]. components; ring.
Qed.

Lemma drift_step_has_constant_speed_witness :
  let s := Main.loadedAt 2 in
  let s' := Main.updateAutoMovement Main.CONFIG Main.quietFrame s in
  x2 (Main.targetPosition s') - x2 (Main.targetPosition s)
  = x2 (Main.autoMovementVector s') * (Main.autoMovementSpeed Main.CONFIG / 2).
Proof.
  intros s s'.
  refine (proj1 (drift_step_has_constant_speed Main.CONFIG Main.quietFrame s
                   eq_refl eq_refl _)).
  cbn. lra.
Defined.

(** ** Invariants of the auto-drive state *)

Section AutoDrive.

Variable cfg : Main.Config.

(** The projections that the two invariants read. *)
Ltac fields :=
  cbn [Main.targetAutoZoomDirection Main.autoZoomDirection
       Main.targetAutoMovementVector Main.autoMovementVector
       Main.zoomVelocity Main.targetZoom Main.camera Main.zoom
       Main.set_camera Main.set_zoomVelocity Main.set_targetZoom
       Main.set_panVelocity Main.set_targetPosition
       Main.set_autoMovementVector Main.set_targetAutoMovementVector
       Main.set_autoZoomVelocity Main.set_lastAutoZoomTime
       Main.set_targetAutoZoomDirection Main.set_autoZoomDirection
       Main.set_densePointsMesh Main.set_texturePlaneMesh
       Main.set_isDragging Main.set_lastMouse Main.set_window
       Main.set_imageDimensions Main.set_calculatedPlaneWidth] in *.









End AutoDrive.


(** ** The zoom under auto-navigation alone *)

Section AutoRange.

Variable cfg : Main.Config.
Hypothesis Hfloor : Main.minZoom cfg <= Main.autoZoomMinLevel cfg.
Hypothesis Horder : Main.autoZoomMinLevel cfg <= Main.autoZoomMaxLevel cfg.

Ltac fields :=
  cbn [Main.zoomVelocity Main.targetZoom Main.camera Main.zoom
       Main.set_camera Main.set_zoomVelocity Main.set_targetZoom
       Main.set_panVelocity Main.set_targetPosition
       Main.set_autoMovementVector Main.set_targetAutoMovementVector
       Main.set_autoZoomVelocity Main.set_lastAutoZoomTime
       Main.set_targetAutoZoomDirection Main.set_autoZoomDirection
       Main.set_densePointsMesh Main.set_texturePlaneMesh] in *.

Lemma updateZoom_range (s : Main.State) :
  Main.zoomInAutoRange cfg s -> Main.zoomInAutoRange cfg (Main.updateZoom cfg s).
Proof.
  intros (Hv & Ht & Hz). unfold Main.zoomInAutoRange.
  destruct (updateZoom_rest cfg s) as (Et & Ev & Ez).
  { rewrite Hv. unfold JS.abs. rewrite Rabs_R0. lra. }
  rewrite Et, Ev, Ez.
  split; [reflexivity|]. split; [exact Ht|]. minmax.
Qed.

Lemma updatePan_range (s : Main.State) :
  Main.zoomInAutoRange cfg s -> Main.zoomInAutoRange cfg (Main.updatePan cfg s).
Proof.
  intros H. rewrite updatePan_assigns. unfold Main.zoomInAutoRange in *.
  fields. exact H.
Qed.

Lemma updateAutoMovement_range (i : Main.FrameInputs) (s : Main.State) :
  Main.zoomInAutoRange cfg s ->
  Main.zoomInAutoRange cfg (Main.updateAutoMovement cfg i s).
Proof.
  intros H. rewrite updateAutoMovement_assigns.
  unfold Main.zoomInAutoRange in *. fields. exact H.
Qed.

Lemma updateAutoZoom_range (i : Main.FrameInputs) (s : Main.State) :
  Main.zoomInAutoRange cfg s ->
  Main.zoomInAutoRange cfg (Main.updateAutoZoom cfg i s).
Proof.
  intros H. pose proof H as (Hv & Ht & Hz).
  destruct (Main.autoZoomEnabled cfg) eqn:He;
    [destruct (Main.isDragging s) eqn:Hdr|].
  - rewrite updateAutoZoom_dragging by exact Hdr. exact H.
  - destruct (updateAutoZoom_active cfg i s He Hdr) as (_ & _ & Etz).
    unfold Main.zoomInAutoRange. rewrite Etz.
    rewrite updateAutoZoom_assigns. fields.
    split; [exact Hv|]. split; [minmax | exact Hz].
  - unfold Main.updateAutoZoom. rewrite He. cbn [negb orb]. exact H.
Qed.

Lemma refreshes_range (s : Main.State) :
  Main.zoomInAutoRange cfg s ->
  Main.zoomInAutoRange cfg
    (Main.refreshTexturePlane cfg
       (Main.refreshUniforms cfg (Main.enforceCameraOrientation cfg s))).
Proof.
  intros H. unfold Main.zoomInAutoRange.
  rewrite refreshTexturePlane_camera, refreshUniforms_camera,
    enforceCameraOrientation_zoom.
  pose proof (refreshes_assign cfg s) as E. cbv zeta in E.
  rewrite E. fields. exact H.
Qed.

Lemma animate_range (i : Main.FrameInputs) (s : Main.State) :
  Main.zoomInAutoRange cfg s -> Main.zoomInAutoRange cfg (Main.animate cfg i s).
Proof.
  intros H. unfold Main.animate. cbv zeta.
  apply refreshes_range, updateAutoZoom_range, updateAutoMovement_range,
    updatePan_range, updateZoom_range, H.
Qed.

Lemma step_range (s : Main.State) (e : Main.Event) :
  Main.isWheel e = false ->
  Main.zoomInAutoRange cfg s -> Main.zoomInAutoRange cfg (Main.step cfg s e).
Proof.
  intros Hw H. destruct e; cbn [Main.step]; try discriminate Hw.
  - exact H.
  - exact H.
  - unfold Main.zoomInAutoRange. rewrite onMouseMove_zoom.
    unfold Main.onMouseMove. destruct (negb (Main.isDragging s)); exact H.
  - unfold Main.zoomInAutoRange. rewrite onResize_zoom.
    unfold Main.onResize. cbv zeta.
    destruct (Main.densePointsMesh _); exact H.
  - unfold Main.onTextureLoaded. cbv zeta. apply animate_range. exact H.
  - apply animate_range, H.
Qed.

Lemma run_range (es : list Main.Event) (s : Main.State) :
  forallb (fun e => negb (Main.isWheel e)) es = true ->
  Main.zoomInAutoRange cfg s -> Main.zoomInAutoRange cfg (Main.run cfg s es).
Proof.
  revert s. induction es as [|e es IH]; intros s Hes H; cbn; [exact H|].
  cbn in Hes. apply andb_true_iff in Hes. destruct Hes as (He & Hes).
  apply IH; [exact Hes|]. apply step_range; [|exact H].
  now destruct (Main.isWheel e).
Qed.

End AutoRange.

(** X13: without wheel input the zoom never leaves the auto-zoom range.
    When [minZoom <= autoZoomMinLevel <= 1 <= autoZoomMaxLevel], every
    state reached from [init] by a sequence of events that contains no
    wheel event (frames, drags, resizes, the image load) has zero zoom
    momentum and has both the camera zoom and the target zoom within
    [autoZoomMinLevel, autoZoomMaxLevel]. *)
Theorem zoom_stays_in_auto_range (cfg : Main.Config) (w : Main.Window)
  (rndAngle rndDir now : R) (es : list Main.Event) :
  Main.minZoom cfg <= Main.autoZoomMinLevel cfg ->
  Main.autoZoomMinLevel cfg <= 1 <= Main.autoZoomMaxLevel cfg ->
  forallb (fun e => negb (Main.isWheel e)) es = true ->
  Main.zoomInAutoRange cfg
    (Main.run cfg (Main.init cfg w rndAngle rndDir now) es).
Proof.
  intros Hfloor Hone Hes. apply run_range; try assumption; [lra|].
  unfold Main.zoomInAutoRange. cbn. lra.
Qed.

Lemma zoom_stays_in_auto_range_witness :
  Main.zoomInAutoRange Main.CONFIG
    (Main.run Main.CONFIG (Main.init Main.CONFIG (Main.mkWindow 1280 720) 0.25 0.75 0)
       [Main.TextureLoaded 4 2 Main.blackTexture 0.5 Main.quietFrame;
        Main.Frame Main.quietFrame;
        Main.MouseDown 640 360;
        Main.MouseMove 700 400;
        Main.MouseUp;
        Main.Frame Main.quietFrame]).
Proof.
  apply zoom_stays_in_auto_range; [config; lra | config; lra | reflexivity].
Defined.

(** ** The vertex shader: density compensation *)

Lemma samplingRate_le_one (u : Shaders.Uniforms) : Shaders.samplingRate u <= 1.
Proof. apply Rmin_l. Qed.

(** X14: density compensation is bounded and preserves coverage.  For
    every assignment of the uniforms the factor lies between 1 and 10; it
    is 1 at full sampling rate; and while the sampling rate is at least
    the floor 0.01, the squared factor times the sampling rate is 1, so
    the area covered by the points that remain stays that of the full
    set. *)
Theorem density_compensation_bounds (u : Shaders.Uniforms) :
  1 <= Shaders.densityCompensation u <= 10
  /\ (Shaders.samplingRate u = 1 -> Shaders.densityCompensation u = 1)
  /\ (0.01 <= Shaders.samplingRate u ->
      Shaders.densityCompensation u * Shaders.densityCompensation u
      * Shaders.samplingRate u = 1).
Proof.
  unfold Shaders.densityCompensation.
  pose proof (samplingRate_le_one u) as H1.
  set (r := Shaders.samplingRate u) in *.
  assert (Hm : 0.01 <= Rmax 0.01 r <= 1) by (unfold Rmax; destruct (Rle_dec 0.01 r); lra).
  set (m := Rmax 0.01 r) in *.
  assert (Hinv : 1 <= 1 / m <= 100).
  { split.
    - apply (Rmult_le_reg_r m); [lra|].
      unfold Rdiv. rewrite Rmult_assoc, Rinv_l by lra. lra.
    - apply (Rmult_le_reg_r m); [lra|].
      unfold Rdiv. rewrite Rmult_assoc, Rinv_l by lra. lra. }
  split; [split|split].
  - rewrite <- sqrt_1 at 1. apply sqrt_le_1_alt. lra.
  - replace 10 with (sqrt (10 * 10)) by (apply sqrt_square; lra).
    apply sqrt_le_1_alt. lra.
  - intros Hr. unfold m. rewrite Hr.
    replace (Rmax 0.01 1) with 1 by (unfold Rmax; destruct (Rle_dec 0.01 1); lra).
    replace (1 / 1) with 1 by lra. apply sqrt_1.
  - intros Hr.
    assert (Em : m = r) by (unfold m, Rmax; destruct (Rle_dec 0.01 r); lra).
    rewrite sqrt_sqrt by lra. rewrite Em. field. lra.
Qed.

Lemma density_compensation_bounds_witness :
  Shaders.densityCompensation (Main.uniformsAt 1)
  * Shaders.densityCompensation (Main.uniformsAt 1)
  * Shaders.samplingRate (Main.uniformsAt 1) = 1.
Proof.
  apply (proj2 (proj2 (density_compensation_bounds (Main.uniformsAt 1)))).
  unfold Shaders.samplingRate, Shaders.visiblePixels, Shaders.totalPoints.
  cbn. apply Rmin_glb; lra.
Defined.

(** ** The vertex shader: the hash and the displacement *)

Lemma random_range (u : Shaders.Uniforms) (st : vec2) :
  0 <= Shaders.random u st < 1.
Proof.
  unfold Shaders.random, GLSL.fract.
  destruct (base_fp (sin (GLSL.dot2 st (Vec2 12.9898 78.233) + Shaders.seed u)
                     * 43758.5453123)) as (H0 & H1).
  split; lra.
Qed.

Lemma clamp_unit (v : R) : 0 <= GLSL.clamp v 0 1 <= 1.
Proof. split; minmax. Qed.

(** The magnitude by which [main] scales the two displacement directions. *)
Lemma finalScaledDisplacement_bound (u : Shaders.Uniforms) (p : vec3) :
  Rabs (Shaders.finalScaledDisplacement u p)
  <= Rabs (Shaders.displacementAmount u) * 5
     * (1 + Rabs (Shaders.displacementJitterMagnitude u)).
Proof.
  unfold Shaders.finalScaledDisplacement, Shaders.scaledDisplacement.
  pose proof (clamp_unit
                ((Shaders.cameraZoom u - Shaders.displacementStartZoom u)
                 / (Shaders.displacementFullZoom u
                    - Shaders.displacementStartZoom u))) as Hf.
  fold (Shaders.displacementFactor u) in Hf.
  set (f := Shaders.displacementFactor u) in *.
  set (a := Shaders.displacementAmount u).
  set (m := Shaders.displacementJitterMagnitude u).
  assert (Ha : 0 <= Rabs a) by apply Rabs_pos.
  assert (Hm : 0 <= Rabs m) by apply Rabs_pos.
  assert (Hs : Rabs (a * f * 5) <= Rabs a * 5).
  { rewrite !Rabs_mult, (Rabs_pos_eq f), (Rabs_pos_eq 5) by lra. nra. }
  assert (Ho : Rabs (if Num.gtb f 0
                     then Shaders.displacementOscillation u p else 1)
               <= 1 + Rabs m).
  { destruct (Num.gtb f 0).
    - unfold Shaders.displacementOscillation. fold m.
      match goal with |- context [sin ?x] =>
        pose proof (SIN_bound x) as Hsin; set (sn := sin x) in * end.
      eapply Rle_trans; [apply Rabs_triang|].
      rewrite Rabs_R1, Rabs_mult.
      assert (Hn : Rabs sn <= 1) by (apply Rabs_le; lra).
      pose proof (Rabs_pos sn). nra.
    - rewrite Rabs_R1. lra. }
  rewrite Rabs_mult.
  pose proof (Rabs_pos (a * f * 5)).
  match goal with |- _ * Rabs ?o <= _ => pose proof (Rabs_pos o) end.
  nra.
Qed.

(** X15: the hash lies in [0, 1) and the displacement is bounded.  For
    every assignment of the uniforms and every vertex, [random] returns a
    value in [0, 1); the displaced position is at most
    [|displacementAmount| * 5 * (1 + |displacementJitterMagnitude|)] away
    from the position in x and in y; and at or below
    [displacementStartZoom] (with the start below the full zoom) the
    position is not displaced at all. *)
Theorem displacement_is_bounded (u : Shaders.Uniforms) (p : vec3) :
  let bound := Rabs (Shaders.displacementAmount u) * 5
               * (1 + Rabs (Shaders.displacementJitterMagnitude u)) in
  (forall st, 0 <= Shaders.random u st < 1)
  /\ Rabs (x3 (Shaders.displacedPosition u p) - x3 p) <= bound
  /\ Rabs (y3 (Shaders.displacedPosition u p) - y3 p) <= bound
  /\ (Shaders.displacementStartZoom u < Shaders.displacementFullZoom u ->
      Shaders.cameraZoom u <= Shaders.displacementStartZoom u ->
      Shaders.displacedPosition u p = p).
Proof.
  intros bound.
  pose proof (finalScaledDisplacement_bound u p) as Hb. fold bound in Hb.
  pose proof (Rabs_pos (Shaders.finalScaledDisplacement u p)) as Hp.
  assert (Hr : forall st, Rabs (Shaders.random u st * 2 - 1) <= 1)
    by (intros st; pose proof (random_range u st); apply Rabs_le; lra).
  split; [apply random_range|].
  split; [|split].
  - unfold Shaders.displacedPosition, GLSL.add3. cbn [x3].
    replace (x3 p + Shaders.randX u p * Shaders.finalScaledDisplacement u p - x3 p)
      with (Shaders.randX u p * Shaders.finalScaledDisplacement u p) by ring.
    rewrite Rabs_mult. unfold Shaders.randX.
    pose proof (Hr (GLSL.add2 (GLSL.xy p) (Vec2 0.1 0.3))) as H1.
    match goal with |- Rabs ?r * _ <= _ => pose proof (Rabs_pos r) end.
    nra.
  - unfold Shaders.displacedPosition, GLSL.add3. cbn [y3].
    replace (y3 p + Shaders.randY u p * Shaders.finalScaledDisplacement u p - y3 p)
      with (Shaders.randY u p * Shaders.finalScaledDisplacement u p) by ring.
    rewrite Rabs_mult. unfold Shaders.randY.
    pose proof (Hr (GLSL.add2 (GLSL.xy p) (Vec2 0.6 0.9))) as H1.
    match goal with |- Rabs ?r * _ <= _ => pose proof (Rabs_pos r) end.
    nra.
  - intros Hlt Hz.
    assert (Hf : Shaders.displacementFactor u = 0)
      by (apply clamp_ramp_below; assumption).
    unfold Shaders.displacedPosition, Shaders.finalScaledDisplacement,
      Shaders.scaledDisplacement, GLSL.add3.
    rewrite Hf. destruct p as [px py pz]. cbn [x3 y3 z3].
    components; ring.
Qed.

Lemma displacement_is_bounded_witness :
  let p := Vec3 0.25 0.5 0 in
  Shaders.displacedPosition (Main.uniformsAt 3) p = p.
Proof.
  intros p.
  refine (proj2 (proj2 (proj2 (displacement_is_bounded (Main.uniformsAt 3) p)))
            _ _); cbn; lra.
Defined.

(** X16: zooming in never hides a point.  With the screen, plane and
    image sizes fixed (non-negative, the image sizes positive), a sample
    that is rendered at a zoom [z1 >= 0] is rendered at every zoom
    [z2 >= z1]; and once the sampling rate has reached 1, every sample is
    rendered. *)
Theorem zooming_in_never_hides_a_point (u : Shaders.Uniforms) (uv : vec2)
  (z1 z2 : R) :
  0 <= Shaders.screenWidth u -> 0 <= Shaders.screenHeight u ->
  0 <= Shaders.planeWidth u -> 0 <= Shaders.planeHeight u ->
  0 < Shaders.imageWidth u -> 0 < Shaders.imageHeight u ->
  0 <= z1 <= z2 ->
  (Shaders.culled (Shaders.set_cameraZoom z1 u) uv = false ->
   Shaders.culled (Shaders.set_cameraZoom z2 u) uv = false)
  /\ (Shaders.samplingRate u = 1 -> Shaders.culled u uv = false).
Proof.
  intros Hsw Hsh Hpw Hph Hiw Hih Hz.
  assert (Htotal : 0 < Shaders.totalPoints u)
    by (apply Rmult_lt_0_compat; assumption).
  pose proof (samplingRate_monotone u Hsw Hsh Hpw Hph Htotal z1 z2 Hz) as Hm.
  split.
  - unfold Shaders.culled. intros H. apply gtb_false in H. apply gtb_false.
    change (Shaders.pointId (Shaders.set_cameraZoom z2 u) uv)
      with (Shaders.pointId (Shaders.set_cameraZoom z1 u) uv).
    lra.
  - intros Hr. unfold Shaders.culled. apply gtb_false. rewrite Hr.
    pose proof (random_range u uv). unfold Shaders.pointId. lra.
Qed.

(** A 4 by 2 image in a 1280 by 720 window at zoom 1 is fully sampled. *)
Lemma zooming_in_never_hides_a_point_witness :
  Shaders.culled (Main.uniformsAt 1) (Vec2 0.5 0.5) = false.
Proof.
  refine (proj2 (zooming_in_never_hides_a_point (Main.uniformsAt 1)
                   (Vec2 0.5 0.5) 1 2 _ _ _ _ _ _ _) _);
    try (cbn; lra).
  unfold Shaders.samplingRate, Shaders.visiblePixels, Shaders.totalPoints.
  cbn. apply Rmin_left. lra.
Defined.

(** ** The vertex shader: point size and colour *)

(** X17: below the size threshold every point has the same size.  With
    [zoomThreshold < maxZoomForSizeTransition], at a camera zoom at or
    below the threshold the point size is [minPointSize] times the density
    compensation, whatever the texture; at or above
    [maxZoomForSizeTransition] it is the full brightness-based size times
    the density compensation; and in between it is the linear blend of the
    two. *)
Theorem point_size_blend (u : Shaders.Uniforms) (uv : vec2) :
  Shaders.zoomThreshold u < Shaders.maxZoomForSizeTransition u ->
  let lo := Shaders.zoomThreshold u in
  let hi := Shaders.maxZoomForSizeTransition u in
  let z := Shaders.cameraZoom u in
  let full := Shaders.minPointSize u
              + Shaders.basePointSize u * Shaders.brightness u uv
                * Shaders.brightnessMultiplier u in
  (z <= lo ->
   Shaders.gl_PointSize u uv
   = Shaders.minPointSize u * Shaders.densityCompensation u)
  /\ (hi <= z ->
      Shaders.gl_PointSize u uv = full * Shaders.densityCompensation u)
  /\ (lo <= z <= hi ->
      Shaders.gl_PointSize u uv
      = (Shaders.minPointSize u
         + (z - lo) / (hi - lo) * (full - Shaders.minPointSize u))
        * Shaders.densityCompensation u).
Proof.
  intros H lo hi z full.
  unfold Shaders.gl_PointSize, Shaders.sizeBeforeCompensation,
    Shaders.uniformSize, Shaders.brightnessBasedSize, Shaders.zoomFactor,
    GLSL.mix.
  fold lo hi z.
  split; [|split]; intros Hz.
  - rewrite (clamp_ramp_below lo hi H z Hz). ring.
  - rewrite (clamp_ramp_above lo hi H z Hz). unfold full. ring.
  - rewrite (clamp_ramp_between lo hi H z Hz). unfold full. ring.
Qed.

Lemma point_size_blend_witness :
  Shaders.gl_PointSize (Main.uniformsAt 0.5) (Vec2 0.5 0.5)
  = Shaders.minPointSize (Main.uniformsAt 0.5)
    * Shaders.densityCompensation (Main.uniformsAt 0.5).
Proof.
  refine (proj1 (point_size_blend (Main.uniformsAt 0.5) (Vec2 0.5 0.5) _) _);
    cbn; lra.
Defined.

(** [pow] of a base in [0, 1] with a positive exponent stays in [0, 1]. *)
Lemma pow_unit (b e : R) : 0 <= b <= 1 -> 0 < e -> 0 <= GLSL.pow b e <= 1.
Proof.
  intros Hb He. unfold GLSL.pow. destruct (Rle_dec b 0); [lra|].
  unfold Rpower. split; [left; apply exp_pos|].
  assert (Hl : ln b <= 0).
  { destruct (Req_dec b 1) as [-> | Hne]; [rewrite ln_1; lra|].
    rewrite <- ln_1. left. apply ln_increasing; lra. }
  destruct (Req_dec (e * ln b) 0) as [-> | Hne]; [rewrite exp_0; lra|].
  rewrite <- exp_0. left. apply exp_increasing. nra.
Qed.

(** X18: brightening stays in gamut and never darkens.  For a texel whose
    three colour channels lie in [0, 1] and a positive steepness, the
    luminance and the impact lie in [0, 1], every channel of the output
    colour is at least the channel of the texel and at most 1, and alpha
    is the texel's. *)
Theorem brightening_stays_in_gamut (u : Shaders.Uniforms) (uv : vec2) :
  0 <= x4 (Shaders.map u uv) <= 1 ->
  0 <= y4 (Shaders.map u uv) <= 1 ->
  0 <= z4 (Shaders.map u uv) <= 1 ->
  0 < Shaders.brightnessSteepness u ->
  let c := Shaders.map u uv in
  let c' := Shaders.vColor u uv in
  0 <= Shaders.brightness u uv <= 1
  /\ 0 <= Shaders.impact u uv <= 1
  /\ x4 c <= x4 c' <= 1
  /\ y4 c <= y4 c' <= 1
  /\ z4 c <= z4 c' <= 1
  /\ w4 c' = w4 c.
Proof.
  intros Hr Hg Hb Hs c c'.
  assert (Hbr : 0 <= Shaders.brightness u uv <= 1).
  { unfold Shaders.brightness, Shaders.sampledColor, GLSL.dot3, GLSL.rgb.
    cbn [x3 y3 z3]. lra. }
  assert (Hi : 0 <= Shaders.impact u uv <= 1).
  { unfold Shaders.impact, Shaders.darkness.
    pose proof (pow_unit (1 - Shaders.brightness u uv)
                  (Shaders.brightnessSteepness u) ltac:(lra) Hs) as Hp.
    pose proof (clamp_unit (Shaders.brightnessBoost u)) as Hc.
    fold (Shaders.brightenFactor u) in Hc. nra. }
  split; [exact Hbr|]. split; [exact Hi|].
  unfold c', c, Shaders.vColor, Shaders.sampledColor, GLSL.with_rgb,
    GLSL.mix3, GLSL.mix, GLSL.rgb, GLSL.splat3.
  cbn [x3 y3 z3 x4 y4 z4 w4].
  set (t := Shaders.impact u uv) in *.
  repeat split; try reflexivity; nra.
Qed.

Lemma brightening_stays_in_gamut_witness :
  x4 (Shaders.map (Main.uniformsAt 200) (Vec2 0.5 0.5))
  <= x4 (Shaders.vColor (Main.uniformsAt 200) (Vec2 0.5 0.5)) <= 1.
Proof.
  refine (proj1 (proj2 (proj2
            (brightening_stays_in_gamut (Main.uniformsAt 200) (Vec2 0.5 0.5)
               _ _ _ _)))); cbn; lra.
Defined.

(** ** The fragment shader *)

Lemma smoothstep_unit (e0 e1 x : R) : 0 <= GLSL.smoothstep e0 e1 x <= 1.
Proof.
  unfold GLSL.smoothstep. cbv zeta.
  pose proof (clamp_unit ((x - e0) / (e1 - e0))) as H.
  set (t := GLSL.clamp _ 0 1) in *.
  assert (H0 : 0 <= t * t * (3 - 2 * t))
    by (apply Rmult_le_pos; [apply Rmult_le_pos|]; lra).
  assert (H1 : 0 <= (1 - t) * (1 - t) * (1 + 2 * t))
    by (apply Rmult_le_pos; [apply Rmult_le_pos|]; lra).
  split; [exact H0|].
  replace (t * t * (3 - 2 * t)) with (1 - (1 - t) * (1 - t) * (1 + 2 * t))
    by ring.
  lra.
Qed.

Lemma clamp_monotone (a b : R) :
  a <= b -> GLSL.clamp a 0 1 <= GLSL.clamp b 0 1.
Proof. intros H. minmax. Qed.

Lemma hermite_monotone (s t : R) :
  0 <= s <= t -> t <= 1 -> s * s * (3 - 2 * s) <= t * t * (3 - 2 * t).
Proof.
  intros [H0 Hst] H1.
  replace (t * t * (3 - 2 * t) - s * s * (3 - 2 * s))
    with ((t - s) * (3 * (t + s) - 2 * (t * t + t * s + s * s)))
    in * by ring.
  assert (Hq : 0 <= 3 * (t + s) - 2 * (t * t + t * s + s * s)) by nra.
  assert (Hd : 0 <= t - s) by lra.
  pose proof (Rmult_le_pos _ _ Hd Hq) as Hp.
  replace ((t - s) * (3 * (t + s) - 2 * (t * t + t * s + s * s)))
    with (t * t * (3 - 2 * t) - s * s * (3 - 2 * s)) in Hp by ring.
  lra.
Qed.

Lemma innerEdge_below_rim (softness : R) :
  0 < softness -> 0 <= Shaders.innerEdge softness < 0.5.
Proof. intros H. unfold Shaders.innerEdge. split; minmax. Qed.

(** X19: the fragment shader draws a disc, with a soft rim when the edge
    softness is positive.  For every edge softness, the 0.0 of main.js
    included, a fragment is discarded exactly when it is farther than 0.5
    from the centre of the point, a fragment that is kept has the red,
    green and blue of the vertex colour, and the centre of the point is at
    distance 0.  For a positive edge softness the inner edge
    [max(0, 0.5 - softness)] lies below the rim 0.5, the alpha of a kept
    fragment is the alpha of the vertex colour times a factor in [0, 1],
    and that factor is 1 up to the inner edge, 0 on the rim, and never
    increases with the distance from the centre.  For an edge softness of
    0 or less the inner edge is at or beyond the rim, as it is for the
    [CONFIG] of main.js, where it is 0.5: the two edges handed to
    [smoothstep] are then not in increasing order, GLSL leaves its value
    undefined, and nothing is stated about the alpha. *)
Theorem fragment_is_a_soft_disc (softness : R) (vColor : vec4)
  (pc pc' : vec2) :
  let d := Shaders.fragDistance pc in
  let alpha := Shaders.fragAlpha softness pc in
  (Shaders.fragmentMain softness vColor pc = None <-> 0.5 < d)
  /\ (d <= 0.5 ->
      exists c, Shaders.fragmentMain softness vColor pc = Some c
                /\ GLSL.rgb c = GLSL.rgb vColor)
  /\ Shaders.fragDistance (Vec2 0.5 0.5) = 0
  /\ (softness <= 0 -> 0.5 <= Shaders.innerEdge softness)
  /\ Shaders.innerEdge (Main.pointEdgeSoftness Main.CONFIG) = 0.5
  /\ (0 < softness ->
      0 <= Shaders.innerEdge softness < 0.5
      /\ (d <= 0.5 ->
          Shaders.fragmentMain softness vColor pc
          = Some (Vec4 (x4 vColor) (y4 vColor) (z4 vColor)
                    (w4 vColor * alpha)))
      /\ 0 <= alpha <= 1
      /\ (d <= Shaders.innerEdge softness -> alpha = 1)
      /\ (d = 0.5 -> alpha = 0)
      /\ (d <= Shaders.fragDistance pc' ->
          Shaders.fragAlpha softness pc' <= alpha)).
Proof.
  intros d alpha.
  assert (Hkept : d <= 0.5 ->
                  Shaders.fragmentMain softness vColor pc
                  = Some (Vec4 (x4 vColor) (y4 vColor) (z4 vColor)
                            (w4 vColor * alpha))).
  { intros Hd. unfold Shaders.fragmentMain. fold d.
    apply gtb_false in Hd. now rewrite Hd. }
  split; [|split; [|split; [|split; [|split]]]].
  - unfold Shaders.fragmentMain. fold d.
    destruct (Num.gtb d 0.5) eqn:Hg.
    + apply gtb_true in Hg. split; [intros _; exact Hg | reflexivity].
    + apply gtb_false in Hg. split; [discriminate | lra].
  - intros Hd. eexists. split; [apply Hkept, Hd | reflexivity].
  - unfold Shaders.fragDistance, GLSL.length2, GLSL.sub2. cbn [x2 y2].
    replace ((0.5 - 0.5) * (0.5 - 0.5) + (0.5 - 0.5) * (0.5 - 0.5)) with 0
      by lra.
    apply sqrt_0.
  - intros Hs. unfold Shaders.innerEdge. minmax.
  - change (Main.pointEdgeSoftness Main.CONFIG) with 0.
    unfold Shaders.innerEdge. minmax.
  - intros Hs.
    pose proof (innerEdge_below_rim softness Hs) as He.
    split; [exact He|]. split; [exact Hkept|].
    split; [|split; [|split]].
    + unfold alpha, Shaders.fragAlpha.
      pose proof (smoothstep_unit (Shaders.innerEdge softness) 0.5
                    (Shaders.fragDistance pc)). lra.
    + intros Hd. unfold alpha, Shaders.fragAlpha, GLSL.smoothstep. cbv zeta.
      fold d. rewrite clamp_ramp_below by lra. lra.
    + intros Hd. unfold alpha, Shaders.fragAlpha, GLSL.smoothstep. cbv zeta.
      fold d. rewrite clamp_ramp_above by lra. lra.
    + intros Hd. unfold alpha, Shaders.fragAlpha, GLSL.smoothstep. cbv zeta.
      fold d.
      pose proof (ramp_monotone (Shaders.innerEdge softness) 0.5 ltac:(lra)
                    d (Shaders.fragDistance pc') Hd) as Hm.
      apply clamp_monotone in Hm.
      pose proof (clamp_unit ((d - Shaders.innerEdge softness)
                              / (0.5 - Shaders.innerEdge softness))) as H0.
      pose proof (clamp_unit ((Shaders.fragDistance pc'
                               - Shaders.innerEdge softness)
                              / (0.5 - Shaders.innerEdge softness))) as H1.
      pose proof (hermite_monotone _ _ (conj (proj1 H0) Hm) (proj2 H1)).
      lra.
Qed.

(** The fragment at the centre of a point, with the edge softness 0.4 of
    the x1 configuration: it is kept, with the alpha of the vertex
    colour. *)
Lemma fragment_is_a_soft_disc_witness :
  Shaders.fragAlpha 0.4 (Vec2 0.5 0.5) = 1
  /\ Shaders.fragmentMain 0.4 (Vec4 1 1 1 1) (Vec2 0.5 0.5)
     = Some (Vec4 1 1 1 (1 * Shaders.fragAlpha 0.4 (Vec2 0.5 0.5))).
Proof.
  assert (Hs : 0 < 0.4) by lra.
  pose proof (fragment_is_a_soft_disc 0.4 (Vec4 1 1 1 1) (Vec2 0.5 0.5)
                (Vec2 0.5 0.5)) as H.
  cbv zeta in H.
  destruct H as (_ & _ & Hd & _ & _ & H).
  destruct (H Hs) as (He & Hkept & _ & Hin & _).
  split.
  - apply Hin. rewrite Hd. exact (proj1 He).
  - apply Hkept. rewrite Hd. lra.
Defined.

(** ** Resizing, and the uniforms across frames *)

(** X20: a resize makes the frustum match the window.  After [onResize]
    (window height non-zero) the frustum is symmetric about the optical
    axis, its width is to its height as the window's width is to the
    window's height, and the camera zoom and position are untouched.  If
    the points mesh exists its screen-size uniforms are the new window
    size and nothing else of it changes; if the image has not loaded yet
    there is still no mesh. *)
Theorem resize_matches_window (cfg : Main.Config) (w : Main.Window)
  (s : Main.State) :
  Main.innerHeight w <> 0 ->
  let s' := Main.onResize cfg w s in
  let cam := Main.camera s' in
  Main.window s' = w
  /\ Main.left cam = - Main.right cam
  /\ Main.bottom cam = - Main.top cam
  /\ (Main.right cam - Main.left cam) * Main.innerHeight w
     = (Main.top cam - Main.bottom cam) * Main.innerWidth w
  /\ Main.zoom cam = Main.zoom (Main.camera s)
  /\ Main.position cam = Main.position (Main.camera s)
  /\ (forall u,
        Main.densePointsMesh s = Some u ->
        Main.densePointsMesh s'
        = Some (Shaders.set_screenHeight (Main.innerHeight w)
                  (Shaders.set_screenWidth (Main.innerWidth w) u)))
  /\ (Main.densePointsMesh s = None -> Main.densePointsMesh s' = None).
Proof.
  intros Hh s' cam. subst cam s'. unfold Main.onResize. cbv zeta.
  cbn [Main.densePointsMesh Main.set_camera Main.set_window].
  destruct (Main.densePointsMesh s) as [u|] eqn:Hm;
    cbn [Main.camera Main.window Main.densePointsMesh Main.set_densePointsMesh
         Main.set_camera Main.set_window Main.set_frustum Main.left Main.right
         Main.top Main.bottom Main.zoom Main.position];
    (split; [reflexivity|]); (split; [ring|]); (split; [ring|]);
    (split; [field; exact Hh|]); (split; [reflexivity|]);
    (split; [reflexivity|]); split; intros; congruence.
Qed.

Lemma resize_matches_window_witness :
  let cam := Main.camera
               (Main.onResize Main.CONFIG (Main.mkWindow 800 600)
                  (Main.loadedAt 2)) in
  (Main.right cam - Main.left cam) * 600 = (Main.top cam - Main.bottom cam) * 800.
Proof.
  intros cam.
  refine (proj1 (proj2 (proj2 (proj2
            (resize_matches_window Main.CONFIG (Main.mkWindow 800 600)
               (Main.loadedAt 2) _))))).
  cbn. lra.
Defined.

(** One frame on an existing points mesh. *)
Lemma animate_pushes (cfg : Main.Config) (i : Main.FrameInputs)
  (s : Main.State) (u : Shaders.Uniforms) :
  Main.densePointsMesh s = Some u ->
  exists u',
    Main.densePointsMesh (Main.animate cfg i s) = Some u'
    /\ Shaders.cameraZoom u' = Main.zoom (Main.camera (Main.animate cfg i s))
    /\ Shaders.time u' = Shaders.time u + 0.016
    /\ Shaders.seed u' = Shaders.seed u
    /\ Shaders.displacementAmount u' = Shaders.displacementAmount u.
Proof.
  intros Hu. destruct (animate_densePoints cfg i s u Hu) as (s' & Hz & Hd).
  exists (Main.pushUniforms cfg s' u). split; [exact Hd|].
  split; [exact Hz|]. repeat split.
Qed.

(** X21: the shader clock advances by 0.016 per frame.  Once the points
    mesh exists, after any number of consecutive frames it still exists,
    its [time] uniform has grown by 0.016 times the number of frames, its
    seed and displacement amount are unchanged, and after at least one
    frame its [cameraZoom] uniform is the camera zoom of the state. *)
Theorem shader_clock_counts_frames (cfg : Main.Config)
  (inputs : list Main.FrameInputs) (s : Main.State) (u : Shaders.Uniforms) :
  Main.densePointsMesh s = Some u ->
  let s' := Main.run cfg s (List.map Main.Frame inputs) in
  exists u',
    Main.densePointsMesh s' = Some u'
    /\ Shaders.time u' = Shaders.time u + 0.016 * INR (length inputs)
    /\ Shaders.seed u' = Shaders.seed u
    /\ Shaders.displacementAmount u' = Shaders.displacementAmount u
    /\ (inputs <> [] -> Shaders.cameraZoom u' = Main.zoom (Main.camera s')).
Proof.
  cbv zeta. revert s u.
  induction inputs as [|i inputs IH] using rev_ind; intros s u Hu.
  - exists u. cbn. repeat split; try assumption; try lra. congruence.
  - rewrite map_app, length_app. cbn [List.map length].
    unfold Main.run in *. rewrite fold_left_app. cbn [fold_left Main.step].
    destruct (IH s u Hu) as (u1 & H1 & Ht & Hs & Hda & _).
    destruct (animate_pushes cfg i _ u1 H1) as (u2 & H2 & Hz & Ht2 & Hs2 & Hd2).
    exists u2. split; [exact H2|].
    split; [rewrite Ht2, Ht, plus_INR; cbn [INR]; lra|].
    split; [congruence|]. split; [congruence|]. intros _. exact Hz.
Qed.

Lemma shader_clock_counts_frames_witness :
  exists u',
    Main.densePointsMesh
      (Main.run Main.CONFIG (Main.loadedAt 2)
         (List.map Main.Frame [Main.quietFrame; Main.quietFrame]))
    = Some u'
    /\ Shaders.time u' = 0 + 0.016 * INR 2.
Proof.
  destruct (shader_clock_counts_frames Main.CONFIG
              [Main.quietFrame; Main.quietFrame] (Main.loadedAt 2)
              (Main.initialUniforms Main.CONFIG
                 (Main.set_calculatedPlaneWidth
                    (Main.planeHeight Main.CONFIG * (INR 4 / INR 2))
                    (Main.set_imageDimensions (Vec2 (INR 4) (INR 2))
                       (Main.init Main.CONFIG (Main.mkWindow 1280 720)
                          0.25 0.75 0)))
                 Main.blackTexture 0.5) eq_refl)
    as (u' & Hd & Ht & _).
  exists u'. split; [exact Hd | exact Ht].
Defined.

(** X22: the zoom counter shows what the shader uses.  For the uniforms
    pushed in the same frame, the zoom factor and the displacement factor
    that [animate] prints are the shader's [zoomFactor] and
    [displacementFactor], and the printed displacement is the shader's
    [scaledDisplacement] as long as the [displacementAmount] uniform still
    holds the configured amount, which is what the load callback put
    there. *)
Theorem counter_matches_shader (cfg : Main.Config) (s : Main.State)
  (u : Shaders.Uniforms) :
  let zoom := Main.zoom (Main.camera s) in
  let u' := Main.pushUniforms cfg s u in
  Main.counterZoomFactor cfg zoom = Shaders.zoomFactor u'
  /\ Main.counterDisplacementFactor cfg zoom = Shaders.displacementFactor u'
  /\ (Shaders.displacementAmount u = Main.displacementAmount cfg ->
      Main.displacementAmount cfg * Main.counterDisplacementFactor cfg zoom * 5
      = Shaders.scaledDisplacement u')
  /\ (forall texture rnd s0,
        Shaders.displacementAmount (Main.initialUniforms cfg s0 texture rnd)
        = Main.displacementAmount cfg).
Proof.
  intros zoom u'.
  assert (Hd : Main.counterDisplacementFactor cfg zoom
               = Shaders.displacementFactor u')
    by apply counterDisplacementFactor_shader.
  split; [|split; [exact Hd | split]].
  - unfold Main.counterZoomFactor, Shaders.zoomFactor. cbn.
    unfold GLSL.clamp, JS.min, JS.max.
    rewrite Rmin_comm. f_equal. apply Rmax_comm.
  - intros Ha. rewrite Hd. unfold Shaders.scaledDisplacement.
    change (Shaders.displacementAmount u') with (Shaders.displacementAmount u).
    now rewrite Ha.
  - reflexivity.
Qed.

(** ** main.js against its x1 variant *)

Lemma pushUniforms_x1_boost (cfg : Main.Config) (s : Main.State)
  (u : Shaders.Uniforms) :
  Main.pushUniforms cfg s u =
  Shaders.set_brightnessBoost
    (Main.brightnessBoostUniform cfg (Main.zoom (Main.camera s)))
    (Main.pushUniforms_x1 cfg s u).
Proof. reflexivity. Qed.

(** X23: with auto-navigation switched off, main.js animates like its x1
    variant.  When [autoMovementEnabled] and [autoZoomEnabled] are false,
    the state after a frame of main.js is the state after a frame of the
    variant with the two meshes replaced: the camera, the targets, the
    velocities and the drag state are the same.  The uniforms pushed are
    those of the variant with the brightness boost added. *)
Theorem animate_refines_x1 (cfg : Main.Config) (i : Main.FrameInputs)
  (s : Main.State) :
  Main.autoMovementEnabled cfg = false ->
  Main.autoZoomEnabled cfg = false ->
  let s' := Main.animate cfg i s in
  s' = Main.set_texturePlaneMesh (Main.texturePlaneMesh s')
         (Main.set_densePointsMesh (Main.densePointsMesh s')
            (Main.animate_x1 cfg s))
  /\ (forall s0 u,
        Main.pushUniforms cfg s0 u =
        Shaders.set_brightnessBoost
          (Main.brightnessBoostUniform cfg (Main.zoom (Main.camera s0)))
          (Main.pushUniforms_x1 cfg s0 u)).
Proof.
  intros Hm Hz s'. split; [|intros; apply pushUniforms_x1_boost].
  subst s'. unfold Main.animate, Main.animate_x1. cbv zeta.
  set (t := Main.updatePan cfg (Main.updateZoom cfg s)).
  assert (E1 : Main.updateAutoMovement cfg i t = t)
    by (unfold Main.updateAutoMovement; now rewrite Hm).
  assert (E2 : Main.updateAutoZoom cfg i t = t)
    by (unfold Main.updateAutoZoom; now rewrite Hz).
  rewrite E1, E2.
  generalize (Main.enforceCameraOrientation cfg t). intros r.
  unfold Main.refreshTexturePlane, Main.refreshUniforms,
    Main.refreshUniforms_x1.
  destruct r as [cam w dr lm tz zv tp pv [u|] [p|] im pw av tav zd tzd azv lt];
    reflexivity.
Qed.

(** The theorem at [manualConfig], on a loaded scene at zoom 2. *)
Lemma animate_refines_x1_witness :
  let s' := Main.animate Main.manualConfig Main.quietFrame (Main.loadedAt 2) in
  s' = Main.set_texturePlaneMesh (Main.texturePlaneMesh s')
         (Main.set_densePointsMesh (Main.densePointsMesh s')
            (Main.animate_x1 Main.manualConfig (Main.loadedAt 2))).
Proof.
  exact (proj1 (animate_refines_x1 Main.manualConfig Main.quietFrame
                  (Main.loadedAt 2) eq_refl eq_refl)).
Defined.

(** ** The image load *)

Lemma pointsGeometry_length (cfg : Main.Config) (width height : nat) :
  length (Main.pointsGeometry cfg width height) = (height * width)%nat.
Proof.
  unfold Main.pointsGeometry. cbv zeta.
  rewrite (flat_map_length_const _ width).
  - now rewrite length_seq.
  - intros iy. now rewrite length_map, length_seq.
Qed.

(** X24: the load callback sizes the uniforms to the geometry.  After the
    callback has run on a [width] by [height] image (height non-zero)
    both meshes exist; the shader's
    [totalPoints] is the number of samples of the points geometry; the
    plane has the aspect ratio of the image; the seed is 100 times the
    random number drawn; and the overlay already carries the fade of the
    first frame's zoom. *)
Theorem load_sizes_uniforms_to_geometry (cfg : Main.Config)
  (width height : nat) (texture : vec2 -> vec4) (rnd : R)
  (i : Main.FrameInputs) (s : Main.State) :
  height <> 0%nat ->
  let s' := Main.onTextureLoaded cfg width height texture rnd i s in
  exists u,
    Main.densePointsMesh s' = Some u
    /\ Shaders.totalPoints u
       = INR (length (Main.pointsGeometry cfg width height))
    /\ Shaders.planeWidth u * INR height = Shaders.planeHeight u * INR width
    /\ Shaders.planeHeight u = Main.planeHeight cfg
    /\ Shaders.seed u = rnd * 100
    /\ Shaders.map u = texture
    /\ Main.texturePlaneMesh s'
       = Some (Main.fadeTexturePlane cfg (Main.zoom (Main.camera s'))).
Proof.
  intros Hh s'. subst s'. unfold Main.onTextureLoaded. cbv zeta.
  set (s1 := Main.set_texturePlaneMesh _ _).
  destruct (animate_densePoints cfg i s1 _ eq_refl) as (s2 & _ & Hd).
  eexists. split; [exact Hd|].
  assert (Hn : INR height <> 0) by (apply not_0_INR; exact Hh).
  split; [|split; [|split; [|split; [|split]]]].
  - rewrite pointsGeometry_length, mult_INR.
    unfold Shaders.totalPoints. cbn. ring.
  - cbn. field. exact Hn.
  - reflexivity.
  - reflexivity.
  - reflexivity.
  - apply animate_texturePlane with (p := Main.mkTexturePlaneMesh 1 true).
    reflexivity.
Qed.

Lemma load_sizes_uniforms_to_geometry_witness :
  exists u,
    Main.densePointsMesh
      (Main.onTextureLoaded Main.CONFIG 4 2 Main.blackTexture 0.5
         Main.quietFrame
         (Main.init Main.CONFIG (Main.mkWindow 1280 720) 0.25 0.75 0))
    = Some u
    /\ Shaders.totalPoints u = INR (length (Main.pointsGeometry Main.CONFIG 4 2)).
Proof.
  destruct (load_sizes_uniforms_to_geometry Main.CONFIG 4 2 Main.blackTexture
              0.5 Main.quietFrame
              (Main.init Main.CONFIG (Main.mkWindow 1280 720) 0.25 0.75 0))
    as (u & Hd & Ht & _).
  - discriminate.
  - exists u. split; [exact Hd | exact Ht].
Defined.
